(** * The S2I builder of knative func ([pkg/builders/s2i/builder.go])

    A shallow embedding of the builder and of the parts of the Go standard
    library it calls (regexp, path/filepath, crypto/sha1, encoding/hex,
    archive/tar), followed by the properties of the build pipeline.

    Host conventions: paths use the separator [/] (a Unix-like host); text is
    a sequence of bytes, written [string] for literals of the source and
    [list ascii] where the library code walks over it. *)

From Stdlib Require Import ZArith Ascii String List Bool Lia Sorted.
From stdpp Require Import base option gmap strings.

Import ListNotations.
Local Open Scope string_scope.
Local Open Scope list_scope.

(** ** Text *)

Abbreviation text := (list ascii).

Definition T (s : string) : text := list_ascii_of_string s.
Definition S_ (l : text) : string := string_of_list_ascii l.

Definition nl : ascii := "010"%char.

(** [strings.HasPrefix], on byte sequences. *)
Module Strings.

Fixpoint HasPrefix (s prefix : text) : bool :=
  match prefix, s with
  | [], _ => true
  | p :: prefix', c :: s' => Ascii.eqb c p && HasPrefix s' prefix'
  | _ :: _, [] => false
  end.

(** [strings.ToLower] on ASCII letters. *)
Definition lower (c : ascii) : ascii :=
  let n := nat_of_ascii c in
  if (65 <=? n)%nat && (n <=? 90)%nat then ascii_of_nat (n + 32) else c.

Definition ToLower (s : text) : text := map lower s.

End Strings.

(** ** Package regexp: the syntax and the backtracking semantics

    Go's [regexp] finds the leftmost match and, among the matches that start
    there, the one a backtracking search finds first.  Only the constructs
    that occur in the patterns of [builder.go] are parsed: literals, escaped
    literals, [.], [^], [$], grouping with capture, alternation, and the
    greedy [*]. *)
Module Regexp.

Inductive regex : Type :=
| Empty                                (* matches the empty string *)
| Chr (c : ascii)                      (* a literal byte *)
| AnyNotNL                             (* [.] : any byte but newline *)
| BeginText                            (* [^] without the m flag *)
| EndText                              (* [$] without the m flag *)
| Cat (r1 r2 : regex)
| Alt (r1 r2 : regex)
| Star (r : regex)                     (* greedy *)
| Cap (i : nat) (r : regex).           (* capturing group number i *)

(** *** Parser ([regexp.MustCompile])

    [alt := cat ('|' cat)*], [cat := rep*], [rep := atom '*'*],
    [atom := '(' alt ')' | '^' | '$' | '.' | backslash c | c]
    (the backslash is the byte 092).
    Groups are numbered by their opening parenthesis, from 1. *)

Definition mkCat (r1 r2 : regex) : regex :=
  match r1, r2 with
  | Empty, _ => r2
  | _, Empty => r1
  | _, _ => Cat r1 r2
  end.

Fixpoint stars (r : regex) (s : text) : regex * text :=
  match s with
  | "*"%char :: s' => stars (Star r) s'
  | _ => (r, s)
  end.

(** The three mutually recursive parsers share one fuel; each returns the
    tree, the rest of the pattern and the next free group number. *)
Fixpoint parse_alt (fuel : nat) (s : text) (n : nat) {struct fuel}
  : option (regex * text * nat) :=
  match fuel with
  | O => None
  | S fuel' =>
      match parse_cat fuel' s n with
      | Some (r1, "|"%char :: s1, n1) =>
          match parse_alt fuel' s1 n1 with
          | Some (r2, s2, n2) => Some (Alt r1 r2, s2, n2)
          | None => None
          end
      | other => other
      end
  end
with parse_cat (fuel : nat) (s : text) (n : nat) {struct fuel}
  : option (regex * text * nat) :=
  match fuel with
  | O => None
  | S fuel' =>
      match s with
      | [] => Some (Empty, s, n)
      | "|"%char :: _ => Some (Empty, s, n)
      | ")"%char :: _ => Some (Empty, s, n)
      | _ =>
          match parse_atom fuel' s n with
          | Some (a, s1, n1) =>
              let '(r1, s2) := stars a s1 in
              match parse_cat fuel' s2 n1 with
              | Some (r2, s3, n2) => Some (mkCat r1 r2, s3, n2)
              | None => None
              end
          | None => None
          end
      end
  end
with parse_atom (fuel : nat) (s : text) (n : nat) {struct fuel}
  : option (regex * text * nat) :=
  match fuel with
  | O => None
  | S fuel' =>
      match s with
      | [] => None
      | "("%char :: s1 =>
          match parse_alt fuel' s1 (S n) with
          | Some (r, ")"%char :: s2, n') => Some (Cap n r, s2, n')
          | _ => None
          end
      | "^"%char :: s1 => Some (BeginText, s1, n)
      | "$"%char :: s1 => Some (EndText, s1, n)
      | "."%char :: s1 => Some (AnyNotNL, s1, n)
      | "*"%char :: _ => None
      | "092"%char :: c :: s1 => Some (Chr c, s1, n)
      | "092"%char :: [] => None
      | c :: s1 => Some (Chr c, s1, n)
      end
  end.

(** [regexp.Compile]: the whole pattern has to be consumed. *)
Definition Compile (pattern : string) : option regex :=
  let s := T pattern in
  match parse_alt (3 * List.length s + 3) s 1 with
  | Some (r, [], _) => Some r
  | _ => None
  end.

(** *** Matching *)

(** Submatches found so far, most recent first. *)
Definition caps : Type := list (nat * text).

Fixpoint group (i : nat) (cs : caps) : option text :=
  match cs with
  | [] => None
  | (j, t) :: cs' => if Nat.eqb i j then Some t else group i cs'
  end.

Section Matcher.
Context {R : Type}.

(** A continuation receives: whether the position is still the beginning
    of the text, the unread input, the submatches. *)
Definition cont : Type := bool -> text -> caps -> option R.

(** Greedy iteration: one more round of [body] first, leaving the loop
    second.  A round that consumes nothing ends the iteration. *)
Fixpoint star_loop (body : bool -> text -> caps -> cont -> option R)
    (k : cont) (fuel : nat) (bot : bool) (s : text) (cs : caps)
  : option R :=
  match fuel with
  | O => k bot s cs
  | S fuel' =>
      match body bot s cs
              (fun b' s' cs' =>
                 if (List.length s' <? List.length s)%nat
                 then star_loop body k fuel' b' s' cs'
                 else None) with
      | Some x => Some x
      | None => k bot s cs
      end
  end.

Fixpoint run (r : regex) (bot : bool) (s : text) (cs : caps) (k : cont)
    {struct r} : option R :=
  match r with
  | Empty => k bot s cs
  | Chr c =>
      match s with
      | x :: s' => if Ascii.eqb x c then k false s' cs else None
      | [] => None
      end
  | AnyNotNL =>
      match s with
      | x :: s' => if Ascii.eqb x nl then None else k false s' cs
      | [] => None
      end
  | BeginText => if bot then k bot s cs else None
  | EndText => match s with [] => k bot s cs | _ :: _ => None end
  | Cat r1 r2 => run r1 bot s cs (fun b s' cs' => run r2 b s' cs' k)
  | Alt r1 r2 =>
      match run r1 bot s cs k with
      | Some x => Some x
      | None => run r2 bot s cs k
      end
  | Star r1 => star_loop (run r1) k (List.length s) bot s cs
  | Cap i r1 =>
      run r1 bot s cs
        (fun b s' cs' =>
           k b s' ((i, firstn (List.length s - List.length s') s) :: cs'))
  end.
End Matcher.

(** A match that starts at the current position: its length and its
    submatches. *)
Definition match_here (re : regex) (bot : bool) (s : text)
  : option (nat * caps) :=
  run re bot s [] (fun _ s' cs => Some (List.length s - List.length s', cs)).

(** The unanchored search of [MatchString]: the positions are tried from
    left to right, the end of the text included. *)
Fixpoint search (re : regex) (bot : bool) (s : text) : bool :=
  match match_here re bot s with
  | Some _ => true
  | None =>
      match s with
      | [] => false
      | _ :: s' => search re false s'
      end
  end.

Definition MatchString (re : regex) (s : string) : bool :=
  search re true (T s).

(** [regexp.MustCompile] panics on a pattern that does not parse; the
    patterns of the builder do parse ([Empty] stands in otherwise). *)
Definition MustCompile (pattern : string) : regex :=
  match Compile pattern with
  | Some r => r
  | None => Empty
  end.

(** *** Replacement templates ([Regexp.expand] and [extract]) *)

Definition is_digit (c : ascii) : bool :=
  let n := nat_of_ascii c in (48 <=? n)%nat && (n <=? 57)%nat.

Definition is_word (c : ascii) : bool :=
  let n := nat_of_ascii c in
  is_digit c
  || ((65 <=? n)%nat && (n <=? 90)%nat)
  || ((97 <=? n)%nat && (n <=? 122)%nat)
  || Ascii.eqb c "_"%char.

Fixpoint span (p : ascii -> bool) (s : text) : text * text :=
  match s with
  | c :: s' =>
      if p c then let '(a, b) := span p s' in (c :: a, b) else ([], s)
  | [] => ([], [])
  end.

(** The number a name denotes: decimal digits only, no leading zero, and
    the accumulation gives up once it has reached 1e8. *)
Fixpoint number_from (acc : N) (name : text) : option nat :=
  match name with
  | [] => Some (N.to_nat acc)
  | c :: name' =>
      if negb (is_digit c) || (100000000 <=? acc)%N then None
      else number_from (acc * 10 + (N_of_ascii c - 48))%N name'
  end.

Definition number (name : text) : option nat :=
  match name with
  | "0"%char :: _ :: _ => None
  | _ => number_from 0 name
  end.

(** [extract str]: the name that follows a [$], its number if it is one,
    and how many bytes of [str] the reference takes. *)
Definition extract (str : text) : option (text * option nat * nat) :=
  match str with
  | [] => None
  | "{"%char :: str' =>
      let '(name, rest) := span is_word str' in
      match name, rest with
      | [], _ => None
      | _, "}"%char :: _ => Some (name, number name, List.length name + 2)
      | _, _ => None
      end
  | _ =>
      let '(name, _) := span is_word str in
      match name with
      | [] => None
      | _ => Some (name, number name, List.length name)
      end
  end.

(** [expand template skip whole cs]: [whole] is the matched text (group 0),
    [cs] the numbered submatches; [skip] counts the bytes of the template
    that a reference just read has still to pass over.  The patterns have
    no named groups, so a reference by name expands to nothing. *)
Fixpoint expand (template : text) (skip : nat) (whole : text) (cs : caps)
  : text :=
  match template with
  | [] => []
  | c :: t =>
      match skip with
      | S skip' => expand t skip' whole cs
      | O =>
          if Ascii.eqb c "$"%char then
            match t with
            | "$"%char :: _ => "$"%char :: expand t 1 whole cs
            | _ =>
                match extract t with
                | Some (_, Some O, len) => whole ++ expand t len whole cs
                | Some (_, Some num, len) =>
                    match group num cs with
                    | Some g => g ++ expand t len whole cs
                    | None => expand t len whole cs
                    end
                | Some (_, None, len) => expand t len whole cs
                | None => "$"%char :: expand t 0 whole cs
                end
            end
          else c :: expand t 0 whole cs
      end
  end.

(** *** [ReplaceAllString]

    The text is scanned once.  [skip] counts the bytes of the current match
    still to pass over; [after] tells that a match ended exactly here, in
    which case an empty match is not replaced again. *)
Fixpoint replaceAll (re : regex) (repl : text) (bot : bool) (s : text)
    (skip : nat) (after : bool) {struct s} : text :=
  match skip with
  | S skip' =>
      match s with
      | [] => []
      | _ :: s' => replaceAll re repl false s' skip' true
      end
  | O =>
      match match_here re bot s with
      | Some (O, cs) =>
          (if after then [] else expand repl 0 [] cs)
            ++ match s with
               | [] => []
               | c :: s' => c :: replaceAll re repl false s' 0 false
               end
      | Some (S len, cs) =>
          expand repl 0 (firstn (S len) s) cs
            ++ match s with
               | [] => []
               | _ :: s' => replaceAll re repl false s' len true
               end
      | None =>
          match s with
          | [] => []
          | c :: s' => c :: replaceAll re repl false s' 0 false
          end
      end
  end.

Definition ReplaceAllString (re : regex) (src repl : string) : string :=
  S_ (replaceAll re (T repl) true (T src) 0 false).

End Regexp.

(** ** Package path/filepath, for the separator [/]

    A cleaned path is handled through its elements, the pieces between
    separators. *)
Module Filepath.

Definition Separator : ascii := "/"%char.

Definition IsAbs (path : text) : bool := Strings.HasPrefix path [Separator].

(** With [/] as the separator [ToSlash] has nothing to rewrite. *)
Definition ToSlash (path : text) : text := path.

(** The pieces of [s] between separators; ["a//b"] has an empty piece. *)
Fixpoint split (s : text) : list text :=
  match s with
  | [] => [[]]
  | c :: s' =>
      if Ascii.eqb c Separator then [] :: split s'
      else match split s' with
           | e :: es => (c :: e) :: es
           | [] => [[c]]
           end
  end.

Fixpoint join (es : list text) : text :=
  match es with
  | [] => []
  | [e] => e
  | e :: es' => e ++ Separator :: join es'
  end.

Definition dot : text := ["."%char].
Definition dotdot : text := ["."%char; "."%char].

Definition text_eqb (a b : text) : bool := bool_decide (a = b).

(** The loop of [Clean]: empty and [.] elements are dropped; a [..]
    removes the element before it, is dropped at the root, and is kept (in
    [ups]) at the front of a path that is not rooted. *)
Fixpoint clean_elems (rooted : bool) (es : list text) (ups : nat)
    (stack : list text) : nat * list text :=
  match es with
  | [] => (ups, rev stack)
  | e :: es' =>
      if text_eqb e [] || text_eqb e dot then clean_elems rooted es' ups stack
      else if text_eqb e dotdot then
        match stack with
        | _ :: stack' => clean_elems rooted es' ups stack'
        | [] =>
            if rooted then clean_elems rooted es' ups []
            else clean_elems rooted es' (S ups) []
        end
      else clean_elems rooted es' ups (e :: stack)
  end.

Definition Clean (path : text) : text :=
  match path with
  | [] => dot
  | c :: _ =>
      let rooted := Ascii.eqb c Separator in
      let '(ups, stack) := clean_elems rooted (split path) 0 [] in
      let out := join (repeat dotdot ups ++ stack) in
      if rooted then Separator :: out
      else match out with [] => dot | _ => out end
  end.

(** The elements [Rel] steps through: those of [split], without the empty
    one that ends the root path and the empty path. *)
Definition elems (s : text) : list text :=
  match rev (split s) with
  | [] :: es => rev es
  | _ => split s
  end.

(** The first elements at which base and target differ. *)
Fixpoint strip (b t : list text) : list text * list text :=
  match b, t with
  | x :: b', y :: t' => if text_eqb x y then strip b' t' else (b, t)
  | _, _ => (b, t)
  end.

(** [Rel basepath targpath]; [None] stands for the error
    "Rel: can't make targpath relative to basepath". *)
Definition Rel (basepath targpath : text) : option text :=
  let base := Clean basepath in
  let targ := Clean targpath in
  if text_eqb targ base then Some dot
  else
    let base := if text_eqb base dot then [] else base in
    if negb (Bool.eqb (IsAbs base) (IsAbs targ)) then None
    else
      match strip (elems base) (elems targ) with
      | (x :: _, _ :: _) as p =>
          if text_eqb x dotdot then None
          else Some (join (map (fun _ => dotdot) (fst p) ++ snd p))
      | (rb, rt) => Some (join (map (fun _ => dotdot) rb ++ rt))
      end.

(** [Join]: the elements that are not empty, joined and cleaned. *)
Definition Join (es : list text) : text :=
  match List.filter (fun e => negb (text_eqb e [])) es with
  | [] => []
  | es' => Clean (join es')
  end.

End Filepath.

(** ** Package crypto/sha1, on 32-bit words kept in [Z] *)
Module Sha1.
Local Open Scope Z_scope.

Definition w32 (x : Z) : Z := x mod 2 ^ 32.

Definition RotateLeft32 (x k : Z) : Z :=
  w32 (Z.lor (Z.shiftl x k) (Z.shiftr x (32 - k))).

Definition not32 (x : Z) : Z := Z.lxor x 4294967295.

Definition init : Z * Z * Z * Z * Z :=
  (0x67452301, 0xEFCDAB89, 0x98BADCFE, 0x10325476, 0xC3D2E1F0).

Definition K0 : Z := 0x5A827999.
Definition K1 : Z := 0x6ED9EBA1.
Definition K2 : Z := 0x8F1BBCDC.
Definition K3 : Z := 0xCA62C1D6.

(** The message followed by [0x80], zeros up to 56 modulo 64, and the bit
    length on 8 bytes, most significant first. *)
Definition be_bytes (n : nat) (x : Z) : list Z :=
  map (fun i => (Z.shiftr x (8 * Z.of_nat i)) mod 256) (rev (seq 0 n)).

Definition pad (msg : list Z) : list Z :=
  let len := Z.of_nat (List.length msg) in
  let zeros := Z.to_nat ((55 - len) mod 64) in
  msg ++ 128 :: repeat 0 zeros ++ be_bytes 8 (8 * len).

Fixpoint be_words (n : nat) (bs : list Z) : list Z :=
  match n, bs with
  | S n', b0 :: b1 :: b2 :: b3 :: bs' =>
      (b0 * 16777216 + b1 * 65536 + b2 * 256 + b3) :: be_words n' bs'
  | _, _ => []
  end.

(** The schedule: 16 words of the block, then
    [w(i) = rotl1 (w(i-3) xor w(i-8) xor w(i-14) xor w(i-16))];
    [rw] holds the words so far, last first. *)
Fixpoint schedule (n : nat) (rw : list Z) : list Z :=
  match n with
  | O => rev rw
  | S n' =>
      let w := RotateLeft32
                 (Z.lxor (Z.lxor (nth 2 rw 0) (nth 7 rw 0))
                         (Z.lxor (nth 13 rw 0) (nth 15 rw 0))) 1 in
      schedule n' (w :: rw)
  end.

Definition round (i : nat) (st : Z * Z * Z * Z * Z) (w : Z)
  : Z * Z * Z * Z * Z :=
  let '(a, b, c, d, e) := st in
  let '(f, k) :=
    if (i <? 20)%nat then (Z.lor (Z.land b c) (Z.land (not32 b) d), K0)
    else if (i <? 40)%nat then (Z.lxor (Z.lxor b c) d, K1)
    else if (i <? 60)%nat
         then (Z.lor (Z.land (Z.lor b c) d) (Z.land b c), K2)
    else (Z.lxor (Z.lxor b c) d, K3) in
  let t := w32 (RotateLeft32 a 5 + f + e + w + k) in
  (t, a, RotateLeft32 b 30, c, d).

Fixpoint rounds (i : nat) (ws : list Z) (st : Z * Z * Z * Z * Z)
  : Z * Z * Z * Z * Z :=
  match ws with
  | [] => st
  | w :: ws' => rounds (S i) ws' (round i st w)
  end.

Definition block (h : Z * Z * Z * Z * Z) (bs : list Z)
  : Z * Z * Z * Z * Z :=
  let ws := schedule 64 (rev (be_words 16 bs)) in
  let '(h0, h1, h2, h3, h4) := h in
  let '(a, b, c, d, e) := rounds 0 ws h in
  (w32 (h0 + a), w32 (h1 + b), w32 (h2 + c), w32 (h3 + d), w32 (h4 + e)).

Fixpoint blocks (n : nat) (h : Z * Z * Z * Z * Z) (bs : list Z)
  : Z * Z * Z * Z * Z :=
  match n with
  | O => h
  | S n' => blocks n' (block h (firstn 64 bs)) (skipn 64 bs)
  end.

(** [sha1.Sum]: the 20 bytes of the digest. *)
Definition Sum (msg : list Z) : list Z :=
  let p := pad msg in
  let '(h0, h1, h2, h3, h4) := blocks (List.length p / 64) init p in
  be_bytes 4 h0 ++ be_bytes 4 h1 ++ be_bytes 4 h2 ++ be_bytes 4 h3
    ++ be_bytes 4 h4.

End Sha1.

(** ** Package encoding/hex *)
Module Hex.

Definition hextable : text := T "0123456789abcdef".

Definition digit (x : Z) : ascii := nth (Z.to_nat x) hextable "0"%char.

Definition EncodeToString (src : list Z) : text :=
  flat_map (fun b => [digit (Z.shiftr b 4); digit (Z.land b 15)]) src.

End Hex.

(** [[]byte(s)]: the bytes of a string. *)
Definition bytes (s : text) : list Z := map (fun c => Z.of_N (N_of_ascii c)) s.

(** ** Errors and results *)

(** Go errors: those made by [errors.New] and [fmt.Errorf] in the builder
    ([fmt_Errorf_w] when the format ends in the verb [%w]), and those that
    come back from a collaborator. *)
Inductive error : Type :=
| errors_New (msg : string)
| fmt_Errorf (format : string) (args : list string)
| fmt_Errorf_w (format : string) (args : list string) (wrapped : error)
| ErrNotFound (msg : string)     (* the daemon does not have the object *)
| PathError (op path : string)   (* a failed file-system call *)
| ErrOther (msg : string).       (* any other failure of a collaborator *)

(** [dockerClient.IsErrNotFound], which looks through wrapping. *)
Fixpoint IsErrNotFound (e : error) : bool :=
  match e with
  | ErrNotFound _ => true
  | fmt_Errorf_w _ _ e' => IsErrNotFound e'
  | _ => false
  end.

(** The pair [(value, err)] a Go call returns. *)
Inductive Result (A : Type) : Type :=
| Ok (a : A)
| Err (e : error).
Arguments Ok {A} a.
Arguments Err {A} e.

(** ** The file system

    A store from names to nodes.  Permissions and I/O faults are not part of
    the store; a symbolic link is followed at the last element of a name. *)
Inductive node : Type :=
| File (content : text) (perm : Z)
| Dir
| Symlink (target : string).

Abbreviation FS := (gmap string node).

Module Os.

(** [name] lies below the directory [dir]. *)
Definition under (dir name : string) : bool :=
  Strings.HasPrefix (T name) (T dir ++ [Filepath.Separator]).

Definition has_children (dir : string) (fs : FS) : bool :=
  existsb (fun kv => under dir (fst kv)) (map_to_list fs).

(** [filepath.Dir]: the name up to its last separator, cleaned. *)
Definition Dir_of (name : string) : string :=
  let es := Filepath.split (T name) in
  S_ (Filepath.Clean
        (match rev es with
         | _ :: _ :: _ =>
             Filepath.join (removelast es) ++ [Filepath.Separator]
         | _ => []
         end)).

(** The name a chain of symbolic links leads to; [None] when the chain is
    longer than the 40 links the kernel follows. *)
Fixpoint follow (hops : nat) (fs : FS) (name : string) : option string :=
  match fs !! name with
  | Some (Symlink target) =>
      match hops with
      | O => None
      | S hops' =>
          follow hops' fs
            (if Filepath.IsAbs (T target) then S_ (Filepath.Clean (T target))
             else S_ (Filepath.Join [T (Dir_of name); T target]))
      end
  | _ => Some name
  end.

(** [os.Stat]: the node the name leads to. *)
Definition Stat (fs : FS) (name : string) : Result node :=
  match follow 40 fs name with
  | Some final =>
      match fs !! final with
      | Some n => Ok n
      | None => Err (PathError "stat" name)
      end
  | None => Err (PathError "stat" name)
  end.

(** [os.Symlink oldname newname]: fails when [newname] is taken. *)
Definition Symlink_ (oldname newname : string) (fs : FS) : Result FS :=
  match fs !! newname with
  | Some _ => Err (PathError "symlink" newname)
  | None => Ok (<[newname := Symlink oldname]> fs)
  end.

(** [os.Remove]: a file, a link, or an empty directory. *)
Definition Remove (name : string) (fs : FS) : Result FS :=
  match fs !! name with
  | None => Err (PathError "remove" name)
  | Some Dir =>
      if has_children name fs then Err (PathError "remove" name)
      else Ok (delete name fs)
  | Some _ => Ok (delete name fs)
  end.

(** [os.RemoveAll]: the name and all that lies below it. *)
Definition RemoveAll (path : string) (fs : FS) : FS :=
  filter (fun kv => fst kv <> path /\ under path (fst kv) = false) fs.

(** [os.Mkdir]. *)
Definition Mkdir (name : string) (fs : FS) : Result FS :=
  match fs !! name with
  | Some _ => Err (PathError "mkdir" name)
  | None => Ok (<[name := Dir]> fs)
  end.

(** The directories [MkdirAll] goes through, outermost first. *)
Fixpoint prefixes (acc : text) (es : list text) : list string :=
  match es with
  | [] => []
  | e :: es' =>
      let acc' := match acc, e with
                  | [], _ => e
                  | _, _ => if Filepath.text_eqb acc [Filepath.Separator]
                            then acc ++ e
                            else acc ++ Filepath.Separator :: e
                  end in
      let acc' := match acc' with [] => [Filepath.Separator] | _ => acc' end in
      S_ acc' :: prefixes acc' es'
  end.

Fixpoint mkdirs (names : list string) (fs : FS) : Result FS :=
  match names with
  | [] => Ok fs
  | name :: names' =>
      match Stat fs name with
      | Ok Dir => mkdirs names' fs
      | Ok _ => Err (PathError "mkdir" name)
      | Err _ =>
          match Mkdir name fs with
          | Ok fs' => mkdirs names' fs'
          | Err e => Err e
          end
      end
  end.

Definition MkdirAll (path : string) (fs : FS) : Result FS :=
  mkdirs (prefixes [] (Filepath.split (Filepath.Clean (T path)))) fs.

(** [os.ReadFile]. *)
Definition ReadFile (name : string) (fs : FS) : Result text :=
  match Stat fs name with
  | Ok (File content _) => Ok content
  | _ => Err (PathError "open" name)
  end.

(** [os.WriteFile]: truncates the file the name leads to, or creates it. *)
Definition WriteFile (name : string) (data : text) (perm : Z) (fs : FS)
  : Result FS :=
  match follow 40 fs name with
  | Some final =>
      match fs !! final with
      | Some (File _ p) => Ok (<[final := File data p]> fs)
      | Some _ => Err (PathError "open" name)
      | None => Ok (<[final := File data perm]> fs)
      end
  | None => Err (PathError "open" name)
  end.

End Os.

(** ** Package archive/tar and io/fs *)
Module Fs.
Local Open Scope Z_scope.

(** The bits of [fs.FileMode]. *)
Definition ModeDir : Z := 2 ^ 31.
Definition ModeSymlink : Z := 2 ^ 27.
Definition ModeDevice : Z := 2 ^ 26.
Definition ModeNamedPipe : Z := 2 ^ 25.
Definition ModeSocket : Z := 2 ^ 24.
Definition ModeSetuid : Z := 2 ^ 23.
Definition ModeSetgid : Z := 2 ^ 22.
Definition ModeCharDevice : Z := 2 ^ 21.
Definition ModeSticky : Z := 2 ^ 20.
Definition ModeIrregular : Z := 2 ^ 19.
Definition ModeType : Z :=
  Z.lor ModeDir
    (Z.lor ModeSymlink
       (Z.lor ModeNamedPipe
          (Z.lor ModeSocket
             (Z.lor ModeDevice (Z.lor ModeCharDevice ModeIrregular))))).
Definition ModePerm : Z := 511.   (* 0777 *)

Record FileInfo : Type := {
  Name : string;
  Size : Z;
  Mode : Z;
}.

Definition has (mode bit : Z) : bool := negb (Z.land mode bit =? 0).
Definition IsRegular (mode : Z) : bool := Z.land mode ModeType =? 0.
Definition IsDir (mode : Z) : bool := has mode ModeDir.
Definition Perm (mode : Z) : Z := Z.land mode ModePerm.

End Fs.

Module Tar.
Local Open Scope Z_scope.

Inductive Typeflag : Type :=
| TypeReg | TypeDir | TypeSymlink | TypeChar | TypeBlock | TypeFifo.

Record Header : Type := {
  Typeflag_ : Typeflag;
  Name : string;
  Linkname : string;
  Size : Z;
  Mode : Z;
}.

Definition c_ISUID : Z := 2048.   (* 04000 *)
Definition c_ISGID : Z := 1024.   (* 02000 *)
Definition c_ISVTX : Z := 512.    (* 01000 *)

Definition special_bits (fm : Z) : Z :=
  Z.lor (if Fs.has fm Fs.ModeSetuid then c_ISUID else 0)
    (Z.lor (if Fs.has fm Fs.ModeSetgid then c_ISGID else 0)
           (if Fs.has fm Fs.ModeSticky then c_ISVTX else 0)).

(** [tar.FileInfoHeader fi link]. *)
Definition FileInfoHeader (fi : Fs.FileInfo) (link : string)
  : Result Header :=
  let fm := Fs.Mode fi in
  let mk tf name lnk size :=
    Ok {| Typeflag_ := tf; Name := name; Linkname := lnk; Size := size;
          Mode := Z.lor (Fs.Perm fm) (special_bits fm) |} in
  if Fs.IsRegular fm then mk TypeReg (Fs.Name fi) "" (Fs.Size fi)
  else if Fs.IsDir fm then mk TypeDir (Fs.Name fi ++ "/")%string "" 0
  else if Fs.has fm Fs.ModeSymlink then mk TypeSymlink (Fs.Name fi) link 0
  else if Fs.has fm Fs.ModeDevice then
    mk (if Fs.has fm Fs.ModeCharDevice then TypeChar else TypeBlock)
       (Fs.Name fi) "" 0
  else if Fs.has fm Fs.ModeNamedPipe then mk TypeFifo (Fs.Name fi) "" 0
  else if Fs.has fm Fs.ModeSocket
  then Err (fmt_Errorf "archive/tar: sockets not supported" [])
  else Err (fmt_Errorf "archive/tar: unknown file mode %v" []).

Definition set_Name (h : Header) (name : string) : Header :=
  {| Typeflag_ := Typeflag_ h; Name := name; Linkname := Linkname h;
     Size := Size h; Mode := Mode h |}.

Definition set_Mode (h : Header) (mode : Z) : Header :=
  {| Typeflag_ := Typeflag_ h; Name := Name h; Linkname := Linkname h;
     Size := Size h; Mode := mode |}.

(** What the writer has put on the stream. *)
Inductive Item : Type :=
| Hdr (h : Header)
| Data (content : text)
| Trailer.

End Tar.

(** What the reader of the pipe sees: the items written, then the error the
    pipe was closed with ([None]: end of file). *)
Record Archive : Type := {
  items : list Tar.Item;
  closed_with : option error;
}.

(** ** The collaborators' data *)

(** Package functions ([fn]): the part of a function's description the
    builder reads. *)
Module Fn.

Record BuildSpec : Type := {
  Image : string;
  BuilderImages : gmap string string;     (* by builder name *)
  BuildEnvs : list (string * string);
}.

Record Function : Type := {
  Root : string;
  Runtime : string;
  Invoke : string;
  Build : BuildSpec;
}.

Record Platform : Type := {
  OS : string;
  Architecture : string;
}.

End Fn.

(** Package source-to-image [api]: the configuration of the engine. *)
Module Api.

Inductive PullPolicy : Type := PullAlways | PullNever | PullIfNotPresent.

Definition DefaultBuilderPullPolicy : PullPolicy := PullIfNotPresent.
Definition DefaultPreviousImagePullPolicy : PullPolicy := PullIfNotPresent.
Definition DefaultRuntimeImagePullPolicy : PullPolicy := PullIfNotPresent.

Inductive URLType : Type := URLTypeURL | URLTypeSCP | URLTypeLocal.

Record GitURL : Type := { Type_ : URLType; URL_Path : string }.

Record EnvironmentSpec : Type := { Name : string; Value : string }.

Record Config : Type := {
  Source : GitURL;
  Quiet : bool;
  Tag : string;
  BuilderImage : string;
  BuilderPullPolicy : PullPolicy;
  PreviousImagePullPolicy : PullPolicy;
  RuntimeImagePullPolicy : PullPolicy;
  DockerConfig : string;
  AsDockerfile : string;
  ScriptsURL : string;
  ExcludeRegExp : string;
  Environment : list EnvironmentSpec;
  KeepSymlinks : bool;
  ForceCopy : bool;
}.

Definition set_ScriptsURL (c : Config) (v : string) : Config :=
  {| Source := Source c; Quiet := Quiet c; Tag := Tag c;
     BuilderImage := BuilderImage c;
     BuilderPullPolicy := BuilderPullPolicy c;
     PreviousImagePullPolicy := PreviousImagePullPolicy c;
     RuntimeImagePullPolicy := RuntimeImagePullPolicy c;
     DockerConfig := DockerConfig c; AsDockerfile := AsDockerfile c;
     ScriptsURL := v; ExcludeRegExp := ExcludeRegExp c;
     Environment := Environment c; KeepSymlinks := KeepSymlinks c;
     ForceCopy := ForceCopy c |}.

Definition set_ExcludeRegExp (c : Config) (v : string) : Config :=
  {| Source := Source c; Quiet := Quiet c; Tag := Tag c;
     BuilderImage := BuilderImage c;
     BuilderPullPolicy := BuilderPullPolicy c;
     PreviousImagePullPolicy := PreviousImagePullPolicy c;
     RuntimeImagePullPolicy := RuntimeImagePullPolicy c;
     DockerConfig := DockerConfig c; AsDockerfile := AsDockerfile c;
     ScriptsURL := ScriptsURL c; ExcludeRegExp := v;
     Environment := Environment c; KeepSymlinks := KeepSymlinks c;
     ForceCopy := ForceCopy c |}.

Definition set_Environment (c : Config) (v : list EnvironmentSpec)
  : Config :=
  {| Source := Source c; Quiet := Quiet c; Tag := Tag c;
     BuilderImage := BuilderImage c;
     BuilderPullPolicy := BuilderPullPolicy c;
     PreviousImagePullPolicy := PreviousImagePullPolicy c;
     RuntimeImagePullPolicy := RuntimeImagePullPolicy c;
     DockerConfig := DockerConfig c; AsDockerfile := AsDockerfile c;
     ScriptsURL := ScriptsURL c; ExcludeRegExp := ExcludeRegExp c;
     Environment := v; KeepSymlinks := KeepSymlinks c;
     ForceCopy := ForceCopy c |}.

(** [cfg.KeepSymlinks = true; cfg.ForceCopy = true]. *)
Definition set_copy_flags (c : Config) (keep force : bool) : Config :=
  {| Source := Source c; Quiet := Quiet c; Tag := Tag c;
     BuilderImage := BuilderImage c;
     BuilderPullPolicy := BuilderPullPolicy c;
     PreviousImagePullPolicy := PreviousImagePullPolicy c;
     RuntimeImagePullPolicy := RuntimeImagePullPolicy c;
     DockerConfig := DockerConfig c; AsDockerfile := AsDockerfile c;
     ScriptsURL := ScriptsURL c; ExcludeRegExp := ExcludeRegExp c;
     Environment := Environment c; KeepSymlinks := keep;
     ForceCopy := force |}.

(** What the engine hands back on success. *)
Record BuildResult : Type := { Messages : list string }.

End Api.

(** The docker daemon and the registry. *)
Module Docker.

Record ContainerConfig : Type := {
  Labels : option (gmap string string);       (* [None]: a nil map *)
}.

Record ImageInspect : Type := {
  Config : option ContainerConfig;            (* [None]: a nil pointer *)
  ContainerConfig_ : option ContainerConfig;
}.

Record ImageBuildOptions : Type := {
  Tags : list string;
  PullParent : bool;
  Version : string;
}.

Definition BuilderBuildKit : string := "2".

(** One event of the progress protocol. *)
Record JSONMessage : Type := {
  Stream : string;
  Error : option string;
}.

(** [name.Reference]: by tag or by digest. *)
Inductive Reference : Type :=
| Tag (ref : string)
| Digest (ref : string).

(** [v1.Image], seen through [ConfigFile]. *)
Record RemoteImage : Type := {
  ConfigFile : Result ContainerConfig;
}.

(** The interface [DockerClient] of the builder. *)
Record Client : Type := {
  ImageBuild : Archive -> ImageBuildOptions -> Result (list JSONMessage);
  ImageInspectWithRaw : string -> Result ImageInspect;
}.

(** [jsonmessage.DisplayJSONMessagesStream]: the events are written in
    order; an event that carries an error ends the display with it. *)
Fixpoint DisplayJSONMessagesStream (body : list JSONMessage)
  : list string * option error :=
  match body with
  | [] => ([], None)
  | m :: body' =>
      match Error m with
      | Some e => ([], Some (ErrOther e))
      | None =>
          let '(out, err) := DisplayJSONMessagesStream body' in
          (Stream m :: out, err)
      end
  end.

End Docker.

(** What [filepath.Walk] presents to its callback for one name, with the
    answers of the operating system to what the callback asks about it. *)
Record Visit : Type := {
  v_path : string;
  v_info : Result Fs.FileInfo;        (* the [FileInfo], or the error *)
  v_readlink : Result string;         (* [os.Readlink path] *)
  v_open : Result text;               (* [os.Open path] and the content *)
  v_header_err : option error;        (* [tw.WriteHeader] *)
  v_copy_err : option error;          (* [io.Copy] *)
}.

(** The outcome of the engine's [Build]. *)
Inductive EngineOutcome : Type :=
| EngineOk (result : Api.BuildResult)
| EngineErr (e : error)
| EnginePanic.

(** [build.Builder], the strategy: its verdict and what it leaves on disk. *)
Record Engine : Type := {
  engine_Build : Api.Config -> FS -> FS * EngineOutcome;
}.

(** The collaborators of one build.  Each field is the answer of a package
    or of the operating system that the builder only calls. *)
Record Host : Type := {
  GOOS : string;                                            (* runtime.GOOS *)
  GetPlatformImage : string -> string -> Result string;     (* docker *)
  NewClient : Result Docker.Client;                         (* docker *)
  MkdirTemp_name : FS -> Result string;                     (* os.MkdirTemp *)
  GetDefaultDockerConfig : string;                          (* s2i docker *)
  NewRepository : option error;                             (* fn *)
  scaffolding_Write :
    string -> string -> string -> string -> FS -> FS * option error;
  assembler : Fn.Function -> Result string;      (* s2i, another file *)
  ParseReference : string -> Result Docker.Reference;       (* name *)
  remote_Image : Docker.Reference -> Result Docker.RemoteImage;
  Interpolate : list (string * string) -> Result (list (string * string));
  ValidateConfig : Api.Config -> list string;               (* validation *)
  Strategy : Api.Config -> Result Engine;                   (* strategies *)
  Walk_visits : FS -> string -> list Visit;                 (* filepath.Walk *)
}.

(** ** Package s2i: the builder *)

Definition DefaultNodeBuilder : string :=
  "registry.access.redhat.com/ubi8/nodejs-20-minimal".
Definition DefaultQuarkusBuilder : string :=
  "registry.access.redhat.com/ubi8/openjdk-21".
Definition DefaultPythonBuilder : string :=
  "registry.access.redhat.com/ubi8/python-39".
Definition DefaultGoBuilder : string :=
  "registry.final.tools/mirror/ubi8-go-toolset".

(** [DefaultBuilderImages] for s2i builders indexed by runtime language. *)
Definition DefaultBuilderImages : gmap string string :=
  list_to_map
    [ ("go", DefaultGoBuilder);
      ("node", DefaultNodeBuilder);
      ("nodejs", DefaultNodeBuilder);
      ("python", DefaultPythonBuilder);
      ("quarkus", DefaultQuarkusBuilder);
      ("typescript", DefaultNodeBuilder) ].

Module Builders.

(** Modelled from the spec: [builders.Image] of package [pkg/builders],
    which is not among the sources.  "If the caller supplied an explicit
    builder image, it is used verbatim; otherwise resolved from a static
    mapping keyed by runtime identifier."  The explicit image is the entry
    of the function's builder images under the builder's name.  The caller
    in [builder.go] receives [(string, error)] and returns on the error, so
    a runtime without an entry in the mapping is the failing case. *)
Definition Image (f : Fn.Function) (builder : string)
    (defaults : gmap string string) : Result string :=
  match Fn.BuilderImages (Fn.Build f) !! builder with
  | Some v => Ok v
  | None =>
      match defaults !! Fn.Runtime f with
      | Some v => Ok v
      | None => Err (ErrOther "no default builder image for the runtime")
      end
  end.

End Builders.

(** [BuilderImage] chooses the correct builder image or defaults. *)
Definition BuilderImage (f : Fn.Function) (builderName : string)
  : Result string :=
  Builders.Image f builderName DefaultBuilderImages.

(** [Builder] of functions using the s2i subsystem. *)
Record Builder : Type := {
  name : string;
  verbose : bool;
  impl : option Engine;            (* [None]: nil, the strategy is looked up *)
  cli : option Docker.Client;      (* [None]: nil, a client is created *)
}.

(** *** The state a build runs in *)

(** The calls that leave the builder, in the order they are made. *)
Inductive Call : Type :=
| Call_GetPlatformImage (image platform : string)
| Call_NewClient
| Call_ClientClose
| Call_Symlink (oldname newname : string)
| Call_Remove (path : string)
| Call_MkdirTemp
| Call_RemoveAll (path : string)
| Call_ImageInspect (image : string)
| Call_ParseReference (image : string)
| Call_RemoteImage (ref : Docker.Reference)
| Call_ConfigFile
| Call_ScaffoldingWrite (appRoot : string)
| Call_ValidateConfig (cfg : Api.Config)
| Call_Strategy (cfg : Api.Config)
| Call_EngineBuild (cfg : Api.Config)
| Call_ImageBuild (archive : Archive) (opts : Docker.ImageBuildOptions)
| Call_BodyClose.

(** The calls a [defer] statement has registered. *)
Inductive Deferred : Type :=
| Defer_ClientClose
| Defer_Remove (path : string)
| Defer_RemoveAll (path : string)
| Defer_BodyClose.

Record State : Type := {
  fs : FS;
  stderr : list string;         (* the lines written to os.Stderr *)
  calls : list Call;
  defers : list Deferred;       (* the most recent first *)
}.

Definition set_fs (st : State) (v : FS) : State :=
  {| fs := v; stderr := stderr st; calls := calls st; defers := defers st |}.

(** How a step of the function body ends: with a value, by a [return], or by
    a panic. *)
Inductive Outcome (A : Type) : Type :=
| Val (a : A)
| Return (err : option error)
| Panicked.
Arguments Val {A} a.
Arguments Return {A} err.
Arguments Panicked {A}.

Definition M (A : Type) : Type := State -> Outcome A * State.

Definition ret {A} (a : A) : M A := fun st => (Val a, st).

Definition bind {A B} (m : M A) (k : A -> M B) : M B :=
  fun st =>
    match m st with
    | (Val a, st') => k a st'
    | (Return e, st') => (Return e, st')
    | (Panicked, st') => (Panicked, st')
    end.

Notation "'let*' x ':=' m 'in' k" := (bind m (fun x => k))
  (at level 10, x name, m at level 100, k at level 200).
Notation "m ';;' k" := (bind m (fun _ => k))
  (at level 100, k at level 200, right associativity).

Definition returns {A} (err : option error) : M A :=
  fun st => (Return err, st).

Definition call (c : Call) : M unit :=
  fun st =>
    (Val tt, {| fs := fs st; stderr := stderr st; calls := calls st ++ [c];
                defers := defers st |}).

(** [fmt.Fprintln(os.Stderr, line)]. *)
Definition Fprintln (line : string) : M unit :=
  fun st =>
    (Val tt, {| fs := fs st; stderr := stderr st ++ [line];
                calls := calls st; defers := defers st |}).

Definition defer (d : Deferred) : M unit :=
  fun st =>
    (Val tt, {| fs := fs st; stderr := stderr st; calls := calls st;
                defers := d :: defers st |}).

Definition get_fs : M FS := fun st => (Val (fs st), st).

(** A call on the file system: the store changes when the call succeeds. *)
Definition fs_op (op : FS -> Result FS) : M (option error) :=
  fun st =>
    match op (fs st) with
    | Ok fs' => (Val None, set_fs st fs')
    | Err e => (Val (Some e), st)
    end.

(** [if err != nil { return wrap(err) }]. *)
Definition try_ {A} (r : Result A) (wrap : error -> error) : M A :=
  match r with
  | Ok a => ret a
  | Err e => returns (Some (wrap e))
  end.

Definition check (err : option error) (wrap : error -> error) : M unit :=
  match err with
  | None => ret tt
  | Some e => returns (Some (wrap e))
  end.

Fixpoint for_each {A} (l : list A) (body : A -> M unit) : M unit :=
  match l with
  | [] => ret tt
  | x :: l' => body x ;; for_each l' body
  end.

(** A deferred call at the exit of the function; its error is dropped. *)
Definition run_deferred (d : Deferred) : M unit :=
  match d with
  | Defer_ClientClose => call Call_ClientClose
  | Defer_Remove path =>
      call (Call_Remove path) ;;
      let* _ := fs_op (Os.Remove path) in ret tt
  | Defer_RemoveAll path =>
      call (Call_RemoveAll path) ;;
      let* _ := fs_op (fun fs => Ok (Os.RemoveAll path fs)) in ret tt
  | Defer_BodyClose => call Call_BodyClose
  end.

(** *** [patchDockerfile] *)

(** [hex.EncodeToString(s[:8])] for [s := sha1.Sum([]byte(f.Root))]. *)
Definition cacheMountId (root : string) : text :=
  Hex.EncodeToString (firstn 8 (Sha1.Sum (bytes (T root)))).

Definition mountCmd (root : string) : text :=
  T "--mount=type=cache,target=/tmp/artifacts/,uid=1001,id="
    ++ cacheMountId root.

(** [fmt.Sprintf("RUN %s \\\n    $1", mountCmd)]: after the command come a
    space, a backslash (byte 092), a newline, four spaces and [$1]. *)
Definition replacement (root : string) : text :=
  T "RUN " ++ mountCmd root ++ [" "%char; "092"%char; nl] ++ T "    $1".

Definition assembleRegExp : string := "RUN (.*assemble)".

Definition patchText (root : string) (data : text) : text :=
  Regexp.replaceAll (Regexp.MustCompile assembleRegExp) (replacement root)
    true data 0 false.

Definition patchDockerfile (path : string) (f : Fn.Function) (fs : FS)
  : Result FS :=
  match Os.ReadFile path fs with
  | Err err => Err err
  | Ok data => Os.WriteFile path (patchText (Fn.Root f) data) 420 fs
  end.

(** *** [s2iScriptURL] *)

Definition scriptsURLLabel : string := "io.openshift.s2i.scripts-url".

Definition label (cfg : Docker.ContainerConfig) : option string :=
  match Docker.Labels cfg with
  | Some labels => labels !! scriptsURLLabel
  | None => None
  end.

(** [slices.Contains(maps.Values(DefaultBuilderImages), image)]. *)
Definition isDefaultBuilderImage (image : string) : bool :=
  existsb (fun kv => String.eqb (snd kv) image)
    (map_to_list DefaultBuilderImages).

Definition s2iScriptURL (h : Host) (cli : Docker.Client) (image : string)
  : M (Result string) :=
  call (Call_ImageInspect image) ;;
  match Docker.ImageInspectWithRaw cli image with
  | Err err =>
      if IsErrNotFound err then
        (* image is not in the daemon, get info directly from registry *)
        call (Call_ParseReference image) ;;
        match ParseReference h image with
        | Err err =>
            ret (Err (fmt_Errorf_w "cannot parse image name: %w" [] err))
        | Ok ref =>
            (match ref with
             | Docker.Tag _ =>
                 if negb (isDefaultBuilderImage image)
                 then Fprintln "image referenced by tag which is discouraged: Tags are mutable and can point to a different artifact than the expected one"
                 else ret tt
             | Docker.Digest _ => ret tt
             end) ;;
            call (Call_RemoteImage ref) ;;
            match remote_Image h ref with
            | Err err =>
                ret (Err (fmt_Errorf_w "cannot get image from registry: %w"
                            [] err))
            | Ok img =>
                call Call_ConfigFile ;;
                match Docker.ConfigFile img with
                | Err err =>
                    ret (Err (fmt_Errorf_w "cannot get config for image: %w"
                                [] err))
                | Ok cfg =>
                    match label cfg with
                    | Some u => ret (Ok u)
                    | None =>
                        (* falls out of the block to [return "", err], where
                           [err] is now the nil of [ConfigFile] *)
                        ret (Ok "")
                    end
                end
            end
        end
      else ret (Err err)
  | Ok img =>
      match Docker.Config img ≫= label with
      | Some u => ret (Ok u)
      | None =>
          match Docker.ContainerConfig_ img ≫= label with
          | Some u => ret (Ok u)
          | None => ret (Ok "")
          end
      end
  end.

(** *** [scaffold] *)

Definition path_join (es : list string) : string :=
  S_ (Filepath.Join (map T es)).

Definition scaffold (h : Host) (cfg : Api.Config) (f : Fn.Function)
  : M (Result Api.Config) :=
  (* Scaffolding is currently only supported by the Go runtime *)
  if negb (String.eqb (Fn.Runtime f) "go") then ret (Ok cfg)
  else
    let contextDir := path_join [".s2i"; "builds"; "last"] in
    let appRoot := path_join [Fn.Root f; contextDir] in
    call (Call_RemoveAll appRoot) ;;
    let* _ := fs_op (fun fs => Ok (Os.RemoveAll appRoot fs)) in
    match NewRepository h with
    | Some err =>
        ret (Err (fmt_Errorf_w
                    "unable to load the embedded scaffolding. %w" [] err))
    | None =>
        call (Call_ScaffoldingWrite appRoot) ;;
        let* err :=
          (fun st =>
             let '(fs', err) :=
               scaffolding_Write h appRoot (Fn.Root f) (Fn.Runtime f)
                 (Fn.Invoke f) (fs st) in
             (Val err, set_fs st fs')) in
        match err with
        | Some err =>
            ret (Err (fmt_Errorf_w
                        "unable to build due to a scaffold error. %w" []
                        err))
        | None =>
            match assembler h f with
            | Err err => ret (Err err)
            | Ok assemble =>
                let* r :=
                  if negb (String.eqb assemble "") then
                    let* err :=
                      fs_op (Os.MkdirAll
                               (path_join [Fn.Root f; ".s2i"; "bin"])) in
                    match err with
                    | Some err =>
                        ret (Some (fmt_Errorf_w
                                     "unable to create .s2i bin dir. %w" []
                                     err))
                    | None =>
                        let* err :=
                          fs_op (Os.WriteFile
                                   (path_join
                                      [Fn.Root f; ".s2i"; "bin"; "assemble"])
                                   (T assemble) 448) in
                        match err with
                        | Some err =>
                            ret (Some (fmt_Errorf_w
                                         "unable to write go assembler. %w"
                                         [] err))
                        | None => ret None
                        end
                    end
                  else ret None in
                match r with
                | Some err => ret (Err err)
                | None =>
                    (* Don't infinite loop on the symlink to root; force
                       the copy via the file system. *)
                    ret (Ok (Api.set_copy_flags cfg true true))
                end
            end
        end
    end.

(** *** The archive walk *)

(** [const up = ".." + string(os.PathSeparator)]. *)
Definition up : text := Filepath.dotdot ++ [Filepath.Separator].

Definition rel_error : error := ErrOther "Rel: can't make path relative".

(** The link name of the header: empty unless the file is a symbolic link;
    an absolute target is made relative to the build directory and must not
    leave it. *)
Definition linkname (tmp : string) (p : text) (v : Visit)
    (fi : Fs.FileInfo) : Result text :=
  if Fs.has (Fs.Mode fi) Fs.ModeSymlink then
    match v_readlink v with
    | Err err => Err (fmt_Errorf_w "cannot read link: %w" [] err)
    | Ok lnk =>
        let lnk := T lnk in
        if Filepath.IsAbs lnk then
          match Filepath.Rel (T tmp) lnk with
          | None =>
              Err (fmt_Errorf_w "cannot get relative path for symlink: %w"
                     [] rel_error)
          | Some lnk =>
              if Strings.HasPrefix lnk up
                 || Filepath.text_eqb lnk Filepath.dotdot
              then Err (fmt_Errorf "link %q points outside source root"
                          [S_ p])
              else Ok lnk
          end
        else Ok lnk
    end
  else Ok [].

(** The callback of [filepath.Walk]: what it writes to the tar stream for
    one name, and the error it returns.  [goos] is [runtime.GOOS]; the
    header gets the execute bits 0111 (73) where it is "windows". *)
Definition walkFn (goos : string) (exclude : Regexp.regex) (tmp : string)
    (v : Visit) : list Tar.Item * option error :=
  match v_info v with
  | Err err => ([], Some err)
  | Ok fi =>
      match Filepath.Rel (T tmp) (T (v_path v)) with
      | None =>
          ([], Some (fmt_Errorf_w "cannot get relative path: %w" []
                       rel_error))
      | Some p =>
          if Filepath.text_eqb p Filepath.dot then ([], None)
          else
            let p := Filepath.ToSlash p in
            if Regexp.search exclude true p then ([], None)
            else
              match linkname tmp p v fi with
              | Err err => ([], Some err)
              | Ok lnk =>
                  match Tar.FileInfoHeader fi (S_ (Filepath.ToSlash lnk)) with
                  | Err err =>
                      ([], Some (fmt_Errorf_w
                                   "cannot create tar header: %w" [] err))
                  | Ok hdr =>
                      let hdr := Tar.set_Name hdr (S_ p) in
                      let hdr :=
                        if String.eqb goos "windows"
                        then Tar.set_Mode hdr (Z.lor (Tar.Mode hdr) 73)
                        else hdr in
                      match v_header_err v with
                      | Some err =>
                          ([], Some (fmt_Errorf_w
                                       "cannot write header to thar stream: %w"
                                       [] err))
                      | None =>
                          if Fs.IsRegular (Fs.Mode fi) then
                            match v_open v with
                            | Err err =>
                                ([Tar.Hdr hdr],
                                 Some (fmt_Errorf_w
                                         "cannot open source file: %w" []
                                         err))
                            | Ok content =>
                                match v_copy_err v with
                                | Some err =>
                                    ([Tar.Hdr hdr],
                                     Some (fmt_Errorf_w
                                             "cannot copy file to tar stream :%w"
                                             [] err))
                                | None =>
                                    ([Tar.Hdr hdr; Tar.Data content], None)
                                end
                            end
                          else ([Tar.Hdr hdr], None)
                      end
                  end
              end
      end
  end.

(** [filepath.Walk]: the callback is run on the names in order; its first
    error ends the walk and is the error of the walk. *)
Fixpoint Walk (fn : Visit -> list Tar.Item * option error)
    (visits : list Visit) : list Tar.Item * option error :=
  match visits with
  | [] => ([], None)
  | v :: visits' =>
      match fn v with
      | (out, Some err) => (out, Some err)
      | (out, None) =>
          let '(out', err) := Walk fn visits' in (out ++ out', err)
      end
  end.

(** The goroutine: the walk writes to the pipe, which is then closed with
    the error of the walk.  (The end-of-archive blocks that closing the tar
    writer adds are not represented.) *)
Definition archive (h : Host) (exclude : Regexp.regex) (tmp : string)
    (fs : FS) : Archive :=
  let '(out, err) :=
    Walk (walkFn (GOOS h) exclude tmp) (Walk_visits h fs tmp) in
  {| items := out; closed_with := err |}.

(** *** [Build] *)

Definition scriptsURLDefault : string := "image:///usr/libexec/s2i".

Definition excludeRegExp : string :=
  "(^|/)\.git|\.env|\.func|node_modules(/|$)".

Definition errSinglePlatform : error :=
  errors_New
    "the S2I builder currently only supports specifying a single target platform".

(** [os.MkdirTemp("", "func-s2i-build")]. *)
Definition os_MkdirTemp (h : Host) : M (Result string) :=
  call Call_MkdirTemp ;;
  fun st =>
    match MkdirTemp_name h (fs st) with
    | Err e => (Val (Err e), st)
    | Ok tmp =>
        match Os.Mkdir tmp (fs st) with
        | Ok fs' => (Val (Ok tmp), set_fs st fs')
        | Err e => (Val (Err e), st)
        end
    end.

(** [impl.Build(cfg)]. *)
Definition engine_run (impl : Engine) (cfg : Api.Config)
  : M Api.BuildResult :=
  call (Call_EngineBuild cfg) ;;
  fun st =>
    let '(fs', o) := engine_Build impl cfg (fs st) in
    match o with
    | EngineOk result => (Val result, set_fs st fs')
    | EngineErr e => (Return (Some e), set_fs st fs')
    | EnginePanic => (Panicked, set_fs st fs')
    end.

(** The body of [Build] is given block by block, in the order of the source;
    each block is headed by the comment that heads it there. *)

(** Builder image from the function if defined, default otherwise; then
    "Validate Platforms" (lines 126-144). *)
Definition resolveBuilderImage (h : Host) (b : Builder) (f : Fn.Function)
    (platforms : list Fn.Platform) : M string :=
  let* builderImage := try_ (BuilderImage f (name b)) id in
  match platforms with
  | [] => ret builderImage
  | [pf] =>
      let platform :=
        S_ (Strings.ToLower
              (T (Fn.OS pf ++ "/" ++ Fn.Architecture pf)%string)) in
      call (Call_GetPlatformImage builderImage platform) ;;
      try_ (GetPlatformImage h builderImage platform)
        (fmt_Errorf_w "cannot get platform image reference for %q: %w"
           [platform])
  | _ :: _ :: _ =>
      (* Only a single requested platform supported. *)
      returns (Some errSinglePlatform)
  end.

(** The client of the builder, or a new one that is closed at the end
    (lines 146-155). *)
Definition dockerClient (h : Host) (b : Builder) : M Docker.Client :=
  match cli b with
  | Some c => ret c
  | None =>
      call Call_NewClient ;;
      let* c := try_ (NewClient h)
                  (fmt_Errorf_w "cannot create docker client: %w" []) in
      defer Defer_ClientClose ;;
      ret c
  end.

Definition funcignorePath (f : Fn.Function) : string :=
  path_join [Fn.Root f; ".funcignore"].

Definition s2iignorePath (f : Fn.Function) : string :=
  path_join [Fn.Root f; ".s2iignore"].

Definition ignoreWarning : string :=
  "Warning: an existing .s2iignore was detected.  Using this with preference over .funcignore".

(** "Link .s2iignore -> .funcignore" (lines 157-169). *)
Definition linkIgnoreFile (f : Fn.Function) : M unit :=
  let* fs0 := get_fs in
  match Os.Stat fs0 (funcignorePath f) with
  | Ok _ =>
      match Os.Stat fs0 (s2iignorePath f) with
      | Ok _ => Fprintln ignoreWarning
      | Err _ =>
          call (Call_Symlink "./.funcignore" (s2iignorePath f)) ;;
          let* err :=
            fs_op (Os.Symlink_ "./.funcignore" (s2iignorePath f)) in
          check err id ;;
          defer (Defer_Remove (s2iignorePath f))
      end
  | Err _ => ret tt
  end.

(** "Build directory" (lines 171-176). *)
Definition buildDirectory (h : Host) : M string :=
  let* r := os_MkdirTemp h in
  let* tmp :=
    try_ r (fmt_Errorf_w "cannot create temporary dir for s2i build: %w" [])
  in
  defer (Defer_RemoveAll tmp) ;;
  ret tmp.

(** "Build Config" up to "Validate the config" (lines 178-236). *)
Definition buildConfig (h : Host) (b : Builder) (f : Fn.Function)
    (builderImage tmp : string) (client : Docker.Client) : M Api.Config :=
  let cfg :=
    {| Api.Source := {| Api.Type_ := Api.URLTypeLocal;
                        Api.URL_Path := Fn.Root f |};
       Api.Quiet := negb (verbose b);
       Api.Tag := Fn.Image (Fn.Build f);
       Api.BuilderImage := builderImage;
       Api.BuilderPullPolicy := Api.DefaultBuilderPullPolicy;
       Api.PreviousImagePullPolicy := Api.DefaultPreviousImagePullPolicy;
       Api.RuntimeImagePullPolicy := Api.DefaultRuntimeImagePullPolicy;
       Api.DockerConfig := GetDefaultDockerConfig h;
       Api.AsDockerfile := path_join [tmp; "Dockerfile"];
       Api.ScriptsURL := "";
       Api.ExcludeRegExp := "";
       Api.Environment := [];
       Api.KeepSymlinks := false;
       Api.ForceCopy := false |} in
  (* Scaffold *)
  let* r := scaffold h cfg f in
  let* cfg := try_ r id in
  (* Extract an S2I script url from the image if provided and use this in
     the build config. *)
  let* r := s2iScriptURL h client (Api.BuilderImage cfg) in
  let* scriptURL :=
    try_ r (fmt_Errorf_w "cannot get s2i script url: %w" []) in
  let cfg :=
    if negb (String.eqb scriptURL scriptsURLDefault)
    then
      (* Only set if the label found on the image is NOT the default. *)
      Api.set_ScriptsURL cfg scriptURL
    else cfg in
  (* Excludes *)
  let cfg := Api.set_ExcludeRegExp cfg excludeRegExp in
  (* Environment variables *)
  let* buildEnvs := try_ (Interpolate h (Fn.BuildEnvs (Fn.Build f))) id in
  let cfg :=
    Api.set_Environment cfg
      (Api.Environment cfg
         ++ map (fun kv => {| Api.Name := fst kv; Api.Value := snd kv |})
              buildEnvs) in
  (* Validate the config *)
  call (Call_ValidateConfig cfg) ;;
  match ValidateConfig h cfg with
  | [] => ret cfg
  | errs =>
      for_each errs (fun e => Fprintln ("ERROR: " ++ e)%string) ;;
      returns (Some (errors_New "Unable to build via the s2i builder."))
  end.

(** "Create the S2I builder instance if not overridden" and "Perform the
    build" (lines 238-257). *)
Definition performBuild (h : Host) (b : Builder) (cfg : Api.Config)
  : M unit :=
  let* impl :=
    match impl b with
    | Some i => ret i
    | None =>
        call (Call_Strategy cfg) ;;
        try_ (Strategy h cfg)
          (fmt_Errorf_w "cannot create s2i builder: %w" [])
    end in
  let* result := engine_run impl cfg in
  if verbose b then for_each (Api.Messages result) Fprintln else ret tt.

(** The patch of the instructions, the archive and its submission (lines
    259-370). *)
Definition submitArchive (h : Host) (b : Builder) (f : Fn.Function)
    (cfg : Api.Config) (tmp : string) (client : Docker.Client) : M unit :=
  (* s2i apparently is not excluding the files in --as-dockerfile mode *)
  let exclude := Regexp.MustCompile (Api.ExcludeRegExp cfg) in
  (* if exists, patch dockerfile to using cache mount *)
  let* fs1 := get_fs in
  match Os.Stat fs1 (Api.AsDockerfile cfg) with
  | Ok _ =>
      let* err := fs_op (patchDockerfile (Api.AsDockerfile cfg) f) in
      check err id
  | Err _ => ret tt
  end ;;
  let* fs2 := get_fs in
  let pr := archive h exclude tmp fs2 in
  let opts :=
    {| Docker.Tags := [Fn.Image (Fn.Build f)];
       Docker.PullParent := true;
       Docker.Version := Docker.BuilderBuildKit |} in
  call (Call_ImageBuild pr opts) ;;
  let* resp :=
    try_ (Docker.ImageBuild client pr opts)
      (fmt_Errorf_w "cannot build the app image: %w" []) in
  defer Defer_BodyClose ;;
  (* the progress goes to os.Stderr when verbose, to io.Discard otherwise *)
  let '(out, err) := Docker.DisplayJSONMessagesStream resp in
  (if verbose b then for_each out Fprintln else ret tt) ;;
  returns err.

(** The body of [Build], from its first statement to a [return]. *)
Definition Build_body (h : Host) (b : Builder) (f : Fn.Function)
    (platforms : list Fn.Platform) : M unit :=
  let* builderImage := resolveBuilderImage h b f platforms in
  let* client := dockerClient h b in
  linkIgnoreFile f ;;
  let* tmp := buildDirectory h in
  let* cfg := buildConfig h b f builderImage tmp client in
  performBuild h b cfg ;;
  submitArchive h b f cfg tmp client.

(** How a call of [Build] ends. *)
Inductive BuildEnd : Type :=
| Returned (err : option error)
| Panicking.

(** [Build]: the body, then the deferred calls, the most recent first; they
    run on every way out of the body, a panic included. *)
Definition Build (h : Host) (b : Builder) (f : Fn.Function)
    (platforms : list Fn.Platform) (st : State) : BuildEnd * State :=
  let '(o, st1) :=
    Build_body h b f platforms
      {| fs := fs st; stderr := stderr st; calls := calls st;
         defers := [] |} in
  let '(_, st2) := for_each (defers st1) run_deferred st1 in
  (match o with
   | Val _ => Returned None
   | Return err => Returned err
   | Panicked => Panicking
   end,
   {| fs := fs st2; stderr := stderr st2; calls := calls st2;
      defers := defers st |}).

(** *** [NewBuilder] and its options *)

(** [Option], a function on a pointer to the builder: an option updates
    the builder it is applied to. *)
Definition Option_ : Type := Builder -> Builder.

Definition WithName (n : string) : Option_ :=
  fun b => {| name := n; verbose := verbose b; impl := impl b; cli := cli b |}.

(** [WithVerbose] toggles verbose logging. *)
Definition WithVerbose (v : bool) : Option_ :=
  fun b => {| name := name b; verbose := v; impl := impl b; cli := cli b |}.

(** [WithImpl] sets an optional S2I builder implementation override; the
    argument may be nil. *)
Definition WithImpl (s : option Engine) : Option_ :=
  fun b => {| name := name b; verbose := verbose b; impl := s; cli := cli b |}.

(** [WithDockerClient]; the argument may be nil. *)
Definition WithDockerClient (c : option Docker.Client) : Option_ :=
  fun b => {| name := name b; verbose := verbose b; impl := impl b; cli := c |}.

Section NewBuilder.
(** [const DefaultName = builders.S2I], a constant of package [builders],
    which is not among the sources. *)
Variable DefaultName : string.

(** [NewBuilder] creates a new instance of a [Builder] with static
    defaults, and applies the options in order. *)
Definition NewBuilder (options : list Option_) : Builder :=
  fold_left (fun b o => o b) options
    {| name := DefaultName; verbose := false; impl := None; cli := None |}.

End NewBuilder.

(** ** The two patterns of the builder, parsed *)

(** The bytes of [s] in sequence, then [r]. *)
Definition lit_then (s : string) (r : Regexp.regex) : Regexp.regex :=
  fold_right (fun c k => Regexp.mkCat (Regexp.Chr c) k) r (T s).

Definition literal (s : string) : Regexp.regex := lit_then s Regexp.Empty.

(** The tree of [excludeRegExp]: four alternatives; the group at the front
    belongs to the first one only, the group at the end to the last one. *)
Definition excludeTree : Regexp.regex :=
  Regexp.Alt
    (Regexp.Cat (Regexp.Cap 1 (Regexp.Alt Regexp.BeginText (Regexp.Chr "/")))
       (literal ".git"))
    (Regexp.Alt (literal ".env")
       (Regexp.Alt (literal ".func")
          (lit_then "node_modules"
             (Regexp.Cap 2 (Regexp.Alt (Regexp.Chr "/") Regexp.EndText))))).

(** The tree of [assembleRegExp]. *)
Definition assembleTree : Regexp.regex :=
  lit_then "RUN "
    (Regexp.Cap 1 (Regexp.Cat (Regexp.Star Regexp.AnyNotNL)
                     (literal "assemble"))).

(** The exclusion test of the builder, on a slash-separated path. *)
Definition excluded (p : string) : bool :=
  Regexp.MatchString (Regexp.MustCompile excludeRegExp) p.

(** ** Observing a step *)

(** How the step ends when started in [st]. *)
Definition result_of {A} (m : M A) (st : State) : Outcome A := fst (m st).

(** The calls the step makes, those made before it left out. *)
Definition calls_of {A} (m : M A) (st : State) : list Call :=
  skipn (List.length (calls st)) (calls (snd (m st))).

(** The lines the step writes to the standard error stream. *)
Definition stderr_of {A} (m : M A) (st : State) : list string :=
  skipn (List.length (stderr st)) (stderr (snd (m st))).

(** The script URL found on an image the daemon holds: the label of the
    image configuration first, that of the container configuration second,
    nothing otherwise. *)
Definition localScriptURL (img : Docker.ImageInspect) : string :=
  match Docker.Config img ≫= label with
  | Some u => u
  | None =>
      match Docker.ContainerConfig_ img ≫= label with
      | Some u => u
      | None => ""
      end
  end.

(** The headers among the items of a tar stream. *)
Definition headers (its : list Tar.Item) : list Tar.Header :=
  flat_map (fun it => match it with Tar.Hdr h => [h] | _ => [] end) its.

(** The error of the walk for a link that leaves the build directory. *)
Definition errLinkOutside (p : string) : error :=
  fmt_Errorf "link %q points outside source root" [p].

(** *** The shape of a match of [assembleRegExp] *)

(** Where the last "assemble" of the first line of [s] ends, counted from
    the start of [s]: what the greedy [.*assemble] takes. *)
Fixpoint lastAssemble (s : text) : option nat :=
  match s with
  | [] => None
  | c :: s' =>
      if Ascii.eqb c nl then None
      else
        match lastAssemble s' with
        | Some n => Some (S n)
        | None =>
            if Strings.HasPrefix s (T "assemble") then Some 8 else None
        end
  end.

(** Lines put together with a newline between them. *)
Fixpoint join_lines (ls : list text) : text :=
  match ls with
  | [] => []
  | [l] => l
  | l :: ls' => l ++ nl :: join_lines ls'
  end.

(** A path element that [Clean] keeps as it is. *)
Definition plain (e : text) : Prop :=
  e <> [] /\ e <> Filepath.dot /\ e <> Filepath.dotdot
  /\ ~ In Filepath.Separator e.

(** *** The scope of the legacy ignore link *)

(** The name [p] is taken by something [os.Remove] deletes at once. *)
Definition linkish (p : string) (fs : FS) : Prop :=
  exists n, fs !! p = Some n /\ n <> Dir.

(** The removal of [p] is registered and [p] is still there to remove. *)
Definition scoped (p : string) (st : State) : Prop :=
  linkish p (fs st) /\ In (Defer_Remove p) (defers st).

(** A step keeps a property of the state, however the step ends. *)
Definition keeps {A} (I : State -> Prop) (m : M A) : Prop :=
  forall st, I st -> I (snd (m st)).

(** The collaborators that write to the disk (the scaffolding and the
    engine, be it the builder's own or the one the strategy lookup gives)
    leave the name [p] as they find it. *)
Definition leaves_alone (h : Host) (b : Builder) (p : string) : Prop :=
  (forall appRoot root rt inv fs,
     fst (scaffolding_Write h appRoot root rt inv fs) !! p = fs !! p)
  /\ (forall e cfg fs,
        impl b = Some e \/ (exists cfg', Strategy h cfg' = Ok e) ->
        fst (engine_Build e cfg fs) !! p = fs !! p).

(** *** Occurrences *)

(** The text [sub] occurs in [s]. *)
Definition occurs (sub s : text) : Prop := exists a b, s = a ++ sub ++ b.

(** *** Options *)

(** An option that leaves a field of the builder as it is. *)
Definition leaves {A} (field : Builder -> A) (o : Option_) : Prop :=
  forall b, field (o b) = field b.

(** *** The warning about a reference by tag *)

Definition tagWarning : string :=
  "image referenced by tag which is discouraged: Tags are mutable and can point to a different artifact than the expected one".

(** *** The trace of a build *)

(** The call a deferred call makes at the exit of the function. *)
Definition deferred_call (d : Deferred) : Call :=
  match d with
  | Defer_ClientClose => Call_ClientClose
  | Defer_Remove path => Call_Remove path
  | Defer_RemoveAll path => Call_RemoveAll path
  | Defer_BodyClose => Call_BodyClose
  end.

(** The place of a call of the body of [Build] in the text of the
    function; the calls that only a deferred call makes have none. *)
Definition phase (c : Call) : nat :=
  match c with
  | Call_GetPlatformImage _ _ => 1
  | Call_NewClient => 2
  | Call_Symlink _ _ => 4
  | Call_MkdirTemp => 6
  | Call_RemoveAll _ => 8
  | Call_ScaffoldingWrite _ => 9
  | Call_ImageInspect _ => 10
  | Call_ParseReference _ => 11
  | Call_RemoteImage _ => 12
  | Call_ConfigFile => 13
  | Call_ValidateConfig _ => 14
  | Call_Strategy _ => 15
  | Call_EngineBuild _ => 16
  | Call_ImageBuild _ _ => 17
  | Call_ClientClose | Call_Remove _ | Call_BodyClose => 0
  end.

(** The place of a [defer] statement in the text of the function. *)
Definition dphase (d : Deferred) : nat :=
  match d with
  | Defer_ClientClose => 3
  | Defer_Remove _ => 5
  | Defer_RemoveAll _ => 7
  | Defer_BodyClose => 18
  end.

(** [strings.ToLower(platforms[0].OS + "/" + platforms[0].Architecture)]. *)
Definition platformOf (pf : Fn.Platform) : string :=
  S_ (Strings.ToLower (T (Fn.OS pf ++ "/" ++ Fn.Architecture pf)%string)).

(** The builder image a build goes on with. *)
Definition resolved (h : Host) (b : Builder) (f : Fn.Function)
    (platforms : list Fn.Platform) (image : string) : Prop :=
  match platforms with
  | [] => BuilderImage f (name b) = Ok image
  | [pf] =>
      exists image0,
        BuilderImage f (name b) = Ok image0
        /\ GetPlatformImage h image0 (platformOf pf) = Ok image
  | _ :: _ :: _ => False
  end.

(** The directory that [scaffold] writes to. *)
Definition appRoot (f : Fn.Function) : string :=
  path_join [Fn.Root f; path_join [".s2i"; "builds"; "last"]].

(** What [Build] has put into a configuration by the time it validates it. *)
Definition configured (h : Host) (b : Builder) (f : Fn.Function)
    (platforms : list Fn.Platform) (cfg : Api.Config) : Prop :=
  Api.Source cfg
  = {| Api.Type_ := Api.URLTypeLocal; Api.URL_Path := Fn.Root f |}
  /\ Api.Quiet cfg = negb (verbose b)
  /\ Api.Tag cfg = Fn.Image (Fn.Build f)
  /\ resolved h b f platforms (Api.BuilderImage cfg)
  /\ Api.BuilderPullPolicy cfg = Api.DefaultBuilderPullPolicy
  /\ Api.PreviousImagePullPolicy cfg = Api.DefaultPreviousImagePullPolicy
  /\ Api.RuntimeImagePullPolicy cfg = Api.DefaultRuntimeImagePullPolicy
  /\ Api.DockerConfig cfg = GetDefaultDockerConfig h
  /\ (exists tmp, Api.AsDockerfile cfg = path_join [tmp; "Dockerfile"])
  /\ Api.ScriptsURL cfg <> scriptsURLDefault
  /\ Api.ExcludeRegExp cfg = excludeRegExp
  /\ (exists envs,
        Interpolate h (Fn.BuildEnvs (Fn.Build f)) = Ok envs
        /\ forall k v,
             In {| Api.Name := k; Api.Value := v |} (Api.Environment cfg)
             <-> In (k, v) envs)
  /\ Api.KeepSymlinks cfg = String.eqb (Fn.Runtime f) "go"
  /\ Api.ForceCopy cfg = String.eqb (Fn.Runtime f) "go".

(** The engine of the build (the builder's own, or the one the strategy
    lookup gives for the configuration) has reported success on [cfg]. *)
Definition engine_succeeded (h : Host) (b : Builder) (cfg : Api.Config)
  : Prop :=
  exists e fs0 result,
    (impl b = Some e \/ (impl b = None /\ Strategy h cfg = Ok e))
    /\ snd (engine_Build e cfg fs0) = EngineOk result.

(** The calls the body of [Build] can make, with what is known of their
    arguments and of what has happened before. *)
Definition made_by (h : Host) (b : Builder) (f : Fn.Function)
    (platforms : list Fn.Platform) (c : Call) : Prop :=
  match c with
  | Call_GetPlatformImage image platform =>
      exists pf,
        platforms = [pf] /\ platform = platformOf pf
        /\ BuilderImage f (name b) = Ok image
  | Call_NewClient => cli b = None
  | Call_Symlink oldname newname =>
      oldname = "./.funcignore" /\ newname = s2iignorePath f
  | Call_MkdirTemp => True
  | Call_RemoveAll path | Call_ScaffoldingWrite path =>
      Fn.Runtime f = "go" /\ path = appRoot f
  | Call_ImageInspect image | Call_ParseReference image =>
      resolved h b f platforms image
  | Call_RemoteImage ref =>
      exists image,
        resolved h b f platforms image /\ ParseReference h image = Ok ref
  | Call_ConfigFile => True
  | Call_ValidateConfig cfg => configured h b f platforms cfg
  | Call_Strategy cfg =>
      impl b = None /\ configured h b f platforms cfg
      /\ ValidateConfig h cfg = []
  | Call_EngineBuild cfg =>
      configured h b f platforms cfg /\ ValidateConfig h cfg = []
  | Call_ImageBuild ar opts =>
      opts = {| Docker.Tags := [Fn.Image (Fn.Build f)];
                Docker.PullParent := true;
                Docker.Version := Docker.BuilderBuildKit |}
      /\ (exists tmp fs,
            ar = archive h (Regexp.MustCompile excludeRegExp) tmp fs)
      /\ (exists cfg,
            configured h b f platforms cfg /\ ValidateConfig h cfg = []
            /\ engine_succeeded h b cfg)
  | Call_ClientClose | Call_Remove _ | Call_BodyClose => False
  end.

(** The calls [Build] can defer. *)
Definition registered_by (b : Builder) (f : Fn.Function) (d : Deferred)
  : Prop :=
  match d with
  | Defer_ClientClose => cli b = None
  | Defer_Remove path => path = s2iignorePath f
  | Defer_RemoveAll _ | Defer_BodyClose => True
  end.

(** The lines [Build] can write to the standard error stream. *)
Definition written_by (b : Builder) (line : string) : Prop :=
  line = ignoreWarning \/ line = tagWarning
  \/ (exists e, line = ("ERROR: " ++ e)%string)
  \/ verbose b = true.

(** The state [st] is reached from [st0] by steps of [Build] that lie
    before the place [n] of its text: the calls made since are in the order
    of the text, the deferred calls registered since are in the reverse
    order, most recent first, and the lines written are lines of [Build]. *)
Definition reached (h : Host) (b : Builder) (f : Fn.Function)
    (platforms : list Fn.Platform) (st0 : State) (n : nat) (st : State)
  : Prop :=
  (exists cs,
     calls st = calls st0 ++ cs
     /\ StronglySorted (fun c c' => phase c < phase c') cs
     /\ Forall (fun c => made_by h b f platforms c /\ phase c < n) cs)
  /\ (exists ds,
        defers st = ds ++ defers st0
        /\ StronglySorted (fun d d' => dphase d' < dphase d) ds
        /\ Forall (fun d => registered_by b f d /\ dphase d < n) ds)
  /\ (exists ls, stderr st = stderr st0 ++ ls /\ Forall (written_by b) ls).

(** Steps that fail do so with an error. *)
Definition failed (e : option error) : Prop := e <> None.

(** A step started before the place [n] ends before the place [n'],
    however it ends; when it gives a value, the value satisfies [Q]; when it
    returns, the error satisfies [R]. *)
Definition step (h : Host) (b : Builder) (f : Fn.Function)
    (platforms : list Fn.Platform) (st0 : State) {A} (n : nat) (m : M A)
    (n' : nat) (Q : A -> Prop) (R : option error -> Prop) : Prop :=
  forall st,
    reached h b f platforms st0 n st ->
    match m st with
    | (Val a, st') => reached h b f platforms st0 n' st' /\ Q a
    | (Return e, st') => reached h b f platforms st0 n' st' /\ R e
    | (Panicked, st') => reached h b f platforms st0 n' st'
    end.

(** What has happened when the body of [Build] returns without an error:
    an assembled configuration has passed validation, the engine has been
    run on it and has reported success, and the daemon has accepted the
    image build, with a progress stream that carries no error. *)
Definition delivered (h : Host) (b : Builder) (f : Fn.Function)
    (platforms : list Fn.Platform) (client : Docker.Client) (tmp : string)
  : Prop :=
  exists cfg fs resp,
    configured h b f platforms cfg
    /\ ValidateConfig h cfg = []
    /\ engine_succeeded h b cfg
    /\ Docker.ImageBuild client
         (archive h (Regexp.MustCompile excludeRegExp) tmp fs)
         {| Docker.Tags := [Fn.Image (Fn.Build f)];
            Docker.PullParent := true;
            Docker.Version := Docker.BuilderBuildKit |}
       = Ok resp
    /\ Forall (fun m => Docker.Error m = None) resp.

(** The calls [Build] makes, those made before it left out. *)
Definition calls_made (h : Host) (b : Builder) (f : Fn.Function)
    (platforms : list Fn.Platform) (st : State) : list Call :=
  skipn (List.length (calls st)) (calls (snd (Build h b f platforms st))).

(** The lines [Build] writes to the standard error stream. *)
Definition lines_written (h : Host) (b : Builder) (f : Fn.Function)
    (platforms : list Fn.Platform) (st : State) : list string :=
  skipn (List.length (stderr st)) (stderr (snd (Build h b f platforms st))).

(** ** Sample data

    A function, a builder and a host on which the statements below are run. *)
Module Sample.

Definition goFunction : Fn.Function :=
  {| Fn.Root := "/home/dev/hello";
     Fn.Runtime := "go";
     Fn.Invoke := "";
     Fn.Build := {| Fn.Image := "example.com/dev/hello:latest";
                    Fn.BuilderImages := ∅;
                    Fn.BuildEnvs := [] |} |}.

Definition pythonFunction : Fn.Function :=
  {| Fn.Root := "/home/dev/hello";
     Fn.Runtime := "python";
     Fn.Invoke := "";
     Fn.Build := {| Fn.Image := "example.com/dev/hello:latest";
                    Fn.BuilderImages := ∅;
                    Fn.BuildEnvs := [] |} |}.

(** A function whose runtime has no default builder image. *)
Definition rustFunction : Fn.Function :=
  {| Fn.Root := "/home/dev/hello";
     Fn.Runtime := "rust";
     Fn.Invoke := "";
     Fn.Build := {| Fn.Image := "example.com/dev/hello:latest";
                    Fn.BuilderImages := ∅;
                    Fn.BuildEnvs := [] |} |}.

(** Two target platforms. *)
Definition linux_amd64 : Fn.Platform :=
  {| Fn.OS := "linux"; Fn.Architecture := "amd64" |}.
Definition linux_arm64 : Fn.Platform :=
  {| Fn.OS := "linux"; Fn.Architecture := "arm64" |}.

Definition labelled (u : string) : Docker.ContainerConfig :=
  {| Docker.Labels := Some {[ scriptsURLLabel := u ]} |}.

(** A daemon that holds the default Python builder only, labelled with the
    engine's own script location, and that reads an archive to its end. *)
Definition daemon : Docker.Client :=
  {| Docker.ImageBuild :=
       fun ar _ =>
         match closed_with ar with
         | Some e => Err e
         | None => Ok [ {| Docker.Stream := "Successfully built";
                           Docker.Error := None |} ]
         end;
     Docker.ImageInspectWithRaw :=
       fun image =>
         if String.eqb image DefaultPythonBuilder
         then Ok {| Docker.Config := Some (labelled scriptsURLDefault);
                    Docker.ContainerConfig_ := None |}
         else Err (ErrNotFound "No such image") |}.

(** An engine that writes the build instructions and succeeds. *)
Definition dockerfile : text :=
  T "FROM registry.access.redhat.com/ubi8/python-39" ++ [nl]
    ++ T "RUN /usr/libexec/s2i/assemble" ++ [nl]
    ++ T "CMD /usr/libexec/s2i/run".

Definition engine : Engine :=
  {| engine_Build :=
       fun cfg fs =>
         (<["/tmp/func-s2i-build1/Dockerfile" := File dockerfile 420]> fs,
          EngineOk {| Api.Messages := ["Application dockerfile generated"] |})
  |}.

Definition visit (path : string) (mode : Z) (target : Result string)
  : Visit :=
  {| v_path := path;
     v_info := Ok {| Fs.Name := path; Fs.Size := 3; Fs.Mode := mode |};
     v_readlink := target;
     v_open := Ok (T "abc");
     v_header_err := None;
     v_copy_err := None |}.

Definition noLink : Result string := Err (PathError "readlink" "").

(** A registry that serves every image with the label "image:///opt/s2i";
    a build directory with the instructions, a [.git] directory and a link
    to an absolute path outside the build directory. *)
Definition hostWith (visits : FS -> string -> list Visit) : Host :=
  {| GOOS := "linux";
     GetPlatformImage := fun image platform => Ok image;
     NewClient := Ok daemon;
     MkdirTemp_name := fun _ => Ok "/tmp/func-s2i-build1";
     GetDefaultDockerConfig := "";
     NewRepository := None;
     scaffolding_Write := fun _ _ _ _ fs => (fs, None);
     assembler := fun _ => Ok "";
     ParseReference := fun image => Ok (Docker.Tag image);
     remote_Image :=
       fun _ => Ok {| Docker.ConfigFile := Ok (labelled "image:///opt/s2i") |};
     Interpolate := fun envs => Ok envs;
     ValidateConfig := fun _ => [];
     Strategy := fun _ => Ok engine;
     Walk_visits := visits |}.

Definition visitsAbsoluteLink (_ : FS) (tmp : string) : list Visit :=
  [ visit tmp Fs.ModeDir noLink;
    visit (tmp ++ "/Dockerfile") 420 noLink;
    visit (tmp ++ "/upload") Fs.ModeDir noLink;
    visit (tmp ++ "/upload/.git") Fs.ModeDir noLink;
    visit (tmp ++ "/upload/passwd") Fs.ModeSymlink (Ok "/etc/passwd") ].

(** The same tree, the link now with a relative target that leads to the
    same file outside the build directory. *)
Definition visitsRelativeLink (_ : FS) (tmp : string) : list Visit :=
  [ visit tmp Fs.ModeDir noLink;
    visit (tmp ++ "/Dockerfile") 420 noLink;
    visit (tmp ++ "/upload") Fs.ModeDir noLink;
    visit (tmp ++ "/upload/.git") Fs.ModeDir noLink;
    visit (tmp ++ "/upload/passwd") Fs.ModeSymlink
      (Ok "../../../etc/passwd") ].

Definition host : Host := hostWith visitsAbsoluteLink.

Definition tmpdir : string := "/tmp/func-s2i-build1".

Definition dockerfileHeader : Tar.Header :=
  {| Tar.Typeflag_ := Tar.TypeReg; Tar.Name := "Dockerfile";
     Tar.Linkname := ""; Tar.Size := 3; Tar.Mode := 420 |}.

Definition uploadHeader : Tar.Header :=
  {| Tar.Typeflag_ := Tar.TypeDir; Tar.Name := "upload";
     Tar.Linkname := ""; Tar.Size := 0; Tar.Mode := 0 |}.

Definition builder : Builder :=
  {| name := "s2i"; verbose := false; impl := None; cli := None |}.

(** Engines that fail and that panic, and builders that are given them. *)
Definition failingEngine : Engine :=
  {| engine_Build := fun _ fs => (fs, EngineErr (ErrOther "assemble failed"))
  |}.

Definition panickingEngine : Engine :=
  {| engine_Build := fun _ fs => (fs, EnginePanic) |}.

Definition builderWith (e : Engine) : Builder :=
  {| name := "s2i"; verbose := false; impl := Some e; cli := None |}.

(** A source tree with the primary ignore file and without the legacy one. *)
Definition state : State :=
  {| fs := {[ "/home/dev/hello" := Dir;
              "/home/dev/hello/.funcignore" := File (T "target") 420 ]};
     stderr := [];
     calls := [];
     defers := [] |}.

(** The assembly of the configuration for the Python function, whose
    builder image carries the engine's default script location. *)
Definition assembled : Outcome Api.Config * State :=
  buildConfig host builder pythonFunction DefaultPythonBuilder tmpdir daemon
    state.

(** The source tree of [state], with a legacy ignore file that is a link to
    a file that is not there. *)
Definition danglingState : State :=
  {| fs := {[ "/home/dev/hello" := Dir;
              "/home/dev/hello/.funcignore" := File (T "target") 420;
              "/home/dev/hello/.s2iignore" := Symlink "./.gone" ]};
     stderr := [];
     calls := [];
     defers := [] |}.

(** A builder that was given its client. *)
Definition builderWithClient : Builder :=
  {| name := "s2i"; verbose := false; impl := None; cli := Some daemon |}.

(** The host of [hostWith], on Windows. *)
Definition windowsHost : Host :=
  {| GOOS := "windows";
     GetPlatformImage := GetPlatformImage host;
     NewClient := NewClient host;
     MkdirTemp_name := MkdirTemp_name host;
     GetDefaultDockerConfig := GetDefaultDockerConfig host;
     NewRepository := NewRepository host;
     scaffolding_Write := scaffolding_Write host;
     assembler := assembler host;
     ParseReference := ParseReference host;
     remote_Image := remote_Image host;
     Interpolate := Interpolate host;
     ValidateConfig := ValidateConfig host;
     Strategy := Strategy host;
     Walk_visits := visitsRelativeLink |}.

(** The configuration the engine gets for the Python function. *)
Definition engineConfig : Api.Config :=
  {| Api.Source := {| Api.Type_ := Api.URLTypeLocal;
                      Api.URL_Path := "/home/dev/hello" |};
     Api.Quiet := true;
     Api.Tag := "example.com/dev/hello:latest";
     Api.BuilderImage := DefaultPythonBuilder;
     Api.BuilderPullPolicy := Api.PullIfNotPresent;
     Api.PreviousImagePullPolicy := Api.PullIfNotPresent;
     Api.RuntimeImagePullPolicy := Api.PullIfNotPresent;
     Api.DockerConfig := "";
     Api.AsDockerfile := "/tmp/func-s2i-build1/Dockerfile";
     Api.ScriptsURL := "";
     Api.ExcludeRegExp := excludeRegExp;
     Api.Environment := [];
     Api.KeepSymlinks := false;
     Api.ForceCopy := false |}.

(** A function with a builder image of its own, referenced by tag. *)
Definition customFunction : Fn.Function :=
  {| Fn.Root := "/home/dev/hello";
     Fn.Runtime := "python";
     Fn.Invoke := "";
     Fn.Build := {| Fn.Image := "example.com/dev/hello:latest";
                    Fn.BuilderImages := {[ "s2i" := "example.com/builder:1" ]};
                    Fn.BuildEnvs := [("PIP_NO_CACHE_DIR", "1")] |} |}.

End Sample.

(** * Properties *)

(** ** Checks of the library models *)

Example sha1_abc :
  S_ (Hex.EncodeToString (Sha1.Sum (bytes (T "abc"))))
  = "a9993e364706816aba3e25717850c26c9cd0d89d".
Proof. vm_compute. reflexivity. Qed.

Example sha1_two_blocks :
  S_ (Hex.EncodeToString
        (Sha1.Sum
           (bytes
              (T "abcdbcdecdefdefgefghfghighijhijkijkljklmklmnlmnomnopnopq"))))
  = "84983e441c3bd26ebaae4aa1f95129e5e54670f1".
Proof. vm_compute. reflexivity. Qed.

Example Clean_examples :
  map (fun path => S_ (Filepath.Clean (T path)))
    [""; "/"; "a//b/./c/.."; "../../a"; "/../a"; "a/../.."; "/tmp/x/"]
  = ["."; "/"; "a/b"; "../../a"; "/a"; ".."; "/tmp/x"].
Proof. vm_compute. reflexivity. Qed.

Example Rel_examples :
  map (fun bt => option_map S_ (Filepath.Rel (T (fst bt)) (T (snd bt))))
    [ ("/tmp/b", "/tmp/b"); ("/tmp/b", "/tmp/b/x/y");
      ("/tmp/b", "/etc/passwd"); ("/tmp/b", "/tmp"); ("/tmp/b", "/tmp/bc");
      ("/", "/a"); ("/tmp/b", "rel") ]
  = [ Some "."; Some "x/y"; Some "../../etc/passwd"; Some ".."; Some "../bc";
      Some "a"; None ].
Proof. vm_compute. reflexivity. Qed.

(** An empty match is replaced, but not right after another match. *)
Example ReplaceAllString_empty_matches :
  Regexp.ReplaceAllString (Regexp.MustCompile "a*") "baaac" "<$0>"
  = "<>b<aaa>c<>".
Proof. vm_compute. reflexivity. Qed.

Example ReplaceAllString_template :
  Regexp.ReplaceAllString (Regexp.MustCompile "(a)(b*)") "xabby"
    "[${2}$1$$]"
  = "x[bba$]y".
Proof. vm_compute. reflexivity. Qed.

(** ** The default builder images *)

Lemma DefaultBuilderImages_lookup (rt img : string) :
  DefaultBuilderImages !! rt = Some img ->
  (rt, img) ∈ [ ("go", DefaultGoBuilder);
                ("node", DefaultNodeBuilder);
                ("nodejs", DefaultNodeBuilder);
                ("python", DefaultPythonBuilder);
                ("quarkus", DefaultQuarkusBuilder);
                ("typescript", DefaultNodeBuilder) ].
Proof.
  intros H. unfold DefaultBuilderImages in H.
  by apply elem_of_list_to_map_2 in H.
Qed.

(** C2.  With the runtime "go" and no builder image of its own under the
    builder's name, a function resolves to the image
    "registry.final.tools/mirror/ubi8-go-toolset"; that image lies on the
    registry registry.final.tools and not under registry.access.redhat.com,
    whereas the default of every other runtime of the table lies under
    registry.access.redhat.com/ubi8/. *)
Theorem go_default_builder_on_other_registry
    (f : Fn.Function) (builderName : string)
    (Hruntime : Fn.Runtime f = "go")
    (Hnone : Fn.BuilderImages (Fn.Build f) !! builderName = None) :
  BuilderImage f builderName
    = Ok "registry.final.tools/mirror/ubi8-go-toolset"
  /\ DefaultBuilderImages !! "go"
     = Some "registry.final.tools/mirror/ubi8-go-toolset"
  /\ Strings.HasPrefix (T DefaultGoBuilder) (T "registry.final.tools/") = true
  /\ Strings.HasPrefix (T DefaultGoBuilder) (T "registry.access.redhat.com/")
     = false
  /\ (forall rt img,
        rt <> "go" -> DefaultBuilderImages !! rt = Some img ->
        Strings.HasPrefix (T img) (T "registry.access.redhat.com/ubi8/")
        = true).
Proof.
  split; [| split; [| split; [| split]]].
  - unfold BuilderImage, Builders.Image. rewrite Hnone, Hruntime.
    reflexivity.
  - reflexivity.
  - reflexivity.
  - reflexivity.
  - intros rt img Hrt Hlook.
    apply DefaultBuilderImages_lookup in Hlook.
    repeat (apply elem_of_cons in Hlook as [Hlook | Hlook];
            [ injection Hlook as -> ->; try reflexivity; congruence |]).
    by apply elem_of_nil in Hlook.
Qed.

Lemma go_default_builder_on_other_registry_witness :
  BuilderImage Sample.goFunction "s2i"
  = Ok "registry.final.tools/mirror/ubi8-go-toolset".
Proof.
  apply (go_default_builder_on_other_registry Sample.goFunction "s2i");
    reflexivity.
Defined.

(** ** The exclusion pattern *)

Lemma excludeRegExp_compiles :
  Regexp.Compile excludeRegExp = Some excludeTree.
Proof. vm_compute. reflexivity. Qed.

Lemma assembleRegExp_compiles :
  Regexp.Compile assembleRegExp = Some assembleTree.
Proof. vm_compute. reflexivity. Qed.

(** C4, on the code.  The pattern matches "foo.envelope" and "my.function",
    where ".env" and ".func" are only part of a longer path element (and
    ".gitignore" as well): the alternation binds weaker than the anchors, so
    only ".git" is tied to the start of an element and only "node_modules"
    to the end of one.  Names that are a whole element are matched. *)
Theorem exclusion_pattern_matches_inside_elements :
  excluded "foo.envelope" = true
  /\ excluded "my.function" = true
  /\ excluded "src/my.function/handler.go" = true
  /\ excluded ".gitignore" = true
  /\ excluded "my_node_modules/x.js" = true
  /\ excluded ".git/config" = true
  /\ excluded ".env" = true
  /\ excluded "a/.func/built" = true
  /\ excluded "node_modules/x.js" = true
  /\ excluded "src/main.go" = false.
Proof. vm_compute. repeat split; reflexivity. Qed.

(** ** The cache-mount identifier *)

Lemma be_bytes_length (n : nat) (x : Z) :
  List.length (Sha1.be_bytes n x) = n.
Proof.
  unfold Sha1.be_bytes.
  by rewrite length_map, length_rev, length_seq.
Qed.

Lemma be_bytes_range (n : nat) (x : Z) :
  Forall (fun b => (0 <= b < 256)%Z) (Sha1.be_bytes n x).
Proof.
  unfold Sha1.be_bytes. apply Forall_forall. intros b Hb.
  apply list_elem_of_In, in_map_iff in Hb as (i & <- & _).
  apply Z.mod_pos_bound. lia.
Qed.

Lemma Sum_length (msg : list Z) : List.length (Sha1.Sum msg) = 20.
Proof.
  unfold Sha1.Sum.
  destruct (Sha1.blocks _ _ _) as [[[[h0 h1] h2] h3] h4].
  by rewrite !length_app, !be_bytes_length.
Qed.

Lemma Sum_range (msg : list Z) :
  Forall (fun b => (0 <= b < 256)%Z) (Sha1.Sum msg).
Proof.
  unfold Sha1.Sum.
  destruct (Sha1.blocks _ _ _) as [[[[h0 h1] h2] h3] h4].
  repeat apply Forall_app_2; apply be_bytes_range.
Qed.

Lemma EncodeToString_length (src : list Z) :
  List.length (Hex.EncodeToString src) = 2 * List.length src.
Proof.
  unfold Hex.EncodeToString.
  induction src as [| b src IH]; simpl; [reflexivity | rewrite IH; lia].
Qed.

Lemma digit_in_hextable (x : Z) :
  (0 <= x < 16)%Z -> In (Hex.digit x) Hex.hextable.
Proof.
  intros Hx. unfold Hex.digit. apply nth_In.
  change (List.length Hex.hextable) with 16. lia.
Qed.

Lemma EncodeToString_digits (src : list Z) :
  Forall (fun b => (0 <= b < 256)%Z) src ->
  Forall (fun c => In c Hex.hextable) (Hex.EncodeToString src).
Proof.
  unfold Hex.EncodeToString.
  induction 1 as [| b src Hb _ IH]; simpl; [constructor |].
  constructor; [| constructor; [| exact IH]].
  - apply digit_in_hextable. rewrite Z.shiftr_div_pow2 by lia.
    change (2 ^ 4)%Z with 16%Z. split.
    + apply Z.div_pos; lia.
    + apply Z.div_lt_upper_bound; lia.
  - apply digit_in_hextable.
    change 15%Z with (Z.ones 4). rewrite Z.land_ones by lia.
    apply Z.mod_pos_bound. reflexivity.
Qed.



(** ** The lookup of the script URL *)

Lemma skipn_length_app {A} (l k : list A) :
  skipn (List.length l) (l ++ k) = k.
Proof. apply drop_app_length. Qed.

Ltac run_step :=
  unfold result_of, calls_of, stderr_of, bind, call, ret, returns, Fprintln,
    defer, get_fs, try_, check;
  simpl.

(** C9.  The lookup goes to the registry exactly when the inspection by the
    daemon fails with a "not found" error: the reference is parsed then and
    only then, and the image is fetched exactly when moreover the reference
    parses.  Any other inspection error is returned as it is; an error of
    parsing, of fetching or of reading the configuration is returned
    wrapped.  When no step fails the result is the label, and the empty
    string without error when the label is absent: from both the image and
    the container configuration of the local image, or from the
    configuration fetched from the registry. *)
Theorem script_url_lookup
    (h : Host) (cli : Docker.Client) (image : string) (st : State) :
  let r := result_of (s2iScriptURL h cli image) st in
  let new := calls_of (s2iScriptURL h cli image) st in
  let notFound :=
    exists e, Docker.ImageInspectWithRaw cli image = Err e
              /\ IsErrNotFound e = true in
  (In (Call_ParseReference image) new <-> notFound)
  /\ (forall ref,
        In (Call_RemoteImage ref) new
        <-> notFound /\ ParseReference h image = Ok ref)
  /\ (forall e,
        Docker.ImageInspectWithRaw cli image = Err e ->
        IsErrNotFound e = false ->
        r = Val (Err e))
  /\ (forall e,
        notFound -> ParseReference h image = Err e ->
        r = Val (Err (fmt_Errorf_w "cannot parse image name: %w" [] e)))
  /\ (forall ref e,
        notFound -> ParseReference h image = Ok ref ->
        remote_Image h ref = Err e ->
        r = Val (Err (fmt_Errorf_w "cannot get image from registry: %w" []
                        e)))
  /\ (forall ref img e,
        notFound -> ParseReference h image = Ok ref ->
        remote_Image h ref = Ok img -> Docker.ConfigFile img = Err e ->
        r = Val (Err (fmt_Errorf_w "cannot get config for image: %w" [] e)))
  /\ (forall ref img cfg,
        notFound -> ParseReference h image = Ok ref ->
        remote_Image h ref = Ok img -> Docker.ConfigFile img = Ok cfg ->
        r = Val (Ok (default "" (label cfg))))
  /\ (forall img,
        Docker.ImageInspectWithRaw cli image = Ok img ->
        r = Val (Ok (localScriptURL img))
        /\ (Docker.Config img ≫= label = None ->
            Docker.ContainerConfig_ img ≫= label = None ->
            r = Val (Ok ""))).
Proof.
  cbv zeta. unfold s2iScriptURL.
  destruct (Docker.ImageInspectWithRaw cli image) as [img | e] eqn:Hinsp;
    [| destruct (IsErrNotFound e) eqn:Hnf;
       [destruct (ParseReference h image) as [ref | e1] eqn:Hparse;
        [destruct (remote_Image h ref) as [rimg | e2] eqn:Hremote;
         [destruct (Docker.ConfigFile rimg) as [cfg | e3] eqn:Hcfg;
          [destruct (label cfg) eqn:Hlabel |] |];
         destruct ref; try destruct (isDefaultBuilderImage image) |] |]].
  all: run_step.
  all: try (unfold localScriptURL;
            destruct (Docker.Config img ≫= label) eqn:Hl1;
            [| destruct (Docker.ContainerConfig_ img ≫= label) eqn:Hl2];
            simpl).
  all: rewrite <- ?app_assoc, skipn_length_app; simpl.
  all: repeat split; intros.
  all: repeat match goal with
         | H : exists _, _ |- _ => destruct H
         | H : _ /\ _ |- _ => destruct H
         | H : _ \/ _ |- _ => destruct H
         | H : False |- _ => destruct H
         | H : Call_ImageInspect _ = _ |- _ => discriminate H
         | H : Call_ConfigFile = _ |- _ => discriminate H
         | H : Call_ParseReference _ = Call_RemoteImage _ |- _ =>
             discriminate H
         | H : Call_RemoteImage _ = Call_ParseReference _ |- _ =>
             discriminate H
         | H : Call_RemoteImage _ = Call_RemoteImage _ |- _ =>
             injection H as H
         end.
  all: try congruence.
  all: try solve [eexists; split; [reflexivity | assumption]].
  all: try solve [split; [eexists; split; [reflexivity | assumption]
                         | congruence]].
  all: try solve [right; left; reflexivity].
  all: try solve [right; right; left; congruence].
  all: try solve [right; right; right; left; congruence].
  all: try match goal with
           | H : Ok _ = Ok ?i |- context [Docker.Config ?i] =>
               injection H as <-
           end.
  all: try match goal with
           | |- context [label ?c] => replace c with cfg by congruence
           end.
  all: rewrite ?Hl1, ?Hl2, ?Hlabel; reflexivity.
Qed.

Lemma script_url_lookup_witness :
  result_of
    (s2iScriptURL Sample.host Sample.daemon "example.com/builder:1")
    Sample.state
  = Val (Ok "image:///opt/s2i").
Proof.
  apply (proj1 (proj2 (proj2 (proj2 (proj2 (proj2 (proj2
           (script_url_lookup Sample.host Sample.daemon
              "example.com/builder:1" Sample.state)))))))
           (Docker.Tag "example.com/builder:1")
           {| Docker.ConfigFile := Ok (Sample.labelled "image:///opt/s2i") |}
           (Sample.labelled "image:///opt/s2i")).
  - eexists. split; reflexivity.
  - reflexivity.
  - reflexivity.
  - reflexivity.
Defined.

(** ** More than one platform *)

Lemma State_eta (st : State) :
  {| fs := fs st; stderr := stderr st; calls := calls st;
     defers := defers st |} = st.
Proof. by destruct st. Qed.

(** C6, as the code has it.  For a request with more than one platform whose
    builder image resolves, [Build] returns the fixed error at once and
    leaves the state as it was: no platform image was looked up, no client
    made, nothing written, the engine not run and no image build asked for.
    When the builder image does not resolve, the error of that resolution is
    returned instead, the state untouched as well. *)
Theorem multiple_platforms_rejected
    (h : Host) (b : Builder) (f : Fn.Function)
    (platforms : list Fn.Platform) (st : State)
    (Hmany : 2 <= List.length platforms) :
  (forall image,
     BuilderImage f (name b) = Ok image ->
     Build h b f platforms st = (Returned (Some errSinglePlatform), st))
  /\ (forall e,
        BuilderImage f (name b) = Err e ->
        Build h b f platforms st = (Returned (Some e), st)).
Proof.
  split; intros x Hx; unfold Build, Build_body, resolveBuilderImage;
    rewrite Hx.
  - destruct platforms as [| p1 [| p2 ps]]; simpl in Hmany; try lia.
    simpl. by rewrite State_eta.
  - simpl. by rewrite State_eta.
Qed.

Lemma multiple_platforms_rejected_witness :
  Build Sample.host Sample.builder Sample.pythonFunction
    [Sample.linux_amd64; Sample.linux_arm64] Sample.state
  = (Returned (Some errSinglePlatform), Sample.state).
Proof.
  apply (proj1 (multiple_platforms_rejected Sample.host Sample.builder
                  Sample.pythonFunction
                  [Sample.linux_amd64; Sample.linux_arm64] Sample.state
                  (le_n 2))
           DefaultPythonBuilder).
  reflexivity.
Defined.

(** C6 as stated fails: the builder image is resolved before the platforms
    are counted, so a request with two platforms for a runtime without a
    default image gets the error of the resolution, not the fixed one. *)
Lemma multiple_platforms_counterexample :
  2 <= List.length [Sample.linux_amd64; Sample.linux_arm64]
  /\ fst (Build Sample.host Sample.builder Sample.rustFunction
            [Sample.linux_amd64; Sample.linux_arm64] Sample.state)
     <> Returned (Some errSinglePlatform).
Proof. split; [simpl; lia | vm_compute; discriminate]. Qed.

(** ** The archive walk *)

Lemma T_S (l : text) : T (S_ l) = l.
Proof. apply list_ascii_of_string_of_list_ascii. Qed.

Lemma S_T (s : string) : S_ (T s) = s.
Proof. apply string_of_list_ascii_of_string. Qed.

Lemma text_eqb_true (a b : text) : Filepath.text_eqb a b = true <-> a = b.
Proof. unfold Filepath.text_eqb. apply bool_decide_eq_true. Qed.

Lemma text_eqb_false (a b : text) : Filepath.text_eqb a b = false <-> a <> b.
Proof. unfold Filepath.text_eqb. apply bool_decide_eq_false. Qed.

Lemma Rel_same (base : text) : Filepath.Rel base base = Some Filepath.dot.
Proof.
  unfold Filepath.Rel.
  by rewrite (proj2 (text_eqb_true _ _) eq_refl).
Qed.

Lemma headers_app (a b : list Tar.Item) :
  headers (a ++ b) = headers a ++ headers b.
Proof. unfold headers. apply flat_map_app. Qed.

(** What the callback has checked before it writes a header. *)
Lemma walkFn_header (goos : string) (exclude : Regexp.regex) (tmp : string)
    (v : Visit) (hdr : Tar.Header) :
  In hdr (headers (fst (walkFn goos exclude tmp v))) ->
  exists p,
    Filepath.Rel (T tmp) (T (v_path v)) = Some p
    /\ p <> Filepath.dot
    /\ Regexp.search exclude true p = false
    /\ Tar.Name hdr = S_ p.
Proof.
  unfold walkFn, Filepath.ToSlash.
  destruct (v_info v) as [fi |]; [| intros []].
  destruct (Filepath.Rel (T tmp) (T (v_path v))) as [p |]; [| intros []].
  destruct (Filepath.text_eqb p Filepath.dot) eqn:Hdot; [intros [] |].
  destruct (Regexp.search exclude true p) eqn:Hex; [intros [] |].
  intros Hin. exists p.
  split; [reflexivity |].
  split; [by apply text_eqb_false |].
  split; [exact Hex |].
  repeat case_match; simpl in Hin; try contradiction.
  all: destruct Hin as [<- | []]; reflexivity.
Qed.

Lemma Walk_header (fn : Visit -> list Tar.Item * option error)
    (visits : list Visit) (hdr : Tar.Header) :
  In hdr (headers (fst (Walk fn visits))) ->
  exists v, In v visits /\ In hdr (headers (fst (fn v))).
Proof.
  induction visits as [| v visits IH]; simpl; [intros [] |].
  destruct (fn v) as [out [err |]] eqn:Hv; simpl.
  - intros Hin. exists v. rewrite Hv. auto.
  - destruct (Walk fn visits) as [out' err']. simpl in *.
    rewrite headers_app, in_app_iff. intros [Hin | Hin].
    + exists v. rewrite Hv. auto.
    + destruct (IH Hin) as (v' & Hv' & Hh). eauto.
Qed.

(** The headers of an archive made with the exclusion pattern. *)
Lemma archive_headers (h : Host) (tmp : string) (fs : FS)
    (hdr : Tar.Header)
    (Hin : In hdr (headers (items
              (archive h (Regexp.MustCompile excludeRegExp) tmp fs)))) :
  Tar.Name hdr <> "."
  /\ excluded (Tar.Name hdr) = false
  /\ (exists v,
        In v (Walk_visits h fs tmp)
        /\ v_path v <> tmp
        /\ Filepath.Rel (T tmp) (T (v_path v)) = Some (T (Tar.Name hdr))).
Proof.
  unfold archive in Hin.
  destruct (Walk _ _) as [out err] eqn:HW. simpl in Hin.
  replace out with (fst (Walk (walkFn (GOOS h)
                                 (Regexp.MustCompile excludeRegExp) tmp)
                           (Walk_visits h fs tmp))) in Hin
    by (by rewrite HW).
  apply Walk_header in Hin as (v & Hv & Hin).
  apply walkFn_header in Hin as (p & Hrel & Hdot & Hex & Hname).
  split.
  { rewrite Hname. intros Heq. apply Hdot.
    rewrite <- (T_S p), Heq. reflexivity. }
  split.
  { unfold excluded, Regexp.MatchString. by rewrite Hname, T_S. }
  exists v. split; [exact Hv |]. split.
  - intros Heq. rewrite Heq, Rel_same in Hrel. congruence.
  - by rewrite Hname, T_S.
Qed.

(** ** Links that leave the build directory *)

Lemma Walk_app (fn : Visit -> list Tar.Item * option error)
    (pre rest : list Visit) :
  snd (Walk fn pre) = None ->
  Walk fn (pre ++ rest)
  = (fst (Walk fn pre) ++ fst (Walk fn rest), snd (Walk fn rest)).
Proof.
  induction pre as [| v pre IH]; simpl.
  - intros _. by destruct (Walk fn rest).
  - destruct (fn v) as [out [err |]]; simpl; [discriminate |].
    destruct (Walk fn pre) as [out' err']. simpl in *.
    intros ->. rewrite IH by reflexivity. simpl.
    by rewrite app_assoc.
Qed.

(** C1, as the code has it.  The walk has reached a symbolic link that is
    neither the root nor excluded.  If the target stored in the link is
    absolute and, made relative to the build directory, is ".." or begins
    with "../", the walk fails with the error that names the link; nothing
    is written for the link or after it, and the pipe to the consumer is
    closed with that error.  If the stored target is relative, it is handed
    to the header as it is, without a check. *)
Theorem absolute_link_escape_rejected
    (h : Host) (exclude : Regexp.regex) (tmp : string) (fs : FS)
    (pre post : list Visit) (v : Visit) (fi : Fs.FileInfo) (p : text)
    (target : string)
    (Hvisits : Walk_visits h fs tmp = pre ++ v :: post)
    (Hpre : snd (Walk (walkFn (GOOS h) exclude tmp) pre) = None)
    (Hinfo : v_info v = Ok fi)
    (Hlink : Fs.has (Fs.Mode fi) Fs.ModeSymlink = true)
    (Hrel : Filepath.Rel (T tmp) (T (v_path v)) = Some p)
    (Hnotroot : p <> Filepath.dot)
    (Hnotexcluded : Regexp.search exclude true p = false)
    (Htarget : v_readlink v = Ok target) :
  (Filepath.IsAbs (T target) = true ->
   forall rel,
     Filepath.Rel (T tmp) (T target) = Some rel ->
     Strings.HasPrefix rel up = true \/ rel = Filepath.dotdot ->
     closed_with (archive h exclude tmp fs) = Some (errLinkOutside (S_ p))
     /\ items (archive h exclude tmp fs)
        = fst (Walk (walkFn (GOOS h) exclude tmp) pre))
  /\ (Filepath.IsAbs (T target) = false ->
      linkname tmp p v fi = Ok (T target)).
Proof.
  split.
  - intros Habs rel Htrel Hescape.
    assert (Hlnk : linkname tmp p v fi = Err (errLinkOutside (S_ p))).
    { unfold linkname. rewrite Hlink, Htarget, Habs, Htrel.
      destruct Hescape as [-> | ->].
      - reflexivity.
      - by rewrite (proj2 (text_eqb_true _ _) eq_refl), orb_true_r. }
    assert (Hv : walkFn (GOOS h) exclude tmp v
                 = ([], Some (errLinkOutside (S_ p)))).
    { unfold walkFn, Filepath.ToSlash. rewrite Hinfo, Hrel.
      rewrite (proj2 (text_eqb_false _ _) Hnotroot), Hnotexcluded.
      by rewrite Hlnk. }
    unfold archive. rewrite Hvisits, Walk_app by exact Hpre.
    simpl. rewrite Hv. simpl. by rewrite app_nil_r.
  - intros Hrelative. unfold linkname.
    by rewrite Hlink, Htarget, Hrelative.
Qed.

Lemma absolute_link_escape_rejected_witness :
  closed_with
    (archive Sample.host (Regexp.MustCompile excludeRegExp) Sample.tmpdir ∅)
  = Some (errLinkOutside "upload/passwd").
Proof.
  refine (proj1 (proj1
            (absolute_link_escape_rejected Sample.host
               (Regexp.MustCompile excludeRegExp) Sample.tmpdir ∅
               (firstn 4 (Sample.visitsAbsoluteLink ∅ Sample.tmpdir)) []
               (Sample.visit "/tmp/func-s2i-build1/upload/passwd"
                  Fs.ModeSymlink (Ok "/etc/passwd"))
               {| Fs.Name := "/tmp/func-s2i-build1/upload/passwd";
                  Fs.Size := 3; Fs.Mode := Fs.ModeSymlink |}
               (T "upload/passwd") "/etc/passwd" _ _ _ _ _ _ _ _)
            _ (T "../../etc/passwd") _ _)).
  - reflexivity.
  - vm_compute. reflexivity.
  - reflexivity.
  - vm_compute. reflexivity.
  - vm_compute. reflexivity.
  - vm_compute. discriminate.
  - vm_compute. reflexivity.
  - reflexivity.
  - reflexivity.
  - vm_compute. reflexivity.
  - left. reflexivity.
Defined.

(** C1 as stated fails for a link with a relative target: the link
    [upload/passwd -> ../../../etc/passwd] leads out of the build directory
    (relative to it the target is "../../etc/passwd"), yet the walk ends
    without error and the archive carries the link with its target. *)
Lemma relative_link_escape_counterexample :
  let h := Sample.hostWith Sample.visitsRelativeLink in
  let exclude := Regexp.MustCompile excludeRegExp in
  let link := "/tmp/func-s2i-build1/upload/passwd" in
  option_map S_
    (Filepath.Rel (T Sample.tmpdir)
       (Filepath.Join [T (Os.Dir_of link); T "../../../etc/passwd"]))
  = Some "../../etc/passwd"
  /\ Strings.HasPrefix (T "../../etc/passwd") up = true
  /\ closed_with (archive h exclude Sample.tmpdir ∅) = None
  /\ In {| Tar.Typeflag_ := Tar.TypeSymlink; Tar.Name := "upload/passwd";
           Tar.Linkname := "../../../etc/passwd"; Tar.Size := 0;
           Tar.Mode := 0 |}
       (headers (items (archive h exclude Sample.tmpdir ∅))).
Proof.
  vm_compute. repeat split; try reflexivity.
  right. right. left. reflexivity.
Qed.

(** ** The cache-mount patch *)

Section RegexpFacts.
Context {R : Type}.
Implicit Types (k : @Regexp.cont R).

Lemma run_mkCat (r1 r2 : Regexp.regex) b s cs k :
  Regexp.run (Regexp.mkCat r1 r2) b s cs k
  = Regexp.run r1 b s cs (fun b' s' cs' => Regexp.run r2 b' s' cs' k).
Proof. destruct r1, r2; reflexivity. Qed.

(** A literal is matched as a prefix of the input. *)
Lemma run_lit_then (str : text) (r : Regexp.regex) b s cs k :
  str <> [] ->
  Regexp.run
    (fold_right (fun c acc => Regexp.mkCat (Regexp.Chr c) acc) r str)
    b s cs k
  = if Strings.HasPrefix s str
    then Regexp.run r false (skipn (List.length str) s) cs k
    else None.
Proof.
  revert b s. induction str as [| c str IH]; intros b s Hne; [done |].
  cbn [fold_right]. rewrite run_mkCat. cbn [Regexp.run].
  destruct s as [| x s]; [reflexivity |].
  change (Strings.HasPrefix (x :: s) (c :: str))
    with (Ascii.eqb x c && Strings.HasPrefix s str).
  change (skipn (List.length (c :: str)) (x :: s))
    with (skipn (List.length str) s).
  destruct (Ascii.eqb x c); cbn [andb]; [| reflexivity].
  destruct str as [| c' str'].
  - by destruct s.
  - by rewrite IH.
Qed.

(** The iteration of [.] takes a byte that is not a newline and goes on;
    what it has taken last is given back first. *)
Lemma star_any (K : bool -> text -> Regexp.caps -> option R) fuel b s cs :
  List.length s <= fuel ->
  Regexp.star_loop (Regexp.run Regexp.AnyNotNL) K fuel b s cs
  = match s with
    | c :: s' =>
        if Ascii.eqb c nl then K b s cs
        else
          match Regexp.star_loop (Regexp.run Regexp.AnyNotNL) K
                  (Nat.pred fuel) false s' cs with
          | Some x => Some x
          | None => K b s cs
          end
    | [] => K b s cs
    end.
Proof.
  intros Hfuel. destruct fuel as [| fuel]; destruct s as [| c s']; simpl in *;
    try reflexivity; try lia.
  destruct (Ascii.eqb c nl); [reflexivity |].
  by rewrite (proj2 (Nat.ltb_lt _ _) (Nat.lt_succ_diag_r _)).
Qed.

End RegexpFacts.

Lemma HasPrefix_length (s p : text) :
  Strings.HasPrefix s p = true -> List.length p <= List.length s.
Proof.
  revert s. induction p as [| c p IH]; intros [| x s]; simpl;
    try discriminate; try lia.
  intros [_ H]%andb_prop. apply IH in H. lia.
Qed.

Lemma lastAssemble_bound (s : text) (n : nat) :
  lastAssemble s = Some n -> 8 <= n <= List.length s.
Proof.
  revert n. induction s as [| c s IH]; intros n; [discriminate |].
  cbn [lastAssemble].
  destruct (Ascii.eqb c nl); [discriminate |].
  destruct (lastAssemble s) as [m |].
  - intros [= <-]. specialize (IH m eq_refl). simpl. lia.
  - destruct (Strings.HasPrefix (c :: s) (T "assemble")) eqn:Hp;
      [| discriminate].
    intros [= <-]. apply HasPrefix_length in Hp.
    change (List.length (T "assemble")) with 8 in Hp. lia.
Qed.

Lemma star_assemble {R : Type} (f : text -> Regexp.caps -> R)
    (s : text) (cs : Regexp.caps) (fuel : nat) (b : bool) :
  List.length s <= fuel ->
  Regexp.star_loop (Regexp.run Regexp.AnyNotNL)
    (fun b' s' cs' =>
       Regexp.run (literal "assemble") b' s' cs'
         (fun _ s'' cs'' => Some (f s'' cs'')))
    fuel b s cs
  = match lastAssemble s with
    | Some n => Some (f (skipn n s) cs)
    | None => None
    end.
Proof.
  revert fuel b. induction s as [| c s IH]; intros fuel b Hfuel;
    rewrite star_any by exact Hfuel.
  - unfold literal, lit_then. by rewrite run_lit_then.
  - cbn [lastAssemble].
    unfold literal, lit_then. rewrite run_lit_then by done.
    destruct (Ascii.eqb c nl) eqn:Hnl.
    + apply Ascii.eqb_eq in Hnl as ->. reflexivity.
    + fold (lit_then "assemble" Regexp.Empty). fold (literal "assemble").
      rewrite IH by (simpl in Hfuel; lia).
      destruct (lastAssemble s) as [n |]; [reflexivity |].
      by destruct (Strings.HasPrefix (c :: s) (T "assemble")).
Qed.

(** A match of the pattern at the start of [s]: "RUN ", then up to the last
    "assemble" of the line; the group holds what follows "RUN ". *)
Lemma match_here_assemble (b : bool) (s : text) :
  Regexp.match_here assembleTree b s
  = if Strings.HasPrefix s (T "RUN ") then
      match lastAssemble (skipn 4 s) with
      | Some n => Some (4 + n, [(1, firstn n (skipn 4 s))])
      | None => None
      end
    else None.
Proof.
  unfold Regexp.match_here, assembleTree, lit_then.
  rewrite run_lit_then by done.
  destruct (Strings.HasPrefix s (T "RUN ")) eqn:Hp; [| reflexivity].
  change (List.length (T "RUN ")) with 4.
  cbn [Regexp.run].
  rewrite (star_assemble
             (fun s'' cs'' =>
                (List.length s - List.length s'',
                 (1, firstn (List.length (skipn 4 s) - List.length s'')
                       (skipn 4 s)) :: cs'')))
    by reflexivity.
  destruct (lastAssemble (skipn 4 s)) as [n |] eqn:Hlast; [| reflexivity].
  apply lastAssemble_bound in Hlast.
  apply HasPrefix_length in Hp. change (List.length (T "RUN ")) with 4 in Hp.
  rewrite !length_skipn in *.
  replace (List.length s - (List.length s - 4 - n)) with (4 + n) by lia.
  replace (List.length s - 4 - (List.length s - 4 - n)) with n by lia.
  reflexivity.
Qed.

Section ReplaceLines.
Variables (re : Regexp.regex) (repl : text).
Hypothesis Hbot :
  forall b b' s, Regexp.match_here re b s = Regexp.match_here re b' s.
Hypothesis Hlocal :
  forall b l rest,
    ~ In nl l ->
    Regexp.match_here re b (l ++ nl :: rest) = Regexp.match_here re b l.
Hypothesis Hbound :
  forall b s n cs,
    Regexp.match_here re b s = Some (n, cs) -> n <= List.length s.

Lemma replaceAll_bot (s : text) :
  forall skip after b b',
    Regexp.replaceAll re repl b s skip after
    = Regexp.replaceAll re repl b' s skip after.
Proof.
  induction s as [| c s IH]; intros skip after b b'; simpl;
    rewrite (Hbot b b'); reflexivity.
Qed.

(** A line is rewritten on its own: nothing of a match reaches over the
    newline that ends it. *)
Lemma replaceAll_line (l rest : text) :
  ~ In nl l ->
  forall skip after b,
    skip <= List.length l ->
    Regexp.replaceAll re repl b (l ++ nl :: rest) skip after
    = Regexp.replaceAll re repl b l skip after
        ++ nl :: Regexp.replaceAll re repl false rest 0 false.
Proof.
  induction l as [| c l IH]; intros Hnl skip after b Hskip.
  - assert (skip = 0) as -> by (simpl in Hskip; lia).
    cbn [app Regexp.replaceAll].
    pose proof (Hlocal b [] rest Hnl) as Hl. cbn [app] in Hl. rewrite Hl.
    destruct (Regexp.match_here re b []) as [[[| n] cs] |] eqn:Hm.
    + by rewrite app_nil_r.
    + apply Hbound in Hm. simpl in Hm. lia.
    + reflexivity.
  - assert (Hnl' : ~ In nl l) by (intros ?; apply Hnl; by right).
    destruct skip as [| skip].
    + change ((c :: l) ++ nl :: rest) with (c :: (l ++ nl :: rest)).
      cbn [Regexp.replaceAll].
      change (c :: (l ++ nl :: rest)) with ((c :: l) ++ nl :: rest).
      rewrite (Hlocal b (c :: l) rest) by exact Hnl.
      destruct (Regexp.match_here re b (c :: l)) as [[[| n] cs] |] eqn:Hm.
      * rewrite IH by (simpl; auto with lia).
        by rewrite <- app_assoc.
      * apply Hbound in Hm. simpl in Hm.
        rewrite IH by (auto with lia).
        rewrite take_app_le by (simpl; lia).
        by rewrite <- app_assoc.
      * rewrite IH by (simpl; auto with lia). reflexivity.
    + simpl in Hskip. simpl. apply IH; [exact Hnl' | lia].
Qed.

Lemma replaceAll_lines (ls : list text) :
  forall l b,
    Forall (fun l => ~ In nl l) (l :: ls) ->
    Regexp.replaceAll re repl b (join_lines (l :: ls)) 0 false
    = join_lines
        (map (fun l => Regexp.replaceAll re repl true l 0 false) (l :: ls)).
Proof.
  induction ls as [| l' ls IH]; intros l b Hls.
  - simpl. apply replaceAll_bot.
  - apply Forall_cons in Hls as [Hl Hls].
    change (join_lines (l :: l' :: ls))
      with (l ++ nl :: join_lines (l' :: ls)).
    rewrite replaceAll_line by (auto with lia).
    rewrite IH by exact Hls. rewrite (replaceAll_bot l 0 false b true).
    reflexivity.
Qed.

(** Where the pattern matches nowhere, the text stays as it is. *)
Lemma replaceAll_no_match (s : text) :
  forall b after,
    Regexp.search re b s = false ->
    Regexp.replaceAll re repl b s 0 after = s.
Proof.
  induction s as [| c s IH]; intros b after; simpl;
    destruct (Regexp.match_here re b _); try discriminate;
    [reflexivity |].
  intros Hs. by rewrite IH.
Qed.

Lemma replaceAll_consume (s : text) :
  forall b, Regexp.replaceAll re repl b s (List.length s) true = [].
Proof.
  induction s as [| c s IH]; intros b; simpl; [| apply IH].
  destruct (Regexp.match_here re b []) as [[[| n] cs] |] eqn:Hm;
    try reflexivity.
  apply Hbound in Hm. simpl in Hm. lia.
Qed.

(** A match that takes the whole text is replaced by the expanded
    template. *)
Lemma replaceAll_whole_match (s : text) (b after : bool)
    (cs : Regexp.caps) :
  s <> [] ->
  Regexp.match_here re b s = Some (List.length s, cs) ->
  Regexp.replaceAll re repl b s 0 after = Regexp.expand repl 0 s cs.
Proof.
  intros Hne Hm. destruct s as [| c s]; [done |].
  cbn [Regexp.replaceAll]. rewrite Hm. cbn [List.length].
  rewrite replaceAll_consume, app_nil_r.
  change (S (List.length s)) with (List.length (c :: s)).
  by rewrite firstn_all.
Qed.

End ReplaceLines.

Lemma HasPrefix_local (p l rest : text) :
  ~ In nl p -> ~ In nl l ->
  Strings.HasPrefix (l ++ nl :: rest) p = Strings.HasPrefix l p.
Proof.
  revert l. induction p as [| c p IH]; intros l Hp Hl; [by destruct l |].
  destruct l as [| x l].
  - change (Strings.HasPrefix ([] ++ nl :: rest) (c :: p))
      with (Ascii.eqb nl c && Strings.HasPrefix rest p).
    change (Strings.HasPrefix [] (c :: p)) with false.
    destruct (Ascii.eqb_spec nl c) as [Heq |]; [| reflexivity].
    exfalso. apply Hp. left. by symmetry.
  - change (Strings.HasPrefix ((x :: l) ++ nl :: rest) (c :: p))
      with (Ascii.eqb x c && Strings.HasPrefix (l ++ nl :: rest) p).
    change (Strings.HasPrefix (x :: l) (c :: p))
      with (Ascii.eqb x c && Strings.HasPrefix l p).
    rewrite IH; [reflexivity | |]; intros ?; [apply Hp | apply Hl]; by right.
Qed.

Lemma lastAssemble_local (l rest : text) :
  ~ In nl l -> lastAssemble (l ++ nl :: rest) = lastAssemble l.
Proof.
  induction l as [| c l IH]; intros Hl.
  - reflexivity.
  - change ((c :: l) ++ nl :: rest) with (c :: (l ++ nl :: rest)).
    cbn [lastAssemble]. rewrite IH by (intros ?; apply Hl; by right).
    change (c :: (l ++ nl :: rest)) with ((c :: l) ++ nl :: rest).
    rewrite HasPrefix_local; [reflexivity | | exact Hl].
    vm_compute. intros H. repeat (destruct H as [H | H]; [discriminate |]).
    exact H.
Qed.

Lemma match_here_assemble_local (b : bool) (l rest : text) :
  ~ In nl l ->
  Regexp.match_here assembleTree b (l ++ nl :: rest)
  = Regexp.match_here assembleTree b l.
Proof.
  intros Hl. rewrite !match_here_assemble.
  rewrite HasPrefix_local; [| | exact Hl].
  2: { vm_compute. intros H.
       repeat (destruct H as [H | H]; [discriminate |]). exact H. }
  destruct (Strings.HasPrefix l (T "RUN ")) eqn:Hp; [| reflexivity].
  apply HasPrefix_length in Hp. change (List.length (T "RUN ")) with 4 in Hp.
  rewrite skipn_app.
  replace (4 - List.length l) with 0 by lia. cbn [skipn].
  assert (Hl' : ~ In nl (skipn 4 l)).
  { intros Hin. apply Hl. rewrite <- (firstn_skipn 4 l).
    apply in_or_app. by right. }
  rewrite lastAssemble_local by exact Hl'.
  destruct (lastAssemble (skipn 4 l)) as [n |] eqn:Hlast; [| reflexivity].
  apply lastAssemble_bound in Hlast.
  by rewrite take_app_le by lia.
Qed.

Lemma match_here_assemble_bound (b : bool) (s : text) (n : nat)
    (cs : Regexp.caps) :
  Regexp.match_here assembleTree b s = Some (n, cs) -> n <= List.length s.
Proof.
  rewrite match_here_assemble.
  destruct (Strings.HasPrefix s (T "RUN ")) eqn:Hp; [| discriminate].
  destruct (lastAssemble (skipn 4 s)) as [m |] eqn:Hlast; [| discriminate].
  intros [= <- _].
  apply lastAssemble_bound in Hlast. rewrite length_skipn in Hlast.
  apply HasPrefix_length in Hp. change (List.length (T "RUN ")) with 4 in Hp.
  lia.
Qed.

Lemma match_here_assemble_bot (b b' : bool) (s : text) :
  Regexp.match_here assembleTree b s = Regexp.match_here assembleTree b' s.
Proof. by rewrite !match_here_assemble. Qed.

Lemma MustCompile_assemble :
  Regexp.MustCompile assembleRegExp = assembleTree.
Proof. unfold Regexp.MustCompile. by rewrite assembleRegExp_compiles. Qed.

(** The template is copied up to its first [$]. *)
Lemma expand_plain (pre t whole : text) (cs : Regexp.caps) :
  ~ In "$"%char pre ->
  Regexp.expand (pre ++ t) 0 whole cs = pre ++ Regexp.expand t 0 whole cs.
Proof.
  induction pre as [| c pre IH]; intros Hpre; [reflexivity |].
  cbn [app Regexp.expand].
  destruct (Ascii.eqb_spec c "$"%char) as [-> | _].
  - exfalso. apply Hpre. by left.
  - rewrite IH; [reflexivity |]. intros ?. apply Hpre. by right.
Qed.

Lemma cacheMountId_plain (root : string) :
  ~ In "$"%char (cacheMountId root).
Proof.
  intros Hin.
  assert (H : Forall (fun c => In c Hex.hextable) (cacheMountId root)).
  { unfold cacheMountId. apply EncodeToString_digits.
    apply Forall_take, Sum_range. }
  rewrite Forall_forall in H. apply list_elem_of_In, H in Hin.
  vm_compute in Hin.
  repeat (destruct Hin as [Hin | Hin]; [discriminate |]). exact Hin.
Qed.

Lemma follow_file (hops : nat) (fs : FS) (name : string) (data : text)
    (perm : Z) :
  fs !! name = Some (File data perm) -> Os.follow hops fs name = Some name.
Proof. intros H. destruct hops; simpl; by rewrite H. Qed.

Lemma patchText_eq (root : string) (data : text) :
  patchText root data
  = Regexp.replaceAll assembleTree (replacement root) true data 0 false.
Proof. unfold patchText. by rewrite MustCompile_assemble. Qed.

Lemma literal_plain (s : string) :
  forallb (fun c => negb (Ascii.eqb c "$"%char)) (T s) = true ->
  ~ In "$"%char (T s).
Proof.
  intros H Hin. rewrite forallb_forall in H. apply H in Hin.
  by rewrite Ascii.eqb_refl in Hin.
Qed.

(** C8.  The patcher works line by line: the patched file is the patched
    lines put together again.  The line "RUN /usr/libexec/s2i/assemble"
    becomes the instruction that starts with the cache-mount directive
    (target /tmp/artifacts/, uid 1001, the identifier of the source root),
    continues after a backslash on the next line, and ends with the assemble
    invocation as it was; a line on which the pattern finds no assemble
    invocation stays as it is.  [patchDockerfile] writes the patched text
    back to the file it read. *)
Theorem assemble_line_gets_cache_mount
    (root : string) (ls : list text)
    (Hlines : Forall (fun l => ~ In nl l) ls) :
  patchText root (join_lines ls) = join_lines (map (patchText root) ls)
  /\ patchText root (T "RUN /usr/libexec/s2i/assemble")
     = T "RUN --mount=type=cache,target=/tmp/artifacts/,uid=1001,id="
         ++ cacheMountId root ++ [" "%char; "092"%char; nl]
         ++ T "    /usr/libexec/s2i/assemble"
  /\ (forall l,
        Regexp.search (Regexp.MustCompile assembleRegExp) true l = false ->
        patchText root l = l)
  /\ (forall path f data perm fs,
        Fn.Root f = root ->
        fs !! path = Some (File data perm) ->
        patchDockerfile path f fs
        = Ok (<[path := File (patchText root data) perm]> fs)).
Proof.
  split; [| split; [| split]].
  - destruct ls as [| l ls]; [by rewrite patchText_eq |].
    rewrite patchText_eq.
    rewrite (replaceAll_lines assembleTree (replacement root)
               match_here_assemble_bot match_here_assemble_local
               match_here_assemble_bound)
      by exact Hlines.
    reflexivity.
  - rewrite patchText_eq.
    rewrite (replaceAll_whole_match assembleTree (replacement root)
               match_here_assemble_bound _ true false
               [(1, T "/usr/libexec/s2i/assemble")]);
      [| done | by vm_compute].
    unfold replacement, mountCmd.
    replace (T "RUN "
               ++ (T "--mount=type=cache,target=/tmp/artifacts/,uid=1001,id="
                     ++ cacheMountId root)
               ++ [" "%char; "092"%char; nl] ++ T "    $1")
      with ((T "RUN --mount=type=cache,target=/tmp/artifacts/,uid=1001,id="
               ++ cacheMountId root ++ T " " ++ ["092"%char; nl]
               ++ T "    ") ++ T "$1")
      by (rewrite <- !app_assoc; reflexivity).
    rewrite expand_plain.
    + rewrite <- !app_assoc. reflexivity.
    + rewrite !in_app_iff. intros [H | [H | [H | [H | H]]]].
      * by apply literal_plain in H.
      * by apply cacheMountId_plain in H.
      * by apply literal_plain in H.
      * vm_compute in H. destruct H as [H | [H | []]]; discriminate.
      * by apply literal_plain in H.
  - intros l Hl. rewrite MustCompile_assemble in Hl.
    rewrite patchText_eq. by apply replaceAll_no_match.
  - intros path f data perm fs Hroot Hfile.
    unfold patchDockerfile, Os.ReadFile, Os.WriteFile, Os.Stat.
    rewrite (follow_file 40 fs path data perm Hfile), Hfile, Hroot.
    reflexivity.
Qed.

Lemma assemble_line_gets_cache_mount_witness :
  patchText "/home/dev/hello" Sample.dockerfile
  = join_lines
      (map (patchText "/home/dev/hello")
         [ T "FROM registry.access.redhat.com/ubi8/python-39";
           T "RUN /usr/libexec/s2i/assemble";
           T "CMD /usr/libexec/s2i/run" ]).
Proof.
  apply (proj1 (assemble_line_gets_cache_mount "/home/dev/hello"
                  [ T "FROM registry.access.redhat.com/ubi8/python-39";
                    T "RUN /usr/libexec/s2i/assemble";
                    T "CMD /usr/libexec/s2i/run" ]
                  ltac:(repeat constructor; vm_compute;
                        intros H;
                        repeat (destruct H as [H | H]; [discriminate |]);
                        exact H))).
Defined.

(** ** The assembled configuration *)

Lemma s2iScriptURL_result (h : Host) (cli : Docker.Client) (image : string)
    (st st0 : State) :
  result_of (s2iScriptURL h cli image) st
  = result_of (s2iScriptURL h cli image) st0.
Proof.
  unfold s2iScriptURL.
  destruct (Docker.ImageInspectWithRaw cli image) as [img | e];
    [| destruct (IsErrNotFound e);
       [destruct (ParseReference h image) as [ref | e1];
        [destruct (remote_Image h ref) as [rimg | e2];
         [destruct (Docker.ConfigFile rimg) as [cfg | e3];
          [destruct (label cfg) |] |];
         destruct ref; try destruct (isDefaultBuilderImage image) |] |]].
  all: run_step; try reflexivity.
  all: destruct (Docker.Config img ≫= label);
    [| destruct (Docker.ContainerConfig_ img ≫= label)]; reflexivity.
Qed.

Lemma s2iScriptURL_returns (h : Host) (cli : Docker.Client) (image : string)
    (st : State) :
  exists r, result_of (s2iScriptURL h cli image) st = Val r.
Proof.
  unfold s2iScriptURL.
  destruct (Docker.ImageInspectWithRaw cli image) as [img | e];
    [| destruct (IsErrNotFound e);
       [destruct (ParseReference h image) as [ref | e1];
        [destruct (remote_Image h ref) as [rimg | e2];
         [destruct (Docker.ConfigFile rimg) as [cfg | e3];
          [destruct (label cfg) |] |];
         destruct ref; try destruct (isDefaultBuilderImage image) |] |]].
  all: run_step; try (eexists; reflexivity).
  all: destruct (Docker.Config img ≫= label);
    [| destruct (Docker.ContainerConfig_ img ≫= label)];
    eexists; reflexivity.
Qed.

(** What [scaffold] does to the configuration: nothing, or the two copy
    flags. *)
Lemma scaffold_config (h : Host) (cfg cfg' : Api.Config) (f : Fn.Function)
    (st : State) :
  result_of (scaffold h cfg f) st = Val (Ok cfg') ->
  cfg' = cfg \/ cfg' = Api.set_copy_flags cfg true true.
Proof.
  unfold scaffold, result_of.
  destruct (negb (Fn.Runtime f =? "go")%string);
    [simpl; intros [= <-]; by left |].
  unfold bind, call, ret, fs_op. simpl.
  destruct (NewRepository h); simpl; [discriminate |].
  destruct (scaffolding_Write h _ _ _ _ _) as [fs' [e |]]; simpl;
    [discriminate |].
  destruct (assembler h f) as [assemble | e]; simpl; [| discriminate].
  destruct (negb (assemble =? "")%string); simpl.
  - destruct (Os.MkdirAll _ _); simpl; [| discriminate].
    destruct (Os.WriteFile _ _ _ _); simpl; [| discriminate].
    intros [= <-]. by right.
  - intros [= <-]. by right.
Qed.

(** Inversion of a run that ends with a value. *)
Lemma bind_Val {A B} (m : M A) (k : A -> M B) (st st' : State) (x : B) :
  bind m k st = (Val x, st') ->
  exists a st1, m st = (Val a, st1) /\ k a st1 = (Val x, st').
Proof.
  unfold bind. destruct (m st) as [[a | e |] st1]; try discriminate.
  intros H. by exists a, st1.
Qed.

Lemma try_Val {A} (r : Result A) (wrap : error -> error) (st st1 : State)
    (a : A) :
  try_ r wrap st = (Val a, st1) -> r = Ok a /\ st1 = st.
Proof. destruct r; simpl; [by intros [= -> ->] | discriminate]. Qed.

Lemma call_Val (c : Call) (st st1 : State) (u : unit) :
  call c st = (Val u, st1) -> calls st1 = calls st ++ [c].
Proof. by intros [= _ <-]. Qed.

(** C5.  In the configuration that the assembly hands on, the script
    location is the URL found on the builder image when that URL is neither
    empty nor the engine's own default "image:///usr/libexec/s2i"; when the
    URL is empty or is that default, the field has its initial, empty
    value.  The configuration handed on is the one that was validated. *)
Theorem scripts_url_set_only_when_custom
    (h : Host) (b : Builder) (f : Fn.Function) (builderImage tmp : string)
    (client : Docker.Client) (st st' : State) (cfg : Api.Config)
    (Hrun : buildConfig h b f builderImage tmp client st = (Val cfg, st')) :
  exists scriptURL,
    (forall st0,
       result_of (s2iScriptURL h client builderImage) st0
       = Val (Ok scriptURL))
    /\ (scriptURL <> "" -> scriptURL <> "image:///usr/libexec/s2i" ->
        Api.ScriptsURL cfg = scriptURL)
    /\ (scriptURL = "" \/ scriptURL = "image:///usr/libexec/s2i" ->
        Api.ScriptsURL cfg = "")
    /\ Api.BuilderImage cfg = builderImage
    /\ In (Call_ValidateConfig cfg) (calls st').
Proof.
  unfold buildConfig in Hrun.
  apply bind_Val in Hrun as (r & st1 & Hscaffold & Hrun).
  apply bind_Val in Hrun as (cfg1 & ? & [-> ->]%try_Val & Hrun).
  apply bind_Val in Hrun as (r2 & st2 & Hurl & Hrun).
  apply bind_Val in Hrun as (scriptURL & ? & [-> ->]%try_Val & Hrun).
  apply bind_Val in Hrun as (envs & ? & [Henvs ->]%try_Val & Hrun).
  apply bind_Val in Hrun as ([] & st3 & Hcall%call_Val & Hrun).
  destruct (ValidateConfig h _) eqn:Hvalid.
  2: { apply bind_Val in Hrun as (? & ? & _ & Hrun). discriminate. }
  injection Hrun as <- <-.
  apply (f_equal fst) in Hscaffold. apply scaffold_config in Hscaffold.
  assert (Hcfg1 : Api.ScriptsURL cfg1 = ""
                  /\ Api.BuilderImage cfg1 = builderImage)
    by (destruct Hscaffold as [-> | ->]; split; reflexivity).
  destruct Hcfg1 as [Hempty Himg].
  exists scriptURL.
  split; [| split; [| split; [| split]]].
  - intros st0. rewrite (s2iScriptURL_result _ _ _ st0 st1).
    unfold result_of. by rewrite <- Himg, Hurl.
  - intros Hne Hnd. simpl.
    destruct (String.eqb_spec scriptURL scriptsURLDefault) as [Heq |];
      [by destruct Hnd |]. reflexivity.
  - intros [-> | ->]; simpl; [reflexivity | exact Hempty].
  - simpl. destruct (negb (scriptURL =? scriptsURLDefault)%string);
      exact Himg.
  - rewrite Hcall. apply in_or_app. right. by left.
Qed.

(** The pattern of the configuration handed on is the one of the builder. *)
Lemma buildConfig_exclude
    (h : Host) (b : Builder) (f : Fn.Function) (builderImage tmp : string)
    (client : Docker.Client) (st st' : State) (cfg : Api.Config) :
  buildConfig h b f builderImage tmp client st = (Val cfg, st') ->
  Api.ExcludeRegExp cfg = excludeRegExp.
Proof.
  unfold buildConfig. intros Hrun.
  apply bind_Val in Hrun as (r & st1 & _ & Hrun).
  apply bind_Val in Hrun as (cfg1 & ? & _ & Hrun).
  apply bind_Val in Hrun as (r2 & st2 & _ & Hrun).
  apply bind_Val in Hrun as (scriptURL & ? & _ & Hrun).
  apply bind_Val in Hrun as (envs & ? & _ & Hrun).
  apply bind_Val in Hrun as ([] & st3 & _ & Hrun).
  destruct (ValidateConfig h _).
  2: { apply bind_Val in Hrun as (? & ? & _ & Hrun). discriminate. }
  by injection Hrun as <- _.
Qed.

(** C3.  The archive is made with the exclusion pattern of the assembled
    configuration.  In it no header is for the root of the walk (the name of
    a header is the path of a visited file relative to the build directory,
    and that path is not "."), and no header has a name that the pattern
    matches; ".git/config" and "node_modules/x.js", alone or below a
    directory, are such names. *)
Theorem archive_headers_filtered
    (h : Host) (b : Builder) (f : Fn.Function) (builderImage tmp : string)
    (client : Docker.Client) (st st' : State) (cfg : Api.Config)
    (fs : FS) (hdr : Tar.Header)
    (Hcfg : buildConfig h b f builderImage tmp client st = (Val cfg, st'))
    (Hin : In hdr (headers (items
              (archive h (Regexp.MustCompile (Api.ExcludeRegExp cfg)) tmp
                 fs)))) :
  Tar.Name hdr <> "."
  /\ Regexp.MatchString (Regexp.MustCompile (Api.ExcludeRegExp cfg))
       (Tar.Name hdr) = false
  /\ (exists v,
        In v (Walk_visits h fs tmp)
        /\ v_path v <> tmp
        /\ Filepath.Rel (T tmp) (T (v_path v)) = Some (T (Tar.Name hdr)))
  /\ Regexp.MatchString (Regexp.MustCompile (Api.ExcludeRegExp cfg))
       ".git/config" = true
  /\ Regexp.MatchString (Regexp.MustCompile (Api.ExcludeRegExp cfg))
       "src/.git/config" = true
  /\ Regexp.MatchString (Regexp.MustCompile (Api.ExcludeRegExp cfg))
       "node_modules/x.js" = true
  /\ Regexp.MatchString (Regexp.MustCompile (Api.ExcludeRegExp cfg))
       "web/node_modules/x.js" = true.
Proof.
  rewrite (buildConfig_exclude _ _ _ _ _ _ _ _ _ Hcfg) in *.
  destruct (archive_headers h tmp fs hdr Hin) as (H1 & H2 & H3).
  repeat split; try assumption; by vm_compute.
Qed.

Lemma archive_headers_filtered_witness :
  Tar.Name Sample.dockerfileHeader <> "."
  /\ excluded (Tar.Name Sample.dockerfileHeader) = false.
Proof.
  destruct Sample.assembled as [[cfg | e |] st'] eqn:Hrun;
    [| vm_compute in Hrun; discriminate ..].
  unfold Sample.assembled in Hrun.
  assert (Hin : In Sample.dockerfileHeader
                  (headers (items
                     (archive Sample.host
                        (Regexp.MustCompile (Api.ExcludeRegExp cfg))
                        Sample.tmpdir ∅)))).
  { rewrite (buildConfig_exclude _ _ _ _ _ _ _ _ _ Hrun).
    vm_compute. left. reflexivity. }
  destruct (archive_headers_filtered _ _ _ _ _ _ _ _ _ _ _ Hrun Hin)
    as (H1 & H2 & _).
  rewrite (buildConfig_exclude _ _ _ _ _ _ _ _ _ Hrun) in H2.
  exact (conj H1 H2).
Defined.

Lemma scripts_url_set_only_when_custom_witness :
  match Sample.assembled with
  | (Val cfg, _) => Api.ScriptsURL cfg = ""
  | _ => False
  end.
Proof.
  destruct Sample.assembled as [[cfg | e |] st'] eqn:Hrun;
    [| vm_compute in Hrun; discriminate ..].
  unfold Sample.assembled in Hrun.
  destruct (scripts_url_set_only_when_custom _ _ _ _ _ _ _ _ _ Hrun)
    as (u & Hu & _ & Hempty & _).
  apply Hempty. right.
  specialize (Hu Sample.state). vm_compute in Hu.
  by injection Hu as <-.
Defined.

(** ** Paths below the source root *)

Lemma split_nonempty (s : text) : Filepath.split s <> [].
Proof.
  destruct s as [| c s]; simpl; [done |].
  destruct (Ascii.eqb c Filepath.Separator); [done |].
  by destruct (Filepath.split s).
Qed.

Lemma split_plain (e : text) :
  ~ In Filepath.Separator e -> Filepath.split e = [e].
Proof.
  induction e as [| c e IH]; intros He; [reflexivity |].
  cbn [Filepath.split].
  destruct (Ascii.eqb_spec c Filepath.Separator) as [-> | _].
  - exfalso. apply He. by left.
  - rewrite IH; [reflexivity |]. intros ?. apply He. by right.
Qed.

Lemma split_app_sep (a b : text) :
  Filepath.split (a ++ Filepath.Separator :: b)
  = Filepath.split a ++ Filepath.split b.
Proof.
  induction a as [| c a IH]; [reflexivity |].
  cbn [app Filepath.split].
  destruct (Ascii.eqb c Filepath.Separator).
  - by rewrite IH.
  - rewrite IH. pose proof (split_nonempty a) as Hne.
    by destruct (Filepath.split a).
Qed.

Lemma join_nonempty (X : list text) :
  Forall plain X -> X <> [] -> Filepath.join X <> [].
Proof.
  intros HX Hne. destruct X as [| e X]; [done |].
  apply Forall_cons in HX as [(He & _) _].
  destruct e as [| c e]; [done |].
  destruct X; simpl; done.
Qed.

Lemma split_join_plain (X : list text) :
  Forall plain X -> X <> [] -> Filepath.split (Filepath.join X) = X.
Proof.
  induction 1 as [| e X He HX IH]; intros Hne; [done |].
  destruct X as [| e' X'].
  - simpl. apply split_plain. apply He.
  - change (Filepath.join (e :: e' :: X'))
      with (e ++ Filepath.Separator :: Filepath.join (e' :: X')).
    rewrite split_app_sep, IH by done.
    rewrite split_plain by apply He. reflexivity.
Qed.

Lemma clean_elems_plain (rooted : bool) (X : list text) :
  Forall plain X ->
  forall ups stack,
    Filepath.clean_elems rooted X ups stack = (ups, rev stack ++ X).
Proof.
  induction 1 as [| e X (He1 & He2 & He3 & _) _ IH]; intros ups stack.
  - simpl. by rewrite app_nil_r.
  - cbn [Filepath.clean_elems].
    rewrite (proj2 (text_eqb_false _ _) He1),
      (proj2 (text_eqb_false _ _) He2), (proj2 (text_eqb_false _ _) He3).
    cbn [orb]. rewrite IH. cbn [rev]. by rewrite <- app_assoc.
Qed.

(** The elements read so far decide a state from which the rest goes on. *)
Lemma clean_elems_app (rooted : bool) (A : list text) :
  forall ups stack,
    exists ups' stack',
    forall B,
      Filepath.clean_elems rooted (A ++ B) ups stack
      = Filepath.clean_elems rooted B ups' stack'.
Proof.
  induction A as [| e A IH]; intros ups stack.
  - by exists ups, stack.
  - cbn [app Filepath.clean_elems].
    destruct (_ || _); [apply IH |].
    destruct (Filepath.text_eqb e Filepath.dotdot); [| apply IH].
    destruct stack; [| apply IH].
    destruct rooted; apply IH.
Qed.

Lemma join_app_plain (A X : list text) :
  X <> [] ->
  Filepath.join (A ++ X)
  = match A with
    | [] => []
    | _ => Filepath.join A ++ [Filepath.Separator]
    end ++ Filepath.join X.
Proof.
  intros HX. induction A as [| e A IH]; [reflexivity |].
  destruct A as [| e' A'].
  - destruct X as [| x X]; [done |]. simpl. by rewrite <- app_assoc.
  - change (Filepath.join ((e :: e' :: A') ++ X))
      with (e ++ Filepath.Separator :: Filepath.join ((e' :: A') ++ X)).
    rewrite IH.
    change (Filepath.join (e :: e' :: A'))
      with (e ++ Filepath.Separator :: Filepath.join (e' :: A')).
    by rewrite <- !app_assoc.
Qed.

(** Joining plain elements to a root puts them, unchanged, behind a prefix
    that the root alone decides. *)
Lemma Join_below_root (R : text) :
  exists P,
  forall X,
    Forall plain X -> X <> [] ->
    Filepath.Join [R; Filepath.join X] = P ++ Filepath.join X.
Proof.
  destruct R as [| c R].
  - exists []. intros X HX Hne.
    pose proof (join_nonempty X HX Hne) as Hj.
    unfold Filepath.Join. cbn [List.filter].
    rewrite (proj2 (text_eqb_true [] []) eq_refl). cbn [negb].
    rewrite (proj2 (text_eqb_false _ _) Hj). cbn [negb Filepath.join].
    unfold Filepath.Clean.
    destruct (Filepath.join X) as [| x jx] eqn:Hjx; [done |].
    assert (Hx : Ascii.eqb x Filepath.Separator = false).
    { destruct X as [| e X]; [done |].
      pose proof HX as HX'. apply Forall_cons in HX' as [(He & _ & _ & Hs) _].
      destruct e as [| y e]; [done |].
      assert (x = y) as ->.
      { destruct X; simpl in Hjx; by injection Hjx. }
      apply Ascii.eqb_neq. intros ->. apply Hs. by left. }
    rewrite Hx, <- Hjx, split_join_plain by done.
    rewrite clean_elems_plain by done.
    cbn [repeat rev app]. rewrite Hjx. reflexivity.
  - destruct (clean_elems_app (Ascii.eqb c Filepath.Separator)
                (Filepath.split (c :: R)) 0 [])
      as (ups & stack & Hstate).
    exists ((if Ascii.eqb c Filepath.Separator then [Filepath.Separator]
             else [])
            ++ match repeat Filepath.dotdot ups ++ rev stack with
               | [] => []
               | A => Filepath.join A ++ [Filepath.Separator]
               end).
    intros X HX Hne.
    pose proof (join_nonempty X HX Hne) as Hj.
    unfold Filepath.Join. cbn [List.filter].
    rewrite (proj2 (text_eqb_false (c :: R) []) ltac:(done)). cbn [negb].
    rewrite (proj2 (text_eqb_false _ _) Hj). cbn [negb].
    change (Filepath.join [c :: R; Filepath.join X])
      with ((c :: R) ++ Filepath.Separator :: Filepath.join X).
    unfold Filepath.Clean. cbn [app].
    change (c :: R ++ Filepath.Separator :: Filepath.join X)
      with ((c :: R) ++ Filepath.Separator :: Filepath.join X).
    rewrite split_app_sep, split_join_plain by done.
    rewrite Hstate, clean_elems_plain by done.
    rewrite app_assoc, join_app_plain by done.
    destruct (Ascii.eqb c Filepath.Separator).
    + by destruct (repeat Filepath.dotdot ups ++ rev stack).
    + cbn [app].
      destruct (_ ++ Filepath.join X) eqn:Hout;
        [| destruct (repeat Filepath.dotdot ups ++ rev stack);
           by rewrite <- Hout].
      apply app_eq_nil in Hout as [_ Hout]. done.
Qed.

Lemma HasPrefix_app_same (P x z : text) :
  Strings.HasPrefix (P ++ x) (P ++ z) = Strings.HasPrefix x z.
Proof.
  induction P as [| c P IH]; [reflexivity |].
  change (Strings.HasPrefix ((c :: P) ++ x) ((c :: P) ++ z))
    with (Ascii.eqb c c && Strings.HasPrefix (P ++ x) (P ++ z)).
  by rewrite Ascii.eqb_refl, IH.
Qed.

Lemma plain_literal (e : text) :
  negb (Filepath.text_eqb e []) && negb (Filepath.text_eqb e Filepath.dot)
  && negb (Filepath.text_eqb e Filepath.dotdot)
  && forallb (fun c => negb (Ascii.eqb c Filepath.Separator)) e = true ->
  plain e.
Proof.
  intros (((H1 & H2)%andb_prop & H3)%andb_prop & H4)%andb_prop.
  apply negb_true_iff, text_eqb_false in H1, H2, H3.
  repeat split; try done.
  intros Hin. rewrite forallb_forall in H4. apply H4 in Hin.
  by rewrite Ascii.eqb_refl in Hin.
Qed.

Lemma S_inj (a b : text) : S_ a = S_ b -> a = b.
Proof. intros H. by rewrite <- (T_S a), <- (T_S b), H. Qed.

(** The legacy ignore file is not inside the directory that [scaffold]
    clears. *)
Lemma s2iignore_outside_appRoot (root : string) :
  let p := path_join [root; ".s2iignore"] in
  let appRoot := path_join [root; path_join [".s2i"; "builds"; "last"]] in
  p <> appRoot /\ Os.under appRoot p = false.
Proof.
  destruct (Join_below_root (T root)) as [P HP].
  assert (Hp : path_join [root; ".s2iignore"] = S_ (P ++ T ".s2iignore")).
  { unfold path_join. cbn [map]. f_equal.
    apply (HP [T ".s2iignore"]); [| done].
    repeat constructor; by apply plain_literal. }
  assert (Ha : path_join [root; path_join [".s2i"; "builds"; "last"]]
               = S_ (P ++ T ".s2i/builds/last")).
  { unfold path_join at 1. cbn [map]. f_equal.
    apply (HP [T ".s2i"; T "builds"; T "last"]); [| done].
    repeat constructor; by apply plain_literal. }
  cbv zeta. rewrite Hp, Ha. split.
  - intros Heq%S_inj%app_inv_head. discriminate.
  - unfold Os.under. rewrite !T_S, <- app_assoc, HasPrefix_app_same.
    reflexivity.
Qed.

(** *** What the file-system calls do to a name that is taken *)

Section Taken.
Variable p : string.

Lemma Mkdir_linkish (name : string) (fs fs' : FS) :
  Os.Mkdir name fs = Ok fs' -> linkish p fs -> linkish p fs'.
Proof.
  unfold Os.Mkdir. destruct (fs !! name) eqn:Hname; [discriminate |].
  intros [= <-] (n & Hp & Hn). exists n. split; [| exact Hn].
  rewrite lookup_insert_ne; [exact Hp | congruence].
Qed.

Lemma mkdirs_linkish (names : list string) :
  forall fs fs',
    Os.mkdirs names fs = Ok fs' -> linkish p fs -> linkish p fs'.
Proof.
  induction names as [| name names IH]; intros fs fs'; simpl.
  - by intros [= <-].
  - destruct (Os.Stat fs name) as [[] |]; try discriminate.
    + apply IH.
    + destruct (Os.Mkdir name fs) as [fs1 |] eqn:Hmk; [| discriminate].
      intros H Hl. eapply IH; [exact H |]. by eapply Mkdir_linkish.
Qed.

Lemma WriteFile_linkish (name : string) (data : text) (perm : Z)
    (fs fs' : FS) :
  Os.WriteFile name data perm fs = Ok fs' -> linkish p fs -> linkish p fs'.
Proof.
  unfold Os.WriteFile. destruct (Os.follow 40 fs name) as [final |];
    [| discriminate].
  intros H (n & Hp & Hn).
  destruct (decide (final = p)) as [-> | Hne].
  - rewrite Hp in H. destruct n; try discriminate.
    injection H as <-. eexists. by rewrite lookup_insert_eq.
  - exists n. split; [| exact Hn].
    destruct (fs !! final) as [[] |]; try discriminate;
      injection H as <-; by rewrite lookup_insert_ne.
Qed.

Lemma patchDockerfile_linkish (path : string) (f : Fn.Function)
    (fs fs' : FS) :
  patchDockerfile path f fs = Ok fs' -> linkish p fs -> linkish p fs'.
Proof.
  unfold patchDockerfile. destruct (Os.ReadFile path fs); [| discriminate].
  apply WriteFile_linkish.
Qed.

Lemma RemoveAll_linkish (dir : string) (fs : FS) :
  p <> dir -> Os.under dir p = false ->
  linkish p fs -> linkish p (Os.RemoveAll dir fs).
Proof.
  intros Hne Hunder (n & Hp & Hn). exists n. split; [| exact Hn].
  unfold Os.RemoveAll. by apply map_lookup_filter_Some.
Qed.

Lemma RemoveAll_absent (dir : string) (fs : FS) :
  fs !! p = None -> Os.RemoveAll dir fs !! p = None.
Proof.
  intros Hp. unfold Os.RemoveAll. apply map_lookup_filter_None. by left.
Qed.

Lemma RemoveAll_weakens (dir : string) (fs : FS) :
  linkish p fs ->
  Os.RemoveAll dir fs !! p = None \/ linkish p (Os.RemoveAll dir fs).
Proof.
  intros (n & Hp & Hn). unfold Os.RemoveAll, linkish.
  destruct (filter _ fs !! p) as [n' |] eqn:Hf; [right | by left].
  apply map_lookup_filter_Some in Hf as [Hf _].
  exists n'. split; [reflexivity | congruence].
Qed.

Lemma Remove_linkish (fs : FS) :
  linkish p fs -> exists fs', Os.Remove p fs = Ok fs' /\ fs' !! p = None.
Proof.
  intros (n & Hp & Hn). unfold Os.Remove. rewrite Hp.
  destruct n; try done; eexists; (split; [reflexivity |]);
    apply lookup_delete_eq.
Qed.

Lemma Remove_other (name : string) (fs fs' : FS) :
  Os.Remove name fs = Ok fs' -> name <> p -> fs' !! p = fs !! p.
Proof.
  unfold Os.Remove. intros H Hne.
  destruct (fs !! name) as [[] |]; try discriminate.
  2: destruct (Os.has_children name fs); try discriminate.
  all: injection H as <-; by apply lookup_delete_ne.
Qed.

Lemma Remove_absent (name : string) (fs fs' : FS) :
  Os.Remove name fs = Ok fs' -> fs !! p = None -> fs' !! p = None.
Proof.
  unfold Os.Remove. intros H Hp.
  destruct (fs !! name) as [[] |]; try discriminate.
  2: destruct (Os.has_children name fs); try discriminate.
  all: injection H as <-; rewrite lookup_delete; by case_decide.
Qed.

End Taken.

(** *** Steps that keep a property of the state *)

Section Keeps.
Context (I : State -> Prop).

Lemma keeps_bind {A B} (m : M A) (k : A -> M B) :
  keeps I m -> (forall a, keeps I (k a)) -> keeps I (bind m k).
Proof.
  intros Hm Hk st HI. unfold bind. specialize (Hm st HI).
  destruct (m st) as [[a | e |] st1]; simpl in *; [by apply Hk | done ..].
Qed.

Lemma keeps_ret {A} (a : A) : keeps I (ret a).
Proof. by intros st HI. Qed.

Lemma keeps_returns {A} (e : option error) : keeps I (@returns A e).
Proof. by intros st HI. Qed.

Lemma keeps_get_fs : keeps I get_fs.
Proof. by intros st HI. Qed.

Lemma keeps_try {A} (r : Result A) (wrap : error -> error) :
  keeps I (try_ r wrap).
Proof. destruct r; [apply keeps_ret | apply keeps_returns]. Qed.

Lemma keeps_check (err : option error) (wrap : error -> error) :
  keeps I (check err wrap).
Proof. destruct err; [apply keeps_returns | apply keeps_ret]. Qed.

Lemma keeps_for_each {A} (l : list A) (body : A -> M unit) :
  (forall x, keeps I (body x)) -> keeps I (for_each l body).
Proof.
  intros Hbody. induction l as [| x l IH]; simpl.
  - apply keeps_ret.
  - apply keeps_bind; [apply Hbody | intros _; exact IH].
Qed.

End Keeps.

Section Scope.
Variables (h : Host) (b : Builder) (f : Fn.Function).
Let p := s2iignorePath f.
Hypothesis Hframe : leaves_alone h b p.

Lemma keeps_call (c : Call) : keeps (scoped p) (call c).
Proof. by intros st HI. Qed.

Lemma keeps_Fprintln (line : string) : keeps (scoped p) (Fprintln line).
Proof. by intros st HI. Qed.

Lemma keeps_defer (d : Deferred) : keeps (scoped p) (defer d).
Proof. intros st [Hl Hd]. split; [exact Hl | by right]. Qed.

Lemma keeps_fs_op (op : FS -> Result FS) :
  (forall fs fs', op fs = Ok fs' -> linkish p fs -> linkish p fs') ->
  keeps (scoped p) (fs_op op).
Proof.
  intros Hop st [Hl Hd]. unfold fs_op.
  destruct (op (fs st)) as [fs' |] eqn:Hfs; simpl; [| done].
  split; [by eapply Hop | exact Hd].
Qed.

Ltac keeps_step :=
  first
    [ apply keeps_ret | apply keeps_returns | apply keeps_get_fs
    | apply keeps_try | apply keeps_check | apply keeps_call
    | apply keeps_Fprintln | apply keeps_defer
    | apply keeps_for_each; intros ?
    | apply keeps_bind; [| intros ?] ].

Lemma keeps_os_MkdirTemp : keeps (scoped p) (os_MkdirTemp h).
Proof.
  unfold os_MkdirTemp. apply keeps_bind; [apply keeps_call | intros _].
  intros st [Hl Hd].
  destruct (MkdirTemp_name h (fs st)) as [tmp |]; simpl; [| done].
  destruct (Os.Mkdir tmp (fs st)) as [fs' |] eqn:Hmk; simpl; [| done].
  split; [by eapply Mkdir_linkish | exact Hd].
Qed.

Lemma keeps_buildDirectory : keeps (scoped p) (buildDirectory h).
Proof.
  unfold buildDirectory.
  apply keeps_bind; [apply keeps_os_MkdirTemp | intros r].
  repeat keeps_step.
Qed.

Lemma keeps_scaffold (cfg : Api.Config) : keeps (scoped p) (scaffold h cfg f).
Proof.
  unfold scaffold.
  destruct (negb (Fn.Runtime f =? "go")%string); [apply keeps_ret |].
  apply keeps_bind; [apply keeps_call | intros _].
  apply keeps_bind.
  { apply keeps_fs_op. intros fs fs' [= <-].
    destruct (s2iignore_outside_appRoot (Fn.Root f)) as [Hne Hunder].
    by apply RemoveAll_linkish. }
  intros _. destruct (NewRepository h); [apply keeps_ret |].
  apply keeps_bind; [apply keeps_call | intros _].
  apply keeps_bind.
  { intros st [(n & Hp & Hn) Hd].
    destruct (scaffolding_Write h _ _ _ _ (fs st)) as [fs' err] eqn:Hw.
    simpl. split; [| exact Hd]. exists n. split; [| exact Hn].
    pose proof (proj1 Hframe
                  (path_join [Fn.Root f;
                              path_join [".s2i"; "builds"; "last"]])
                  (Fn.Root f) (Fn.Runtime f) (Fn.Invoke f) (fs st))
      as Hsame.
    rewrite Hw in Hsame. simpl in Hsame.
    change (fs' !! p = Some n). by rewrite Hsame. }
  intros [err |]; [apply keeps_ret |].
  destruct (assembler h f) as [assemble |]; [| apply keeps_ret].
  apply keeps_bind.
  - destruct (negb (assemble =? "")%string); [| apply keeps_ret].
    apply keeps_bind.
    { apply keeps_fs_op. unfold Os.MkdirAll. apply mkdirs_linkish. }
    intros [err |]; [apply keeps_ret |].
    apply keeps_bind.
    { apply keeps_fs_op. apply WriteFile_linkish. }
    intros [err |]; apply keeps_ret.
  - intros [err |]; apply keeps_ret.
Qed.

Lemma keeps_s2iScriptURL (cli : Docker.Client) (image : string) :
  keeps (scoped p) (s2iScriptURL h cli image).
Proof.
  unfold s2iScriptURL.
  apply keeps_bind; [apply keeps_call | intros _].
  repeat (first [keeps_step | case_match]).
Qed.

Lemma keeps_buildConfig (builderImage tmp : string)
    (client : Docker.Client) :
  keeps (scoped p) (buildConfig h b f builderImage tmp client).
Proof.
  unfold buildConfig.
  apply keeps_bind; [apply keeps_scaffold | intros r].
  apply keeps_bind; [apply keeps_try | intros cfg].
  apply keeps_bind; [apply keeps_s2iScriptURL | intros r2].
  repeat (first [keeps_step | case_match]).
Qed.

Lemma keeps_engine_run (e : Engine) (cfg : Api.Config) :
  impl b = Some e \/ (exists cfg', Strategy h cfg' = Ok e) ->
  keeps (scoped p) (engine_run e cfg).
Proof.
  intros He. unfold engine_run.
  apply keeps_bind; [apply keeps_call | intros _].
  intros st [(n & Hp & Hn) Hd].
  pose proof (proj2 Hframe e cfg (fs st) He) as Hsame.
  destruct (engine_Build e cfg (fs st)) as [fs' o]. simpl in Hsame.
  assert (Hs : scoped p (set_fs st fs')).
  { split; [| exact Hd]. exists n.
    change (fs' !! p = Some n /\ n <> Dir). by rewrite Hsame. }
  by destruct o.
Qed.

Lemma keeps_after_engine (e : Engine) (cfg : Api.Config) :
  impl b = Some e \/ (exists cfg', Strategy h cfg' = Ok e) ->
  keeps (scoped p)
    (let* result := engine_run e cfg in
     if verbose b then for_each (Api.Messages result) Fprintln else ret tt).
Proof.
  intros He.
  apply keeps_bind; [by apply keeps_engine_run | intros result].
  destruct (verbose b); repeat keeps_step.
Qed.

Lemma keeps_performBuild (cfg : Api.Config) :
  keeps (scoped p) (performBuild h b cfg).
Proof.
  unfold performBuild. destruct (impl b) as [e |] eqn:Himpl.
  - intros st HI. apply (keeps_after_engine e cfg); [by left | exact HI].
  - destruct (Strategy h cfg) as [e | err] eqn:Hstrategy.
    + intros st HI.
      apply (keeps_after_engine e cfg (or_intror (ex_intro _ cfg Hstrategy))
               {| fs := fs st; stderr := stderr st;
                  calls := calls st ++ [Call_Strategy cfg];
                  defers := defers st |}).
      exact HI.
    + by intros st HI.
Qed.

Lemma keeps_submitArchive (cfg : Api.Config) (tmp : string)
    (client : Docker.Client) :
  keeps (scoped p) (submitArchive h b f cfg tmp client).
Proof.
  unfold submitArchive.
  apply keeps_bind; [apply keeps_get_fs | intros fs1].
  apply keeps_bind.
  { destruct (Os.Stat fs1 (Api.AsDockerfile cfg)); [| apply keeps_ret].
    apply keeps_bind; [| intros err; apply keeps_check].
    apply keeps_fs_op. apply patchDockerfile_linkish. }
  intros _.
  apply keeps_bind; [apply keeps_get_fs | intros fs2].
  apply keeps_bind; [apply keeps_call | intros _].
  apply keeps_bind; [apply keeps_try | intros resp].
  apply keeps_bind; [apply keeps_defer | intros _].
  destruct (Docker.DisplayJSONMessagesStream resp) as [out err].
  destruct (verbose b); repeat keeps_step.
Qed.

(** From the build directory on, the link and its removal stay in place. *)
Lemma keeps_after_bridge (builderImage : string) (client : Docker.Client) :
  keeps (scoped p)
    (let* tmp := buildDirectory h in
     let* cfg := buildConfig h b f builderImage tmp client in
     performBuild h b cfg ;;
     submitArchive h b f cfg tmp client).
Proof.
  apply keeps_bind; [apply keeps_buildDirectory | intros tmp].
  apply keeps_bind; [apply keeps_buildConfig | intros cfg].
  apply keeps_bind; [apply keeps_performBuild | intros _].
  apply keeps_submitArchive.
Qed.

End Scope.

(** ** The bridge between the two ignore files *)

Lemma follow_absent (hops : nat) (fs : FS) (name : string) :
  fs !! name = None -> Os.follow hops fs name = Some name.
Proof. intros H. destruct hops; simpl; by rewrite H. Qed.

Lemma Stat_absent (fs : FS) (name : string) :
  fs !! name = None -> Os.Stat fs name = Err (PathError "stat" name).
Proof.
  intros H. unfold Os.Stat. by rewrite (follow_absent 40 fs name H), H.
Qed.

Lemma resolveBuilderImage_fs (h : Host) (b : Builder) (f : Fn.Function)
    (platforms : list Fn.Platform) (st : State) :
  fs (snd (resolveBuilderImage h b f platforms st)) = fs st.
Proof.
  unfold resolveBuilderImage, bind.
  destruct (BuilderImage f (name b)); simpl; [| reflexivity].
  destruct platforms as [| pf [| pf' ps]]; simpl; try reflexivity.
  by destruct (GetPlatformImage h _ _).
Qed.

Lemma dockerClient_fs (h : Host) (b : Builder) (st : State) :
  fs (snd (dockerClient h b st)) = fs st.
Proof.
  unfold dockerClient, bind. destruct (cli b); simpl; [reflexivity |].
  by destruct (NewClient h).
Qed.

(** The link is made when the primary file is there and the legacy name is
    free, and its removal is registered. *)
Lemma link_created (f : Fn.Function) (st : State) (n : node) :
  Os.Stat (fs st) (funcignorePath f) = Ok n ->
  fs st !! s2iignorePath f = None ->
  linkIgnoreFile f st
  = (Val tt,
     {| fs := <[s2iignorePath f := Symlink "./.funcignore"]> (fs st);
        stderr := stderr st;
        calls := calls st ++ [Call_Symlink "./.funcignore" (s2iignorePath f)];
        defers := Defer_Remove (s2iignorePath f) :: defers st |}).
Proof.
  intros Hq Hp. unfold linkIgnoreFile, bind, get_fs. simpl.
  rewrite Hq, (Stat_absent _ _ Hp). simpl.
  unfold fs_op, Os.Symlink_. simpl. by rewrite Hp.
Qed.

(** With both files there, the bridge only warns. *)
Lemma link_not_created (f : Fn.Function) (st : State) (n n' : node) :
  Os.Stat (fs st) (funcignorePath f) = Ok n ->
  Os.Stat (fs st) (s2iignorePath f) = Ok n' ->
  linkIgnoreFile f st
  = (Val tt,
     {| fs := fs st; stderr := stderr st ++ [ignoreWarning];
        calls := calls st; defers := defers st |}).
Proof.
  intros Hq Hp. unfold linkIgnoreFile, bind, get_fs. simpl.
  by rewrite Hq, Hp.
Qed.

Section Deferred.
Variable p : string.

Lemma run_deferred_absent (d : Deferred) (st : State) :
  fs st !! p = None -> fs (snd (run_deferred d st)) !! p = None.
Proof.
  intros Hp. destruct d; simpl; try exact Hp.
  - unfold bind, fs_op. simpl.
    destruct (Os.Remove path (fs st)) as [fs' |] eqn:Hrm; simpl;
      [| exact Hp].
    by eapply Remove_absent.
  - by apply RemoveAll_absent.
Qed.

Lemma run_deferred_linkish (d : Deferred) (st : State) :
  linkish p (fs st) ->
  fs (snd (run_deferred d st)) !! p = None
  \/ (d <> Defer_Remove p /\ linkish p (fs (snd (run_deferred d st)))).
Proof.
  intros Hl. destruct d; simpl.
  - right. by split.
  - unfold bind, fs_op. simpl.
    destruct (decide (path = p)) as [-> | Hne].
    + left. destruct (Remove_linkish p (fs st) Hl) as (fs' & -> & Hnone).
      exact Hnone.
    + right. split; [congruence |].
      destruct (Os.Remove path (fs st)) as [fs' |] eqn:Hrm; simpl;
        [| exact Hl].
      destruct Hl as (n & Hp & Hn). exists n.
      by rewrite (Remove_other p path (fs st) fs' Hrm Hne).
  - destruct (RemoveAll_weakens p path (fs st) Hl) as [Hnone | Hl'].
    + by left.
    + right. by split.
  - right. by split.
Qed.

Lemma run_deferred_Val (d : Deferred) (st : State) :
  fst (run_deferred d st) = Val tt.
Proof.
  destruct d; simpl; try reflexivity.
  unfold bind, fs_op. simpl. by destruct (Os.Remove path (fs st)).
Qed.

Lemma for_each_deferred (d : Deferred) (ds : list Deferred) (st : State) :
  for_each (d :: ds) run_deferred st
  = for_each ds run_deferred (snd (run_deferred d st)).
Proof.
  simpl. unfold bind. pose proof (run_deferred_Val d st) as Hv.
  destruct (run_deferred d st) as [o st1]. simpl in *. by subst o.
Qed.

Lemma run_defers_absent (ds : list Deferred) :
  forall st,
    fs st !! p = None ->
    fs (snd (for_each ds run_deferred st)) !! p = None.
Proof.
  induction ds as [| d ds IH]; intros st Hp; [exact Hp |].
  rewrite for_each_deferred. apply IH. by apply run_deferred_absent.
Qed.

(** The deferred calls remove what the bridge has made. *)
Lemma run_defers_scoped (ds : list Deferred) :
  forall st,
    linkish p (fs st) -> In (Defer_Remove p) ds ->
    fs (snd (for_each ds run_deferred st)) !! p = None.
Proof.
  induction ds as [| d ds IH]; intros st Hl Hin; [destruct Hin |].
  rewrite for_each_deferred.
  destruct (run_deferred_linkish d st Hl) as [Hnone | [Hne Hl']].
  - by apply run_defers_absent.
  - apply IH; [exact Hl' |]. destruct Hin as [-> | Hin]; [done | exact Hin].
Qed.

End Deferred.

(** At the end of the body the legacy name is free, or the link is in place
    with its removal registered. *)
Lemma body_scope (h : Host) (b : Builder) (f : Fn.Function)
    (platforms : list Fn.Platform) (st : State) (n : node) :
  leaves_alone h b (s2iignorePath f) ->
  Os.Stat (fs st) (funcignorePath f) = Ok n ->
  fs st !! s2iignorePath f = None ->
  let st1 := snd (Build_body h b f platforms st) in
  fs st1 !! s2iignorePath f = None \/ scoped (s2iignorePath f) st1.
Proof.
  intros Hframe Hq Hp. cbv zeta.
  destruct (Build_body h b f platforms st) as [o stl] eqn:Hbody. simpl.
  unfold Build_body in Hbody.
  unfold bind at 1 in Hbody.
  pose proof (resolveBuilderImage_fs h b f platforms st) as Hfs1.
  destruct (resolveBuilderImage h b f platforms st) as [[image | e |] st1];
    simpl in Hfs1;
    try (injection Hbody as <- <-; left; by rewrite Hfs1).
  unfold bind at 1 in Hbody.
  pose proof (dockerClient_fs h b st1) as Hfs2.
  destruct (dockerClient h b st1) as [[client | e |] st2];
    simpl in Hfs2;
    try (injection Hbody as <- <-; left; by rewrite Hfs2, Hfs1).
  unfold bind at 1 in Hbody.
  rewrite (link_created f st2 n) in Hbody by (by rewrite Hfs2, Hfs1).
  right.
  match type of Hbody with
  | ?m ?s = _ =>
      pose proof (keeps_after_bridge h b f Hframe image client s) as Hk;
      change (snd (m s)) with (snd (m s)) in Hk
  end.
  rewrite Hbody in Hk. apply Hk.
  split; simpl.
  - eexists. split; [apply lookup_insert_eq | done].
  - by left.
Qed.


Lemma sample_leaves_alone :
  leaves_alone Sample.host Sample.builder
    (s2iignorePath Sample.pythonFunction).
Proof.
  split.
  - intros. reflexivity.
  - intros e cfg fs [H | [cfg' H]]; [discriminate |].
    injection H as <-. simpl. apply lookup_insert_ne.
    intros Heq. vm_compute in Heq. discriminate.
Defined.


(** Ways out of a build on the sample tree: the build succeeds, the
    daemon rejects the archive, the engine fails, the engine panics.  Each
    time the link was made and has been removed. *)
Example link_removed_on_each_exit :
  let p := "/home/dev/hello/.s2iignore" in
  let run (e : Engine) :=
    Build Sample.host (Sample.builderWith e) Sample.pythonFunction []
      Sample.state in
  let ok :=
    Build (Sample.hostWith Sample.visitsRelativeLink) Sample.builder
      Sample.pythonFunction [] Sample.state in
  let made_and_removed (st : State) :=
    fs st !! p = None
    /\ In (Call_Symlink "./.funcignore" p) (calls st)
    /\ In (Call_Remove p) (calls st) in
  fst ok = Returned None
  /\ made_and_removed (snd ok)
  /\ fst (run Sample.engine)
     = Returned
         (Some (fmt_Errorf_w "cannot build the app image: %w" []
                  (errLinkOutside "upload/passwd")))
  /\ made_and_removed (snd (run Sample.engine))
  /\ fst (run Sample.failingEngine)
     = Returned (Some (ErrOther "assemble failed"))
  /\ made_and_removed (snd (run Sample.failingEngine))
  /\ fst (run Sample.panickingEngine) = Panicking
  /\ made_and_removed (snd (run Sample.panickingEngine)).
Proof.
  cbv zeta. vm_compute.
  repeat split; try reflexivity.
  all: repeat (first [left; reflexivity | right]).
Qed.

(** ** Which paths the exclusion pattern matches *)

Lemma HasPrefix_iff (s p : text) :
  Strings.HasPrefix s p = true <-> exists r, s = p ++ r.
Proof.
  revert s. induction p as [| c p IH]; intros s.
  - split; [intros _; by exists s | by destruct s].
  - destruct s as [| x s].
    + split; [discriminate | intros [r Hr]; discriminate].
    + change (Strings.HasPrefix (x :: s) (c :: p))
        with (Ascii.eqb x c && Strings.HasPrefix s p).
      rewrite andb_true_iff, Ascii.eqb_eq, IH. split.
      * intros [-> [r ->]]. by exists r.
      * intros [r [= -> ->]]. split; [reflexivity | by exists r].
Qed.

Lemma HasPrefix_snoc (s p : text) (c : ascii) :
  Strings.HasPrefix s (p ++ [c])
  = Strings.HasPrefix s p
    && match skipn (List.length p) s with
       | x :: _ => Ascii.eqb x c
       | [] => false
       end.
Proof.
  revert s. induction p as [| y p IH]; intros [| x s]; simpl;
    rewrite ?IH, ?andb_assoc; try reflexivity.
  destruct s; by rewrite andb_true_r.
Qed.

Lemma text_eqb_prefix (s p : text) :
  Filepath.text_eqb s p
  = Strings.HasPrefix s p
    && match skipn (List.length p) s with [] => true | _ :: _ => false end.
Proof.
  destruct (Filepath.text_eqb s p) eqn:He.
  - apply text_eqb_true in He as ->. symmetry. apply andb_true_iff. split.
    + apply HasPrefix_iff. exists []. by rewrite app_nil_r.
    + by rewrite drop_all.
  - apply text_eqb_false in He. symmetry. apply andb_false_iff.
    destruct (Strings.HasPrefix s p) eqn:Hp; [right | by left].
    apply HasPrefix_iff in Hp as [r ->].
    rewrite drop_app_length. destruct r; [| reflexivity].
    by rewrite app_nil_r in He.
Qed.

(** Where a match of the exclusion pattern can start: ".git" at the
    beginning of the text only, the other names anywhere. *)
Lemma match_here_exclude (b : bool) (s : text) :
  match Regexp.match_here excludeTree b s with
  | Some _ => true
  | None => false
  end
  = (b && Strings.HasPrefix s (T ".git"))
    || Strings.HasPrefix s (T "/.git")
    || Strings.HasPrefix s (T ".env")
    || Strings.HasPrefix s (T ".func")
    || Strings.HasPrefix s (T "node_modules/")
    || Filepath.text_eqb s (T "node_modules").
Proof.
  change (T "node_modules/") with (T "node_modules" ++ ["/"%char]).
  rewrite HasPrefix_snoc, text_eqb_prefix.
  unfold Regexp.match_here, excludeTree, literal, lit_then.
  cbn [Regexp.run].
  rewrite !run_lit_then by done.
  cbn [Regexp.run].
  assert (Hslash :
    Strings.HasPrefix s (T "/.git")
    = match s with
      | x :: s' => Ascii.eqb x "/"%char && Strings.HasPrefix s' (T ".git")
      | [] => false
      end) by (by destruct s).
  rewrite Hslash.
  destruct (Strings.HasPrefix s (T ".env")),
    (Strings.HasPrefix s (T ".func")),
    (Strings.HasPrefix s (T "node_modules")),
    (skipn (List.length (T "node_modules")) s) as [| y rest];
    destruct b, (Strings.HasPrefix s (T ".git")); cbn [andb orb];
    destruct s as [| x s']; try reflexivity;
    try (rewrite run_lit_then by done;
         destruct (Ascii.eqb x "/"%char),
           (Strings.HasPrefix s' (T ".git")); cbn [andb orb];
         try reflexivity);
    try (destruct (Ascii.eqb y "/"%char); reflexivity).
Qed.

Lemma search_unfold (re : Regexp.regex) (b : bool) (s : text) :
  Regexp.search re b s
  = match Regexp.match_here re b s with Some _ => true | None => false end
    || match s with [] => false | _ :: s' => Regexp.search re false s' end.
Proof. destruct s; simpl; by destruct (Regexp.match_here re b _). Qed.

Lemma search_exclude (s : text) :
  forall b,
    Regexp.search excludeTree b s = true
    <-> (b = true /\ Strings.HasPrefix s (T ".git") = true)
        \/ exists a r,
             s = a ++ r
             /\ Strings.HasPrefix r (T "/.git")
                || Strings.HasPrefix r (T ".env")
                || Strings.HasPrefix r (T ".func")
                || Strings.HasPrefix r (T "node_modules/")
                || Filepath.text_eqb r (T "node_modules") = true.
Proof.
  induction s as [| c s IH]; intros b; rewrite search_unfold,
    match_here_exclude, orb_true_iff.
  - split.
    + intros [H | H]; [| discriminate].
      destruct (b && Strings.HasPrefix [] (T ".git")) eqn:Hb.
      * apply andb_true_iff in Hb. by left.
      * right. by exists [], [].
    + intros [[-> H] | (a & r & Hs & H)]; left.
      * by rewrite H.
      * symmetry in Hs. apply app_eq_nil in Hs as [-> ->]. discriminate.
  - rewrite IH. split.
    + intros [H | [[H _] | (a & r & Hs & H)]]; try discriminate.
      * destruct (b && Strings.HasPrefix (c :: s) (T ".git")) eqn:Hb.
        -- apply andb_true_iff in Hb. by left.
        -- right. by exists [], (c :: s).
      * right. exists (c :: a), r. by rewrite Hs.
    + intros [[-> H] | (a & r & Hs & H)].
      * left. by rewrite H.
      * destruct a as [| x a].
        -- left. simpl in Hs. subst r.
           destruct (b && Strings.HasPrefix (c :: s) (T ".git"));
             [reflexivity | exact H].
        -- right. right. injection Hs as -> ->. by exists a, r.
Qed.

Lemma excluded_search (p : string) :
  excluded p = Regexp.search excludeTree true (T p).
Proof.
  unfold excluded, Regexp.MatchString, Regexp.MustCompile.
  by rewrite excludeRegExp_compiles.
Qed.

(** X1.  The exclusion test of the builder holds of a slash-separated path
    exactly when the path begins with ".git", or contains "/.git", ".env",
    ".func" or "node_modules/" anywhere, or ends with "node_modules".  (Only
    ".git" is tied to the start of a path element and only "node_modules" to
    the end of one.) *)
Theorem excluded_iff (p : string) :
  excluded p = true
  <-> (exists r, T p = T ".git" ++ r)
      \/ occurs (T "/.git") (T p)
      \/ occurs (T ".env") (T p)
      \/ occurs (T ".func") (T p)
      \/ occurs (T "node_modules/") (T p)
      \/ (exists a, T p = a ++ T "node_modules").
Proof.
  rewrite excluded_search, search_exclude. unfold occurs.
  split.
  - intros [[_ H] | (a & r & Hs & H)].
    + left. by apply HasPrefix_iff.
    + right. rewrite !orb_true_iff, !HasPrefix_iff, text_eqb_true in H.
      destruct H as [[[[[r' ->] | [r' ->]] | [r' ->]] | [r' ->]] | ->];
        eauto 10.
  - intros [H | H].
    + left. split; [reflexivity | by apply HasPrefix_iff].
    + right.
      destruct H as [(a & r & H) | [(a & r & H) | [(a & r & H)
                    | [(a & r & H) | (a & H)]]]];
        eexists a, _; (split; [exact H |]);
        rewrite !orb_true_iff, !HasPrefix_iff, text_eqb_true; eauto 10.
Qed.

Lemma T_app (a b : string) : T (a ++ b) = T a ++ T b.
Proof. induction a as [| c a IH]; simpl; [reflexivity | by rewrite IH]. Qed.

Lemma HasPrefix_app (s x p : text) :
  Strings.HasPrefix s p = true -> Strings.HasPrefix (s ++ x) p = true.
Proof.
  rewrite !HasPrefix_iff. intros [r ->]. exists (r ++ x).
  by rewrite <- app_assoc.
Qed.

(** What lies below an excluded path is excluded. *)
Lemma excluded_below (dir rest : string) :
  excluded dir = true -> excluded (dir ++ "/" ++ rest) = true.
Proof.
  rewrite !excluded_search, !T_app, !search_exclude.
  intros [[_ H] | (a & r & -> & H)].
  - left. split; [reflexivity | by apply HasPrefix_app].
  - right. exists a, (r ++ T "/" ++ T rest).
    split; [by rewrite <- app_assoc |].
    rewrite !orb_true_iff in *.
    destruct H as [[[[H | H] | H] | H] | H];
      try (by repeat (first [left; by apply HasPrefix_app | right])).
    + left. left. left. left. by apply HasPrefix_app.
    + left. left. left. right. by apply HasPrefix_app.
    + left. left. right. by apply HasPrefix_app.
    + left. right. by apply HasPrefix_app.
    + left. right. apply text_eqb_true in H as ->.
      apply HasPrefix_iff. by exists (T rest).
Qed.

(** X2.  The callback answers an excluded directory with [nil], not with
    [filepath.SkipDir], so the walk still goes through what lies below it.
    Nothing of it reaches the archive all the same: a path below an excluded
    path is excluded too, hence no header of the archive has a name below a
    directory that the pattern matches. *)
Theorem nothing_below_excluded_directory
    (h : Host) (tmp : string) (fs : FS) (hdr : Tar.Header)
    (dir rest : string)
    (Hin : In hdr (headers (items
              (archive h (Regexp.MustCompile excludeRegExp) tmp fs))))
    (Hname : Tar.Name hdr = (dir ++ "/" ++ rest)%string) :
  excluded dir = false
  /\ (forall d r, excluded d = true -> excluded (d ++ "/" ++ r) = true).
Proof.
  split; [| apply excluded_below].
  destruct (archive_headers h tmp fs hdr Hin) as (_ & Hex & _).
  destruct (excluded dir) eqn:Hdir; [| reflexivity].
  apply (excluded_below dir rest) in Hdir. congruence.
Qed.

Lemma nothing_below_excluded_directory_witness :
  excluded "upload" = false.
Proof.
  refine (proj1 (nothing_below_excluded_directory
            (Sample.hostWith Sample.visitsRelativeLink) Sample.tmpdir ∅
            {| Tar.Typeflag_ := Tar.TypeSymlink; Tar.Name := "upload/passwd";
               Tar.Linkname := "../../../etc/passwd"; Tar.Size := 0;
               Tar.Mode := 0 |}
            "upload" "passwd" _ _)).
  - vm_compute. right. right. left. reflexivity.
  - reflexivity.
Defined.

(** ** The patch of an instruction that runs the assemble script *)

Lemma lastAssemble_exists (a b : text) :
  ~ In nl a ->
  exists n, lastAssemble (a ++ T "assemble" ++ b) = Some n.
Proof.
  induction a as [| c a IH]; intros Ha.
  - cbn [app]. change (T "assemble" ++ b)
      with ("a"%char :: (T "ssemble" ++ b)).
    cbn [lastAssemble].
    change (Ascii.eqb "a" nl) with false. cbv iota.
    destruct (lastAssemble (T "ssemble" ++ b)); [by eexists |].
    change ("a"%char :: (T "ssemble" ++ b)) with (T "assemble" ++ b).
    rewrite (proj2 (HasPrefix_iff _ _)) by (by exists b). by eexists.
  - cbn [app lastAssemble].
    destruct (Ascii.eqb_spec c nl) as [-> | _].
    + exfalso. apply Ha. by left.
    + destruct IH as [n ->]; [| by eexists].
      intros ?. apply Ha. by right.
Qed.

Lemma lastAssemble_skipn (k : nat) :
  forall s m,
    ~ In nl (firstn k s) ->
    lastAssemble (skipn k s) = Some m ->
    lastAssemble s = Some (k + m).
Proof.
  induction k as [| k IH]; intros s m Hs Hm; [exact Hm |].
  destruct s as [| c s]; [discriminate |].
  cbn [skipn] in Hm. cbn [firstn] in Hs.
  cbn [lastAssemble].
  destruct (Ascii.eqb_spec c nl) as [-> | _].
  - exfalso. apply Hs. by left.
  - rewrite (IH s m); [reflexivity | | exact Hm].
    intros ?. apply Hs. by right.
Qed.

(** Behind the last "assemble" of a line there is none. *)
Lemma lastAssemble_after (s : text) (n k : nat) :
  ~ In nl s -> lastAssemble s = Some n -> n <= k ->
  lastAssemble (skipn k s) = None.
Proof.
  intros Hs Hn Hk.
  destruct (lastAssemble (skipn k s)) as [m |] eqn:Hm; [| reflexivity].
  pose proof (lastAssemble_bound _ _ Hm) as Hb.
  rewrite (lastAssemble_skipn k s m) in Hn; [| | exact Hm].
  - injection Hn as <-. lia.
  - intros Hin. apply Hs. rewrite <- (firstn_skipn k s).
    apply in_or_app. by left.
Qed.

Lemma search_nowhere (re : Regexp.regex) (s : text) :
  forall b,
    (forall j b', Regexp.match_here re b' (skipn j s) = None) ->
    Regexp.search re b s = false.
Proof.
  induction s as [| c s IH]; intros b H; rewrite search_unfold;
    pose proof (H 0 b) as H0; cbn [skipn] in H0; rewrite H0.
  - reflexivity.
  - cbn [orb]. apply IH. intros j b'. apply (H (S j) b').
Qed.

(** The bytes of a match are passed over, and the scan goes on behind
    them. *)
Lemma replaceAll_skip (re : Regexp.regex) (repl : text) (n : nat) :
  forall s b after,
    S n <= List.length s ->
    Regexp.replaceAll re repl b s (S n) after
    = Regexp.replaceAll re repl false (skipn (S n) s) 0 true.
Proof.
  induction n as [| n IH]; intros [| c s] b after Hn; simpl in Hn; try lia.
  - reflexivity.
  - cbn [Regexp.replaceAll]. rewrite IH by lia. reflexivity.
Qed.

Lemma expand_group1 (whole g : text) :
  Regexp.expand (T "$1") 0 whole [(1, g)] = g.
Proof. simpl. apply app_nil_r. Qed.

(** X3.  An instruction line that starts with "RUN " and has "assemble"
    somewhere behind it is rewritten as a whole to: "RUN ", the cache-mount
    directive, a backslash and a line break, four spaces, and then all that
    followed "RUN " on the line, as it was (the text behind the last
    "assemble" included). *)
Theorem assemble_line_keeps_its_command
    (root : string) (body : text)
    (Hline : ~ In nl body)
    (Hassemble : occurs (T "assemble") body) :
  patchText root (T "RUN " ++ body)
  = T "RUN " ++ mountCmd root ++ [" "%char; "092"%char; nl]
      ++ T "    " ++ body.
Proof.
  destruct Hassemble as (a & b & Hbody).
  destruct (lastAssemble_exists a b) as [n Hn].
  { intros Hin. apply Hline. rewrite Hbody. apply in_or_app. by left. }
  rewrite <- Hbody in Hn.
  pose proof (lastAssemble_bound _ _ Hn) as Hbound.
  assert (Hm : Regexp.match_here assembleTree true (T "RUN " ++ body)
               = Some (S (S (S (S n))), [(1, firstn n body)])).
  { rewrite match_here_assemble.
    rewrite (proj2 (HasPrefix_iff _ _)) by (by exists body).
    change (skipn 4 (T "RUN " ++ body)) with body. by rewrite Hn. }
  rewrite patchText_eq.
  change (T "RUN " ++ body)
    with ("R"%char :: "U"%char :: "N"%char :: " "%char :: body) in *.
  cbn [Regexp.replaceAll]. rewrite Hm.
  cbn [Regexp.replaceAll].
  destruct n as [| n]; [lia |].
  rewrite replaceAll_skip by lia.
  rewrite (replaceAll_no_match assembleTree).
  2: { apply search_nowhere. intros j b'. rewrite match_here_assemble.
       destruct (Strings.HasPrefix _ _); [| reflexivity].
       rewrite !skipn_skipn.
       by rewrite (lastAssemble_after body (S n) (4 + j + S n)) by
         (try done; lia). }
  unfold replacement.
  replace (T "RUN " ++ mountCmd root ++ [" "%char; "092"%char; nl]
             ++ T "    $1")
    with ((T "RUN " ++ mountCmd root ++ [" "%char; "092"%char; nl]
             ++ T "    ") ++ T "$1")
    by (rewrite <- !app_assoc; reflexivity).
  rewrite expand_plain.
  - rewrite expand_group1, <- !app_assoc.
    do 4 f_equal. apply firstn_skipn.
  - unfold mountCmd. rewrite !in_app_iff.
    intros [H | [[H | H] | [H | H]]].
    + by apply literal_plain in H.
    + by apply literal_plain in H.
    + by apply cacheMountId_plain in H.
    + vm_compute in H. destruct H as [H | [H | [H | []]]]; discriminate.
    + by apply literal_plain in H.
Qed.

Lemma assemble_line_keeps_its_command_witness :
  patchText "/home/dev/hello"
    (T "RUN " ++ T "/usr/libexec/s2i/assemble && rm -rf /tmp/src")
  = T "RUN " ++ mountCmd "/home/dev/hello" ++ [" "%char; "092"%char; nl]
      ++ T "    " ++ T "/usr/libexec/s2i/assemble && rm -rf /tmp/src".
Proof.
  apply (assemble_line_keeps_its_command "/home/dev/hello"
           (T "/usr/libexec/s2i/assemble && rm -rf /tmp/src")).
  - vm_compute. intros H.
    repeat (destruct H as [H | H]; [discriminate |]). exact H.
  - exists (T "/usr/libexec/s2i/"), (T " && rm -rf /tmp/src"). reflexivity.
Defined.

(** ** The warning about a builder image referenced by tag *)

Lemma isDefaultBuilderImage_spec (image : string) :
  isDefaultBuilderImage image = true
  <-> In image [DefaultGoBuilder; DefaultNodeBuilder; DefaultPythonBuilder;
                DefaultQuarkusBuilder].
Proof.
  unfold isDefaultBuilderImage. rewrite existsb_exists. split.
  - intros ([rt img] & Hin & Heq). simpl in Heq.
    apply String.eqb_eq in Heq as ->.
    apply list_elem_of_In, elem_of_map_to_list,
      DefaultBuilderImages_lookup in Hin.
    repeat (apply elem_of_cons in Hin as [Hin | Hin];
            [injection Hin as -> ->; simpl; tauto |]).
    by apply elem_of_nil in Hin.
  - intros Hin.
    assert (Hkey : exists rt, DefaultBuilderImages !! rt = Some image).
    { simpl in Hin.
      destruct Hin as [<- | [<- | [<- | [<- | []]]]];
        [by exists "go" | by exists "node" | by exists "python"
        | by exists "quarkus"]. }
    destruct Hkey as [rt Hrt]. exists (rt, image). split.
    + by apply list_elem_of_In, elem_of_map_to_list.
    + apply String.eqb_refl.
Qed.

(** X4.  The lookup of the script URL writes one line to the standard error
    stream, the warning about mutable tags, exactly when the daemon does not
    have the image, the reference parses as a reference by tag, and the image
    is not one of the default builder images; otherwise it writes nothing. *)
Theorem tag_warning
    (h : Host) (cli : Docker.Client) (image : string) (st : State) :
  let warned :=
    (exists e, Docker.ImageInspectWithRaw cli image = Err e
               /\ IsErrNotFound e = true)
    /\ (exists r, ParseReference h image = Ok (Docker.Tag r))
    /\ ~ In image [DefaultGoBuilder; DefaultNodeBuilder;
                   DefaultPythonBuilder; DefaultQuarkusBuilder] in
  (warned -> stderr_of (s2iScriptURL h cli image) st = [tagWarning])
  /\ (~ warned -> stderr_of (s2iScriptURL h cli image) st = []).
Proof.
  cbv zeta. rewrite <- isDefaultBuilderImage_spec.
  unfold s2iScriptURL.
  destruct (Docker.ImageInspectWithRaw cli image) as [img | e] eqn:Hinsp;
    [| destruct (IsErrNotFound e) eqn:Hnf;
       [destruct (ParseReference h image) as [ref | e1] eqn:Hparse;
        [destruct (remote_Image h ref) as [rimg | e2] eqn:Hremote;
         [destruct (Docker.ConfigFile rimg) as [cfg | e3] eqn:Hcfg;
          [destruct (label cfg) eqn:Hlabel |] |];
         destruct ref; try destruct (isDefaultBuilderImage image) |] |]].
  all: run_step.
  all: try (destruct (Docker.Config img ≫= label) eqn:Hl1;
            [| destruct (Docker.ContainerConfig_ img ≫= label) eqn:Hl2];
            simpl).
  all: rewrite ?skipn_length_app, ?skipn_all.
  all: split; [intros ([e' [He' Hnf']] & [r' Hr'] & Hdef) | intros Hnot];
    try reflexivity; try congruence.
  all: try (exfalso; by apply Hdef).
  all: exfalso; apply Hnot; repeat split; eauto; congruence.
Qed.

Lemma tag_warning_witness :
  stderr_of (s2iScriptURL Sample.host Sample.daemon "example.com/builder:1")
    Sample.state
  = [tagWarning].
Proof.
  apply (proj1 (tag_warning Sample.host Sample.daemon "example.com/builder:1"
                  Sample.state)).
  split; [| split].
  - eexists. split; reflexivity.
  - eexists. reflexivity.
  - simpl. intros [H | [H | [H | [H | []]]]]; discriminate.
Defined.

(** ** The bridge between the two ignore files: the other cases *)



(** ** What the walk writes *)

Lemma FileInfoHeader_Mode (fi : Fs.FileInfo) (link : string)
    (hdr : Tar.Header) :
  Tar.FileInfoHeader fi link = Ok hdr ->
  Tar.Mode hdr
  = Z.lor (Fs.Perm (Fs.Mode fi)) (Tar.special_bits (Fs.Mode fi)).
Proof.
  unfold Tar.FileInfoHeader.
  repeat case_match; intros [= <-]; reflexivity.
Qed.

Lemma FileInfoHeader_Typeflag (fi : Fs.FileInfo) (link : string)
    (hdr : Tar.Header) :
  Tar.FileInfoHeader fi link = Ok hdr ->
  (Tar.Typeflag_ hdr = Tar.TypeReg <-> Fs.IsRegular (Fs.Mode fi) = true).
Proof.
  unfold Tar.FileInfoHeader.
  repeat case_match; intros [= <-]; simpl; split; congruence.
Qed.

(** What the callback writes for one name: nothing, a header, or the header
    of a regular file and the content of the file. *)
Lemma walkFn_items (goos : string) (exclude : Regexp.regex) (tmp : string)
    (v : Visit) :
  fst (walkFn goos exclude tmp v) = []
  \/ exists fi hdr,
       v_info v = Ok fi
       /\ Tar.Mode hdr
          = (let m := Z.lor (Fs.Perm (Fs.Mode fi))
                        (Tar.special_bits (Fs.Mode fi)) in
             if String.eqb goos "windows" then Z.lor m 73 else m)
       /\ (Tar.Typeflag_ hdr = Tar.TypeReg
           <-> Fs.IsRegular (Fs.Mode fi) = true)
       /\ (fst (walkFn goos exclude tmp v) = [Tar.Hdr hdr]
           \/ exists content,
                Fs.IsRegular (Fs.Mode fi) = true
                /\ v_open v = Ok content
                /\ walkFn goos exclude tmp v
                   = ([Tar.Hdr hdr; Tar.Data content], None)).
Proof.
  unfold walkFn.
  destruct (v_info v) as [fi |]; [| by left].
  destruct (Filepath.Rel _ _) as [p |]; [| by left].
  destruct (Filepath.text_eqb p Filepath.dot); [by left |].
  destruct (Regexp.search _ _ _); [by left |].
  destruct (linkname _ _ _ _) as [lnk |]; [| by left].
  destruct (Tar.FileInfoHeader fi _) as [hdr |] eqn:Hhdr; [| by left].
  pose proof (FileInfoHeader_Mode _ _ _ Hhdr) as Hmode.
  pose proof (FileInfoHeader_Typeflag _ _ _ Hhdr) as Hflag.
  destruct (v_header_err v); [by left |].
  right. eexists fi, _. split; [reflexivity |].
  split; [| split].
  3: { destruct (Fs.IsRegular (Fs.Mode fi)) eqn:Hreg.
       - destruct (v_open v) as [content |]; [| left; reflexivity].
         destruct (v_copy_err v); [left; reflexivity |].
         right. exists content. repeat split; reflexivity.
       - left. reflexivity. }
  - cbv zeta. destruct (String.eqb goos "windows"); simpl; by rewrite Hmode.
  - destruct (String.eqb goos "windows"); exact Hflag.
Qed.

Lemma Walk_chunks (P : list Tar.Item -> Prop)
    (fn : Visit -> list Tar.Item * option error) (visits : list Visit) :
  (forall v, In v visits -> fst (fn v) = [] \/ P (fst (fn v))) ->
  exists chunks, fst (Walk fn visits) = concat chunks /\ Forall P chunks.
Proof.
  induction visits as [| v visits IH]; intros H.
  - by exists [].
  - destruct IH as (chunks & Hc & HP); [intros; apply H; by right |].
    specialize (H v (or_introl eq_refl)). simpl.
    destruct (fn v) as [out [err |]] eqn:Hv; simpl in *.
    + destruct H as [-> | H]; [by exists [] |].
      exists [out]. simpl. rewrite app_nil_r. by repeat constructor.
    + destruct (Walk fn visits) as [out' err']. simpl in *. subst out'.
      destruct H as [-> | H]; [by exists chunks |].
      exists (out :: chunks). by repeat constructor.
Qed.

(** X6.  What the walk writes is a sequence of headers, each one alone or
    followed by one block of data; data follows the header of a regular file
    only, and is the content read from a file the walk has visited. *)
Theorem data_follows_regular_header
    (h : Host) (exclude : Regexp.regex) (tmp : string) (fs : FS) :
  exists chunks,
    items (archive h exclude tmp fs) = concat chunks
    /\ Forall
         (fun chunk =>
            exists hdr,
              chunk = [Tar.Hdr hdr]
              \/ (Tar.Typeflag_ hdr = Tar.TypeReg
                  /\ exists v content,
                       In v (Walk_visits h fs tmp)
                       /\ v_open v = Ok content
                       /\ chunk = [Tar.Hdr hdr; Tar.Data content]))
         chunks.
Proof.
  unfold archive.
  destruct (Walk_chunks
              (fun chunk =>
                 exists hdr,
                   chunk = [Tar.Hdr hdr]
                   \/ (Tar.Typeflag_ hdr = Tar.TypeReg
                       /\ exists v content,
                            In v (Walk_visits h fs tmp)
                            /\ v_open v = Ok content
                            /\ chunk = [Tar.Hdr hdr; Tar.Data content]))
              (walkFn (GOOS h) exclude tmp) (Walk_visits h fs tmp))
    as (chunks & Hc & HP).
  { intros v Hv.
    destruct (walkFn_items (GOOS h) exclude tmp v)
      as [Hnil | (fi & hdr & _ & _ & Hflag & Hout)]; [by left |].
    right. exists hdr.
    destruct Hout as [-> | (content & Hreg & Hopen & ->)]; [by left |].
    right. split; [by apply Hflag |]. by exists v, content. }
  exists chunks. split; [| exact HP].
  by destruct (Walk _ _).
Qed.

Lemma land_lor_same (m c : Z) : Z.land (Z.lor m c) c = c.
Proof.
  apply Z.bits_inj'. intros n Hn.
  rewrite Z.land_spec, Z.lor_spec.
  destruct (Z.testbit m n), (Z.testbit c n); reflexivity.
Qed.

(** X7.  The mode of a header is made of the permission bits and the
    setuid, setgid and sticky bits of the visited file; on Windows, and only
    there, the three execute bits (0111) are added, so that every header of
    an archive made on Windows has them. *)
Theorem header_permissions
    (h : Host) (exclude : Regexp.regex) (tmp : string) (fs : FS)
    (hdr : Tar.Header)
    (Hin : In hdr (headers (items (archive h exclude tmp fs)))) :
  (exists v fi,
     In v (Walk_visits h fs tmp) /\ v_info v = Ok fi
     /\ Tar.Mode hdr
        = Z.lor
            (Z.lor (Fs.Perm (Fs.Mode fi)) (Tar.special_bits (Fs.Mode fi)))
            (if String.eqb (GOOS h) "windows" then 73 else 0)%Z)
  /\ (GOOS h = "windows" -> Z.land (Tar.Mode hdr) 73 = 73%Z).
Proof.
  unfold archive in Hin.
  destruct (Walk _ _) as [out err] eqn:HW. simpl in Hin.
  replace out with (fst (Walk (walkFn (GOOS h) exclude tmp)
                           (Walk_visits h fs tmp))) in Hin
    by (by rewrite HW).
  apply Walk_header in Hin as (v & Hv & Hin).
  destruct (walkFn_items (GOOS h) exclude tmp v)
    as [Hnil | (fi & hdr' & Hfi & Hmode & _ & Hout)].
  { rewrite Hnil in Hin. destruct Hin. }
  assert (hdr' = hdr) as ->.
  { destruct Hout as [Hout | (content & _ & _ & Hout)];
      rewrite Hout in Hin; simpl in Hin; by destruct Hin as [-> | []]. }
  cbv zeta in Hmode.
  assert (Hm : Tar.Mode hdr
               = Z.lor
                   (Z.lor (Fs.Perm (Fs.Mode fi))
                      (Tar.special_bits (Fs.Mode fi)))
                   (if String.eqb (GOOS h) "windows" then 73 else 0)%Z).
  { rewrite Hmode. destruct (String.eqb (GOOS h) "windows");
      [reflexivity | by rewrite Z.lor_0_r]. }
  split.
  - by exists v, fi.
  - intros Hw. rewrite Hm, Hw. apply land_lor_same.
Qed.

(** X8.  The walk ends at the first name for which the callback reports an
    error: the archive holds what was written for the names before it and
    what the callback had written for this name, nothing of the names after
    it, and the pipe is closed with that error.  When no callback reports an
    error, the archive holds what was written for every name and the pipe is
    closed without error.  An error that the walk itself hands to the
    callback is returned as it is. *)
Theorem archive_ends_at_first_error
    (h : Host) (exclude : Regexp.regex) (tmp : string) (fs : FS) :
  (forall pre v post out e,
     Walk_visits h fs tmp = pre ++ v :: post ->
     Forall (fun v' => snd (walkFn (GOOS h) exclude tmp v') = None) pre ->
     walkFn (GOOS h) exclude tmp v = (out, Some e) ->
     archive h exclude tmp fs
     = {| items :=
            concat (map (fun v' => fst (walkFn (GOOS h) exclude tmp v')) pre)
              ++ out;
          closed_with := Some e |})
  /\ (Forall (fun v => snd (walkFn (GOOS h) exclude tmp v) = None)
        (Walk_visits h fs tmp) ->
      archive h exclude tmp fs
      = {| items :=
             concat (map (fun v => fst (walkFn (GOOS h) exclude tmp v))
                       (Walk_visits h fs tmp));
           closed_with := None |})
  /\ (forall v e,
        v_info v = Err e -> walkFn (GOOS h) exclude tmp v = ([], Some e)).
Proof.
  assert (Hok : forall visits,
    Forall (fun v => snd (walkFn (GOOS h) exclude tmp v) = None) visits ->
    Walk (walkFn (GOOS h) exclude tmp) visits
    = (concat (map (fun v => fst (walkFn (GOOS h) exclude tmp v)) visits),
       None)).
  { induction 1 as [| v visits Hv _ IH]; [reflexivity |].
    simpl. destruct (walkFn _ _ _ v) as [out err]. simpl in Hv. subst err.
    by rewrite IH. }
  split; [| split].
  - intros pre v post out e Hvisits Hpre Hv.
    unfold archive. rewrite Hvisits, Walk_app by (by rewrite Hok).
    rewrite Hok by exact Hpre. simpl. by rewrite Hv.
  - intros Hall. unfold archive. by rewrite Hok.
  - intros v e He. unfold walkFn. by rewrite He.
Qed.

Lemma header_permissions_witness :
  Z.land
    (Tar.Mode {| Tar.Typeflag_ := Tar.TypeReg; Tar.Name := "Dockerfile";
                 Tar.Linkname := ""; Tar.Size := 3; Tar.Mode := 493 |})
    73
  = 73%Z.
Proof.
  refine (proj2 (header_permissions Sample.windowsHost
                   (Regexp.MustCompile excludeRegExp) Sample.tmpdir ∅ _ _)
            eq_refl).
  vm_compute. left. reflexivity.
Defined.

Lemma archive_ends_at_first_error_witness :
  archive Sample.host (Regexp.MustCompile excludeRegExp) Sample.tmpdir ∅
  = {| items := [Tar.Hdr Sample.dockerfileHeader;
                 Tar.Data (T "abc");
                 Tar.Hdr Sample.uploadHeader];
       closed_with := Some (errLinkOutside "upload/passwd") |}.
Proof.
  rewrite (proj1 (archive_ends_at_first_error Sample.host
                    (Regexp.MustCompile excludeRegExp) Sample.tmpdir ∅)
             (firstn 4 (Sample.visitsAbsoluteLink ∅ Sample.tmpdir))
             (Sample.visit "/tmp/func-s2i-build1/upload/passwd"
                Fs.ModeSymlink (Ok "/etc/passwd"))
             [] [] (errLinkOutside "upload/passwd")).
  - vm_compute. reflexivity.
  - reflexivity.
  - repeat constructor.
  - vm_compute. reflexivity.
Defined.

(** ** The trace of a build

    The calls [Build] makes, the calls it defers and the lines it writes are
    followed through the function with a rule for each kind of step. *)

Lemma sorted_snoc {A} (R : A -> A -> Prop) (l : list A) (x : A) :
  StronglySorted R l -> Forall (fun y => R y x) l ->
  StronglySorted R (l ++ [x]).
Proof.
  induction 1 as [| y l Hl IH Hy]; intros Hx; simpl.
  - repeat constructor.
  - apply Forall_cons in Hx as [Hyx Hx]. constructor; [by apply IH |].
    apply Forall_app. split; [exact Hy | by constructor].
Qed.

Section Protocol.
Variables (h : Host) (b : Builder) (f : Fn.Function)
  (platforms : list Fn.Platform) (st0 : State).


Lemma reached_mono (n n' : nat) (st : State) : n <= n' -> reached h b f platforms st0 n st -> reached h b f platforms st0 n' st.
Proof.
  intros Hn ((cs & Hc & Hcs & Hca) & (ds & Hd & Hds & Hda) & Hl).
  split; [| split; [| exact Hl]].
  - exists cs. repeat split; try done.
    eapply Forall_impl; [exact Hca |]. simpl. intros c [? ?]. split; [done | lia].
  - exists ds. repeat split; try done.
    eapply Forall_impl; [exact Hda |]. simpl. intros d [? ?]. split; [done | lia].
Qed.

Lemma reached_fs (n : nat) (st : State) (fs' : FS) :
  reached h b f platforms st0 n st -> reached h b f platforms st0 n (set_fs st fs').
Proof. intros H. exact H. Qed.

Lemma reached_call (n : nat) (c : Call) (st : State) :
  n <= phase c -> made_by h b f platforms c -> reached h b f platforms st0 n st ->
  reached h b f platforms st0 (S (phase c)) (snd (call c st)).
Proof.
  intros Hn Hc ((cs & Hcalls & Hcs & Hca) & (ds & Hd & Hds & Hda) & Hl).
  split; [| split; [| exact Hl]].
  - exists (cs ++ [c]). simpl. rewrite Hcalls, <- app_assoc.
    split; [reflexivity |]. split.
    + apply sorted_snoc; [exact Hcs |].
      eapply Forall_impl; [exact Hca |]. simpl. intros c' [_ ?]. lia.
    + apply Forall_app. split.
      * eapply Forall_impl; [exact Hca |]. simpl. intros c' [? ?].
        split; [done | lia].
      * constructor; [split; [done | lia] | constructor].
  - exists ds. repeat split; try done.
    eapply Forall_impl; [exact Hda |]. simpl. intros d [? ?].
    split; [done | lia].
Qed.

Lemma reached_defer (n : nat) (d : Deferred) (st : State) :
  n <= dphase d -> registered_by b f d -> reached h b f platforms st0 n st ->
  reached h b f platforms st0 (S (dphase d)) (snd (defer d st)).
Proof.
  intros Hn Hd' ((cs & Hcalls & Hcs & Hca) & (ds & Hd & Hds & Hda) & Hl).
  split; [| split; [| exact Hl]].
  - exists cs. repeat split; try done.
    eapply Forall_impl; [exact Hca |]. simpl. intros c' [? ?].
    split; [done | lia].
  - exists (d :: ds). simpl. rewrite Hd. split; [reflexivity |]. split.
    + constructor; [exact Hds |].
      eapply Forall_impl; [exact Hda |]. simpl. intros d' [_ ?]. lia.
    + constructor; [split; [done | lia] |].
      eapply Forall_impl; [exact Hda |]. simpl. intros d' [? ?].
      split; [done | lia].
Qed.

Lemma reached_line (n : nat) (line : string) (st : State) :
  written_by b line -> reached h b f platforms st0 n st -> reached h b f platforms st0 n (snd (Fprintln line st)).
Proof.
  intros Hline (Hc & Hd & (ls & Hl & Hls)).
  split; [exact Hc | split; [exact Hd |]].
  exists (ls ++ [line]). simpl. rewrite Hl, <- app_assoc.
  split; [reflexivity |]. apply Forall_app. split; [exact Hls |].
  constructor; [exact Hline | constructor].
Qed.


Ltac place := cbn [phase dphase]; lia.

Section Rules.
Context {A B : Type}.
Implicit Types (Q : A -> Prop) (R : option error -> Prop).

Lemma step_ret n n' (a : A) Q R : n <= n' -> Q a -> step h b f platforms st0 n (ret a) n' Q R.
Proof. intros Hn Ha st HJ. split; [by eapply reached_mono | done]. Qed.

Lemma step_returns n n' (e : option error) Q R :
  n <= n' -> R e -> step h b f platforms st0 n (@returns A e) n' Q R.
Proof. intros Hn He st HJ. split; [by eapply reached_mono | done]. Qed.

Lemma step_bind n n1 n2 (m : M A) (k : A -> M B) Q (Q' : B -> Prop) R :
  step h b f platforms st0 n m n1 Q R -> n1 <= n2 ->
  (forall a, Q a -> step h b f platforms st0 n1 (k a) n2 Q' R) ->
  step h b f platforms st0 n (bind m k) n2 Q' R.
Proof.
  intros Hm Hn Hk st HJ. unfold bind. specialize (Hm st HJ).
  destruct (m st) as [[a | e |] st1].
  - destruct Hm as [HJ1 Ha]. by apply Hk.
  - destruct Hm as [HJ1 He]. split; [by eapply reached_mono | done].
  - by eapply reached_mono.
Qed.

Lemma step_weaken n0 n n1 n2 (m : M A) Q Q' R R' :
  step h b f platforms st0 n m n1 Q R -> n0 <= n -> n1 <= n2 -> (forall a, Q a -> Q' a) ->
  (forall e, R e -> R' e) ->
  step h b f platforms st0 n0 m n2 Q' R'.
Proof.
  intros Hm H0 H2 HQ HR st HJ.
  specialize (Hm st (reached_mono _ _ _ H0 HJ)).
  destruct (m st) as [[a | e |] st1].
  - destruct Hm as [HJ1 Ha]. split; [by eapply reached_mono | by apply HQ].
  - destruct Hm as [HJ1 He]. split; [by eapply reached_mono | by apply HR].
  - by eapply reached_mono.
Qed.

Lemma step_try n n' (r : Result A) (wrap : error -> error) Q R :
  n <= n' -> (forall e, R (Some e)) -> (forall a, r = Ok a -> Q a) ->
  step h b f platforms st0 n (try_ r wrap) n' Q R.
Proof.
  intros Hn HR HQ. destruct r; [apply step_ret; auto | by apply step_returns].
Qed.

Lemma step_try_then n n' (r : Result A) (wrap : error -> error)
    (k : A -> M B) (Q' : B -> Prop) R :
  n <= n' -> (forall e, R (Some e)) ->
  (forall a, r = Ok a -> step h b f platforms st0 n (k a) n' Q' R) ->
  step h b f platforms st0 n (bind (try_ r wrap) k) n' Q' R.
Proof.
  intros Hn HR Hk.
  eapply step_bind;
    [by apply (step_try n n r wrap (fun a => r = Ok a)) | exact Hn |].
  exact Hk.
Qed.

End Rules.

Section Primitives.
Context {B : Type}.
Implicit Types (Q : B -> Prop) (R : option error -> Prop).

Lemma step_call n n' (c : Call) (Q : unit -> Prop) R :
  n <= phase c -> S (phase c) <= n' -> made_by h b f platforms c -> Q tt ->
  step h b f platforms st0 n (call c) n' Q R.
Proof.
  intros Hn Hn' Hc HQ st HJ. split; [| done].
  eapply reached_mono; [exact Hn' |]. by apply (reached_call n).
Qed.

Lemma step_call_then n n' (c : Call) (k : M B) Q R :
  n <= phase c -> S (phase c) <= n' -> made_by h b f platforms c ->
  step h b f platforms st0 (S (phase c)) k n' Q R ->
  step h b f platforms st0 n (call c ;; k) n' Q R.
Proof.
  intros Hn Hn' Hc Hk.
  eapply step_bind;
    [by apply (step_call n (S (phase c)) c (fun _ => True)) | exact Hn' |].
  intros _ _. exact Hk.
Qed.

Lemma step_defer n n' (d : Deferred) (Q : unit -> Prop) R :
  n <= dphase d -> S (dphase d) <= n' -> registered_by b f d -> Q tt ->
  step h b f platforms st0 n (defer d) n' Q R.
Proof.
  intros Hn Hn' Hd HQ st HJ. split; [| done].
  eapply reached_mono; [exact Hn' |]. by apply (reached_defer n).
Qed.

Lemma step_defer_then n n' (d : Deferred) (k : M B) Q R :
  n <= dphase d -> S (dphase d) <= n' -> registered_by b f d ->
  step h b f platforms st0 (S (dphase d)) k n' Q R ->
  step h b f platforms st0 n (defer d ;; k) n' Q R.
Proof.
  intros Hn Hn' Hd Hk.
  eapply step_bind;
    [by apply (step_defer n (S (dphase d)) d (fun _ => True))
    | exact Hn' |].
  intros _ _. exact Hk.
Qed.

Lemma step_Fprintln n n' (line : string) (Q : unit -> Prop) R :
  n <= n' -> written_by b line -> Q tt -> step h b f platforms st0 n (Fprintln line) n' Q R.
Proof.
  intros Hn Hl HQ st HJ. split; [| done].
  eapply reached_mono; [exact Hn |]. by apply reached_line.
Qed.

Lemma step_get_fs_then n n' (k : FS -> M B) Q R :
  (forall fs, step h b f platforms st0 n (k fs) n' Q R) -> step h b f platforms st0 n (bind get_fs k) n' Q R.
Proof. intros Hk st HJ. unfold bind, get_fs. by apply Hk. Qed.

Lemma step_fs_op n n' (op : FS -> Result FS) (Q : option error -> Prop) R :
  n <= n' -> (forall e, Q e) -> step h b f platforms st0 n (fs_op op) n' Q R.
Proof.
  intros Hn HQ st HJ. unfold fs_op.
  destruct (op (fs st)); (split; [by eapply reached_mono | done]).
Qed.

Lemma step_fs_op_then n n' (op : FS -> Result FS)
    (k : option error -> M B) Q R :
  n <= n' -> (forall e, step h b f platforms st0 n (k e) n' Q R) ->
  step h b f platforms st0 n (bind (fs_op op) k) n' Q R.
Proof.
  intros Hn Hk.
  eapply step_bind;
    [by apply (step_fs_op n n op (fun _ => True)) | exact Hn |].
  intros e _. apply Hk.
Qed.

Lemma step_check n n' (err : option error) (wrap : error -> error)
    (Q : unit -> Prop) R :
  n <= n' -> (forall e, R (Some e)) -> (err = None -> Q tt) ->
  step h b f platforms st0 n (check err wrap) n' Q R.
Proof.
  intros Hn HR HQ. destruct err; [by apply step_returns |].
  apply step_ret; auto.
Qed.

Lemma step_check_then n n' (err : option error) (wrap : error -> error)
    (k : M B) Q R :
  n <= n' -> (forall e, R (Some e)) -> (err = None -> step h b f platforms st0 n k n' Q R) ->
  step h b f platforms st0 n (check err wrap ;; k) n' Q R.
Proof.
  intros Hn HR Hk.
  eapply step_bind;
    [by apply (step_check n n err wrap (fun _ => err = None))
    | exact Hn |].
  intros [] He. by apply Hk.
Qed.

End Primitives.

Lemma step_for_each {A} n n' (l : list A) (body : A -> M unit)
    (Q : unit -> Prop) R :
  n <= n' -> Q tt ->
  (forall x, step h b f platforms st0 n (body x) n (fun _ => True) R) ->
  step h b f platforms st0 n (for_each l body) n' Q R.
Proof.
  intros Hn HQ Hbody. induction l as [| x l IH]; simpl.
  - by apply step_ret.
  - eapply step_bind; [apply Hbody | exact Hn | intros _ _; exact IH].
Qed.

(** **** The blocks of [Build] *)

Lemma step_resolveBuilderImage (pfs : list Fn.Platform) :
  pfs = platforms ->
  step h b f platforms st0 1 (resolveBuilderImage h b f pfs) 2 (resolved h b f pfs) failed.
Proof.
  intros Hpf. unfold resolveBuilderImage.
  apply step_try_then; [lia | done |].
  intros image Himage. unfold resolved.
  destruct pfs as [| pf [| pf' ps]].
  - apply step_ret; [lia | done].
  - apply step_call_then; [place | place | |].
    + simpl. rewrite <- Hpf. by exists pf.
    + apply step_try; [place | done |].
      intros image' Himage'. by exists image.
  - by apply step_returns; [lia |].
Qed.

Lemma step_dockerClient :
  step h b f platforms st0 2 (dockerClient h b) 4
    (fun c => cli b = Some c \/ (cli b = None /\ NewClient h = Ok c)) failed.
Proof.
  unfold dockerClient. destruct (cli b) as [c |] eqn:Hcli.
  - apply step_ret; [lia | by left].
  - apply step_call_then; [place | place | done |].
    apply step_try_then; [place | done |]. intros c Hc.
    apply step_defer_then; [place | place | done |].
    apply step_ret; [place | by right].
Qed.

Lemma step_linkIgnoreFile :
  step h b f platforms st0 4 (linkIgnoreFile f) 6 (fun _ => True) failed.
Proof.
  unfold linkIgnoreFile. apply step_get_fs_then. intros fs0.
  destruct (Os.Stat fs0 (funcignorePath f)); [| by apply step_ret; [lia |]].
  destruct (Os.Stat fs0 (s2iignorePath f)).
  - apply step_Fprintln; [lia | by left | done].
  - apply step_call_then; [place | place | done |].
    apply step_fs_op_then; [place |]. intros err.
    apply step_check_then; [place | done |]. intros _.
    apply step_defer; [place | place | done | done].
Qed.

Lemma step_os_MkdirTemp :
  step h b f platforms st0 6 (os_MkdirTemp h) 7 (fun _ => True) failed.
Proof.
  unfold os_MkdirTemp. apply step_call_then; [place | place | done |].
  intros st HJ.
  destruct (MkdirTemp_name h (fs st)) as [tmp |]; [| by split].
  destruct (Os.Mkdir tmp (fs st)); by split.
Qed.

Lemma step_buildDirectory :
  step h b f platforms st0 6 (buildDirectory h) 8 (fun _ => True) failed.
Proof.
  unfold buildDirectory.
  eapply step_bind; [apply step_os_MkdirTemp | lia | intros r _].
  apply step_try_then; [lia | done |]. intros tmp _.
  apply step_defer_then; [place | place | done |].
  apply step_ret; [place | done].
Qed.

Lemma step_scaffold (cfg : Api.Config) :
  step h b f platforms st0 8 (scaffold h cfg f) 10
    (fun r =>
       forall cfg',
         r = Ok cfg' ->
         cfg' = if String.eqb (Fn.Runtime f) "go"
                then Api.set_copy_flags cfg true true
                else cfg)
    failed.
Proof.
  unfold scaffold.
  destruct (String.eqb_spec (Fn.Runtime f) "go") as [Hgo | Hgo]; cbn [negb].
  2: { apply step_ret; [lia |]. by intros cfg' [= <-]. }
  apply step_call_then; [place | place | done |].
  apply step_fs_op_then; [place |]. intros _.
  destruct (NewRepository h); [by apply step_ret; [place |] |].
  apply step_call_then; [place | place | done |].
  apply (step_bind 10 10 10 _ _ (fun _ => True)); [| lia |].
  { intros st HJ. destruct (scaffolding_Write h _ _ _ _ (fs st)).
    by split. }
  intros [err |] _; [by apply step_ret |].
  destruct (assembler h f) as [assemble |]; [| by apply step_ret].
  apply (step_bind 10 10 10 _ _ (fun _ => True)); [| lia |].
  { destruct (negb (assemble =? "")%string); [| by apply step_ret].
    apply step_fs_op_then; [lia |]. intros [err |]; [by apply step_ret |].
    apply step_fs_op_then; [lia |]. intros [err |]; by apply step_ret. }
  intros [err |] _; apply step_ret; try done.
  by intros cfg' [= <-].
Qed.

Lemma step_s2iScriptURL (client : Docker.Client) (image : string) :
  resolved h b f platforms image ->
  step h b f platforms st0 10 (s2iScriptURL h client image) 14 (fun _ => True) failed.
Proof.
  intros Himage. unfold s2iScriptURL.
  apply step_call_then; [place | place | done |].
  destruct (Docker.ImageInspectWithRaw client image) as [img | err].
  { repeat case_match; by apply step_ret; [place |]. }
  destruct (IsErrNotFound err); [| by apply step_ret; [place |]].
  apply step_call_then; [place | place | done |].
  destruct (ParseReference h image) as [ref | err'] eqn:Hparse;
    [| by apply step_ret; [place |]].
  apply (step_bind 12 12 14 _ _ (fun _ => True)); [| lia |].
  { destruct ref; [| by apply step_ret].
    destruct (negb (isDefaultBuilderImage image)); [| by apply step_ret].
    apply step_Fprintln; [lia | | done]. right. by left. }
  intros _ _. apply step_call_then; [place | place | by exists image |].
  destruct (remote_Image h ref) as [rimg |];
    [| by apply step_ret; [place |]].
  apply step_call_then; [place | place | done |].
  repeat case_match; by apply step_ret; [place |].
Qed.

Lemma step_buildConfig (builderImage tmp : string)
    (client : Docker.Client) :
  resolved h b f platforms builderImage ->
  step h b f platforms st0 8 (buildConfig h b f builderImage tmp client) 15
    (fun cfg =>
       configured h b f platforms cfg /\ ValidateConfig h cfg = [])
    failed.
Proof.
  intros Himage. unfold buildConfig.
  eapply step_bind; [apply step_scaffold | lia | intros r Hr].
  apply step_try_then; [lia | done |]. intros cfg1 ->.
  specialize (Hr cfg1 eq_refl).
  apply (step_bind 10 14 15 _ _ (fun _ => True)); [| lia |].
  { apply step_s2iScriptURL. rewrite Hr.
    by destruct (String.eqb (Fn.Runtime f) "go"). }
  intros r2 _. apply step_try_then; [lia | done |]. intros scriptURL _.
  apply step_try_then; [lia | done |]. intros envs Henvs.
  match goal with
  | |- context [Call_ValidateConfig ?c] => set (cfg := c)
  end.
  assert (Hcfg : configured h b f platforms cfg).
  { subst cfg. rewrite Hr. unfold configured.
    destruct (String.eqb (Fn.Runtime f) "go");
      destruct (String.eqb_spec scriptURL scriptsURLDefault) as [Hd | Hd];
      cbn [negb]; repeat split; try done; try (by exists tmp).
    all: exists envs; (split; [exact Henvs |]); intros k v; cbn;
      rewrite in_map_iff.
    all: split; [intros ([k' v'] & [= <- <-] & Hin); exact Hin
               | intros Hin; by exists (k, v)]. }
  apply step_call_then; [place | place | exact Hcfg |].
  destruct (ValidateConfig h cfg) as [| e errs] eqn:Hvalid.
  - by apply step_ret; [place |].
  - apply (step_bind 15 15 15 _ _ (fun _ => True)); [| lia |].
    + apply step_for_each; [lia | done |]. intros e'.
      apply step_Fprintln; [lia | | done]. right. right. left. by exists e'.
    + intros _ _. by apply step_returns.
Qed.

Lemma Display_no_error (resp : list Docker.JSONMessage)
    (out : list string) :
  Docker.DisplayJSONMessagesStream resp = (out, None) ->
  Forall (fun m => Docker.Error m = None) resp.
Proof.
  revert out. induction resp as [| m resp IH]; intros out; [constructor |].
  simpl. destruct (Docker.Error m) eqn:Hm; [discriminate |].
  destruct (Docker.DisplayJSONMessagesStream resp) as [out' err].
  intros [= _ ->]. constructor; [exact Hm | by eapply IH].
Qed.

Lemma step_engine_run (e : Engine) (cfg : Api.Config) :
  configured h b f platforms cfg -> ValidateConfig h cfg = [] ->
  step h b f platforms st0 16 (engine_run e cfg) 17
    (fun _ => exists fs0 result,
                snd (engine_Build e cfg fs0) = EngineOk result)
    failed.
Proof.
  intros Hcfg Hvalid. unfold engine_run.
  apply step_call_then; [place | place | done |].
  intros st HJ.
  destruct (engine_Build e cfg (fs st)) as [fs' [r | err |]] eqn:He;
    [| by split | exact HJ].
  split; [exact HJ |]. exists (fs st), r. by rewrite He.
Qed.

Lemma step_performBuild (cfg : Api.Config) :
  configured h b f platforms cfg -> ValidateConfig h cfg = [] ->
  step h b f platforms st0 15 (performBuild h b cfg) 17
    (fun _ => engine_succeeded h b cfg) failed.
Proof.
  intros Hcfg Hvalid. unfold performBuild.
  apply (step_bind 15 16 17 _ _
           (fun e => impl b = Some e
                     \/ (impl b = None /\ Strategy h cfg = Ok e)));
    [| lia |].
  { destruct (impl b) eqn:Himpl; [apply step_ret; [lia | by left] |].
    apply step_call_then; [place | place | done |].
    apply step_try; [place | done |]. intros e He. by right. }
  intros e He.
  eapply step_bind; [by apply step_engine_run | lia |].
  intros result (fs0 & res & Hres).
  assert (HQ : engine_succeeded h b cfg) by (by exists e, fs0, res).
  destruct (verbose b) eqn:Hverbose; [| by apply step_ret].
  apply step_for_each; [lia | done |]. intros line.
  apply step_Fprintln; [lia | | done]. by do 3 right.
Qed.

Lemma step_submitArchive (cfg : Api.Config) (tmp : string)
    (client : Docker.Client) :
  configured h b f platforms cfg -> ValidateConfig h cfg = [] ->
  engine_succeeded h b cfg ->
  step h b f platforms st0 17 (submitArchive h b f cfg tmp client) 19
    (fun _ => False)
    (fun e =>
       e = None ->
       exists fs resp,
         Docker.ImageBuild client
           (archive h (Regexp.MustCompile excludeRegExp) tmp fs)
           {| Docker.Tags := [Fn.Image (Fn.Build f)];
              Docker.PullParent := true;
              Docker.Version := Docker.BuilderBuildKit |}
         = Ok resp
         /\ Forall (fun m => Docker.Error m = None) resp).
Proof.
  intros Hcfg Hvalid Hengine. unfold submitArchive.
  pose proof Hcfg as (_ & _ & _ & _ & _ & _ & _ & _ & _ & _ & Hex & _).
  rewrite Hex.
  apply step_get_fs_then. intros fs1.
  apply (step_bind 17 17 19 _ _ (fun _ => True)); [| lia |].
  { destruct (Os.Stat fs1 (Api.AsDockerfile cfg)); [| by apply step_ret].
    apply step_fs_op_then; [lia |]. intros err. by apply step_check. }
  intros _ _. apply step_get_fs_then. intros fs2.
  apply step_call_then; [place | place | |].
  { split; [reflexivity |]. split; [by exists tmp, fs2 | by exists cfg]. }
  apply step_try_then; [place | done |]. intros resp Hresp.
  apply step_defer_then; [place | place | done |].
  destruct (Docker.DisplayJSONMessagesStream resp) as [out err] eqn:Hout.
  apply (step_bind 19 19 19 _ _ (fun _ => True)); [| lia |].
  { destruct (verbose b) eqn:Hverbose; [| by apply step_ret].
    apply step_for_each; [lia | done |]. intros line.
    apply step_Fprintln; [lia | | done]. by do 3 right. }
  intros _ _. apply step_returns; [lia |]. intros ->.
  exists fs2, resp. split; [exact Hresp | by eapply Display_no_error].
Qed.

(** From the build directory on. *)
Lemma step_after_directory (builderImage tmp : string)
    (client : Docker.Client) :
  resolved h b f platforms builderImage ->
  step h b f platforms st0 8
    (let* cfg := buildConfig h b f builderImage tmp client in
     performBuild h b cfg ;;
     submitArchive h b f cfg tmp client)
    19 (fun _ => False)
    (fun e => e = None -> delivered h b f platforms client tmp).
Proof.
  intros Himage.
  eapply step_bind.
  { eapply step_weaken; [by apply step_buildConfig | done | done | done |].
    by intros e He ->. }
  { lia. }
  intros cfg [Hcfg Hvalid].
  eapply step_bind.
  { eapply step_weaken;
      [by apply step_performBuild | done | done | done |].
    by intros e He ->. }
  { lia. }
  intros [] Hengine.
  eapply step_weaken; [by apply step_submitArchive | done | done | done |].
  intros e He Hnone. destruct (He Hnone) as (fs' & resp & Hresp & Hstream).
  by exists cfg, fs', resp.
Qed.

(** From the bridge between the ignore files on. *)
Lemma step_after_client (builderImage : string) (client : Docker.Client) :
  resolved h b f platforms builderImage ->
  step h b f platforms st0 4
    (linkIgnoreFile f ;;
     let* tmp := buildDirectory h in
     let* cfg := buildConfig h b f builderImage tmp client in
     performBuild h b cfg ;;
     submitArchive h b f cfg tmp client)
    19 (fun _ => False)
    (fun e => e = None -> exists tmp, delivered h b f platforms client tmp).
Proof.
  intros Himage.
  eapply step_bind.
  { eapply step_weaken; [apply step_linkIgnoreFile | done | done | done |].
    by intros e He ->. }
  { lia. }
  intros _ _.
  eapply step_bind.
  { eapply step_weaken; [apply step_buildDirectory | done | done | done |].
    by intros e He ->. }
  { lia. }
  intros tmp _.
  eapply step_weaken; [by apply step_after_directory | done | done | done |].
  intros e He Hnone. exists tmp. by apply He.
Qed.

Lemma step_Build_body :
  step h b f platforms st0 1 (Build_body h b f platforms) 19
    (fun _ => False)
    (fun e =>
       e = None ->
       exists client tmp,
         (cli b = Some client \/ (cli b = None /\ NewClient h = Ok client))
         /\ delivered h b f platforms client tmp).
Proof.
  unfold Build_body.
  eapply step_bind.
  { eapply step_weaken;
      [by apply step_resolveBuilderImage | done | done | done |].
    by intros e He ->. }
  { lia. }
  intros image Himage. cbv beta in Himage.
  eapply step_bind.
  { eapply step_weaken; [apply step_dockerClient | lia | done | done |].
    by intros e He ->. }
  { lia. }
  intros client Hclient.
  eapply step_weaken; [by apply step_after_client | done | done | done |].
  intros e He Hnone. destruct (He Hnone) as [tmp Htmp]. by exists client, tmp.
Qed.

End Protocol.

Lemma reached_start (h : Host) (b : Builder) (f : Fn.Function)
    (platforms : list Fn.Platform) (st : State) (n : nat) :
  reached h b f platforms st n st.
Proof.
  split; [| split].
  - exists []. rewrite app_nil_r. repeat split; constructor.
  - exists []. repeat split; constructor.
  - exists []. rewrite app_nil_r. repeat split; constructor.
Qed.

(** What the deferred calls add to the trace. *)
Lemma run_defers_trace (ds : list Deferred) :
  forall st,
    calls (snd (for_each ds run_deferred st))
    = calls st ++ map deferred_call ds
    /\ stderr (snd (for_each ds run_deferred st)) = stderr st
    /\ defers (snd (for_each ds run_deferred st)) = defers st.
Proof.
  induction ds as [| d ds IH]; intros st.
  - simpl. by rewrite app_nil_r.
  - rewrite for_each_deferred.
    destruct (IH (snd (run_deferred d st))) as (Hc & Hl & Hd).
    rewrite Hc, Hl, Hd. clear.
    destruct d; simpl; unfold bind, fs_op; simpl;
      try destruct (Os.Remove path (fs st)); simpl;
      by rewrite <- app_assoc.
Qed.

(** The trace of a call of [Build]. *)
Lemma Build_trace (h : Host) (b : Builder) (f : Fn.Function)
    (platforms : list Fn.Platform) (st : State) :
  exists body ds,
    calls_made h b f platforms st = body ++ map deferred_call ds
    /\ StronglySorted (fun c c' => phase c < phase c') body
    /\ Forall (made_by h b f platforms) body
    /\ StronglySorted (fun d d' => dphase d' < dphase d) ds
    /\ Forall (registered_by b f) ds
    /\ Forall (written_by b) (lines_written h b f platforms st).
Proof.
  unfold calls_made, lines_written, Build.
  set (st0 := {| fs := fs st; stderr := stderr st; calls := calls st;
                 defers := [] |}).
  pose proof (step_Build_body h b f platforms st0 st0
                (reached_start h b f platforms st0 1)) as Hstep.
  destruct (Build_body h b f platforms st0) as [o st1].
  assert (HJ : reached h b f platforms st0 19 st1).
  { destruct o as [[] | e |]; [by destruct Hstep | by destruct Hstep
                               | exact Hstep]. }
  clear Hstep.
  destruct HJ as ((cs & Hc & Hcs & Hca) & (ds & Hd & Hds & Hda)
                  & (ls & Hl & Hls)).
  rewrite app_nil_r in Hd.
  destruct (run_defers_trace (defers st1) st1) as (Hc2 & Hl2 & _).
  destruct (for_each (defers st1) run_deferred st1) as [o2 st2].
  simpl in *. rewrite Hc2, Hl2, Hc, Hl, Hd.
  rewrite <- app_assoc, !skipn_length_app.
  exists cs, ds. repeat split; try done.
  - eapply Forall_impl; [exact Hca |]. by intros c [? _].
  - eapply Forall_impl; [exact Hda |]. by intros d [? _].
Qed.

Lemma deferred_call_made (h : Host) (b : Builder) (f : Fn.Function)
    (platforms : list Fn.Platform) (d : Deferred) :
  ~ made_by h b f platforms (deferred_call d)
  \/ exists path, d = Defer_RemoveAll path.
Proof. destruct d; simpl; eauto. Qed.


(** X10.  A builder that was given its client makes no client of its own
    and never closes the client it was given. *)
Theorem supplied_client_is_not_closed
    (h : Host) (b : Builder) (f : Fn.Function)
    (platforms : list Fn.Platform) (st : State) (c : Docker.Client)
    (Hcli : cli b = Some c) :
  ~ In Call_NewClient (calls_made h b f platforms st)
  /\ ~ In Call_ClientClose (calls_made h b f platforms st).
Proof.
  destruct (Build_trace h b f platforms st)
    as (body & ds & -> & _ & Hm & _ & Hr & _).
  rewrite Forall_forall in Hm. rewrite Forall_forall in Hr.
  split; intros [Hin | Hin]%in_app_or.
  - apply list_elem_of_In, Hm in Hin. simpl in Hin. congruence.
  - apply in_map_iff in Hin as (d & Hd & _). by destruct d.
  - by apply list_elem_of_In, Hm in Hin.
  - apply in_map_iff in Hin as (d & Hd & Hin).
    apply list_elem_of_In, Hr in Hin.
    destruct d; try discriminate. simpl in Hin. congruence.
Qed.

(** X11.  The engine is run, and the strategy looked up, only on a
    configuration for which validation has reported no error, and that
    configuration is the one [Build] has assembled: the local source root,
    the image tag of the function, the resolved builder image, the default
    pull policies, the instructions file in the build directory, a script
    location that is never the engine's own default, the exclusion pattern,
    the interpolated build environment, and the two copy flags exactly for
    the runtime "go".  The strategy is looked up only by a builder without
    an engine of its own. *)
Theorem engine_runs_on_validated_configuration
    (h : Host) (b : Builder) (f : Fn.Function)
    (platforms : list Fn.Platform) (st : State) (cfg : Api.Config) :
  (In (Call_EngineBuild cfg) (calls_made h b f platforms st) ->
   ValidateConfig h cfg = [] /\ configured h b f platforms cfg)
  /\ (In (Call_Strategy cfg) (calls_made h b f platforms st) ->
      impl b = None /\ ValidateConfig h cfg = []
      /\ configured h b f platforms cfg).
Proof.
  destruct (Build_trace h b f platforms st)
    as (body & ds & -> & _ & Hm & _ & _ & _).
  rewrite Forall_forall in Hm.
  split; intros [Hin | Hin]%in_app_or;
    try (apply in_map_iff in Hin as (d & Hd & _); by destruct d);
    apply list_elem_of_In, Hm in Hin; simpl in Hin; tauto.
Qed.

(** X12.  Every image build that [Build] asks of the daemon is tagged with
    the image of the function, pulls the parent image and uses BuildKit, and
    the archive it submits has no header for the root of the walk or for a
    name that the exclusion pattern matches. *)
Theorem submitted_archive_is_filtered
    (h : Host) (b : Builder) (f : Fn.Function)
    (platforms : list Fn.Platform) (st : State)
    (ar : Archive) (opts : Docker.ImageBuildOptions)
    (Hcall : In (Call_ImageBuild ar opts) (calls_made h b f platforms st)) :
  opts = {| Docker.Tags := [Fn.Image (Fn.Build f)];
            Docker.PullParent := true;
            Docker.Version := Docker.BuilderBuildKit |}
  /\ (forall hdr,
        In hdr (headers (items ar)) ->
        Tar.Name hdr <> "." /\ excluded (Tar.Name hdr) = false).
Proof.
  destruct (Build_trace h b f platforms st)
    as (body & ds & Hc & _ & Hm & _ & _ & _).
  rewrite Hc in Hcall. rewrite Forall_forall in Hm.
  apply in_app_or in Hcall as [Hin | Hin].
  2: { apply in_map_iff in Hin as (d & Hd & _). by destruct d. }
  apply list_elem_of_In, Hm in Hin. simpl in Hin.
  destruct Hin as (-> & (tmp & fs' & ->) & _).
  split; [reflexivity |]. intros hdr Hhdr.
  destruct (archive_headers h tmp fs' hdr Hhdr) as (H1 & H2 & _).
  by split.
Qed.

(** X13.  A builder that is not verbose writes nothing to the standard
    error stream but the two warnings (about an existing legacy ignore file,
    about a reference by tag) and the errors of validation, each behind
    "ERROR: "; the messages of the engine and the progress of the daemon are
    not written. *)
Theorem quiet_build_writes_warnings_only
    (h : Host) (b : Builder) (f : Fn.Function)
    (platforms : list Fn.Platform) (st : State) (line : string)
    (Hquiet : verbose b = false)
    (Hline : In line (lines_written h b f platforms st)) :
  line = ignoreWarning \/ line = tagWarning
  \/ exists e, line = ("ERROR: " ++ e)%string.
Proof.
  destruct (Build_trace h b f platforms st)
    as (body & ds & _ & _ & _ & _ & _ & Hl).
  rewrite Forall_forall in Hl. apply list_elem_of_In, Hl in Hline.
  destruct Hline as [? | [? | [? | ?]]]; auto. congruence.
Qed.

Lemma supplied_client_is_not_closed_witness :
  ~ In Call_NewClient
      (calls_made Sample.host Sample.builderWithClient Sample.pythonFunction
         [] Sample.state)
  /\ ~ In Call_ClientClose
         (calls_made Sample.host Sample.builderWithClient
            Sample.pythonFunction [] Sample.state).
Proof.
  apply (supplied_client_is_not_closed Sample.host Sample.builderWithClient
           Sample.pythonFunction [] Sample.state Sample.daemon).
  reflexivity.
Defined.

Lemma engine_runs_on_validated_configuration_witness :
  ValidateConfig Sample.host Sample.engineConfig = []
  /\ configured Sample.host Sample.builder Sample.pythonFunction []
       Sample.engineConfig.
Proof.
  apply (proj1 (engine_runs_on_validated_configuration Sample.host
                  Sample.builder Sample.pythonFunction [] Sample.state
                  Sample.engineConfig)).
  vm_compute. repeat (first [left; reflexivity | right]).
Defined.

Lemma submitted_archive_is_filtered_witness :
  forallb (fun hdr => negb (excluded (Tar.Name hdr)))
    (headers (items
       (archive Sample.host (Regexp.MustCompile excludeRegExp)
          Sample.tmpdir
          (fs (snd (Build Sample.host Sample.builder Sample.pythonFunction
                      [] Sample.state))))))
  = true.
Proof.
  apply forallb_forall. intros hdr Hhdr. apply negb_true_iff.
  refine (proj2 (proj2 (submitted_archive_is_filtered Sample.host
                          Sample.builder Sample.pythonFunction []
                          Sample.state _ _ _) hdr Hhdr)).
  vm_compute. repeat (first [left; reflexivity | right]).
Defined.

Lemma quiet_build_writes_warnings_only_witness :
  tagWarning = ignoreWarning \/ tagWarning = tagWarning
  \/ exists e, tagWarning = ("ERROR: " ++ e)%string.
Proof.
  apply (quiet_build_writes_warnings_only Sample.host Sample.builder
           Sample.customFunction [] Sample.state tagWarning).
  - reflexivity.
  - vm_compute. repeat (first [left; reflexivity | right]).
Defined.

(** ** The end of a build *)

(** The state [Build] starts its body in, and the state at the end of the
    body. *)
Lemma Build_unfold (h : Host) (b : Builder) (f : Fn.Function)
    (platforms : list Fn.Platform) (st : State) :
  let st0 := {| fs := fs st; stderr := stderr st; calls := calls st;
                defers := [] |} in
  let o := fst (Build_body h b f platforms st0) in
  let st1 := snd (Build_body h b f platforms st0) in
  let st2 := snd (for_each (defers st1) run_deferred st1) in
  Build h b f platforms st
  = (match o with
     | Val _ => Returned None
     | Return err => Returned err
     | Panicked => Panicking
     end,
     {| fs := fs st2; stderr := stderr st2; calls := calls st2;
        defers := defers st |}).
Proof.
  cbv zeta. unfold Build.
  destruct (Build_body h b f platforms _) as [o st1]. simpl.
  by destruct (for_each (defers st1) run_deferred st1).
Qed.

Lemma calls_made_unfold (h : Host) (b : Builder) (f : Fn.Function)
    (platforms : list Fn.Platform) (st : State) :
  let st0 := {| fs := fs st; stderr := stderr st; calls := calls st;
                defers := [] |} in
  let st1 := snd (Build_body h b f platforms st0) in
  calls_made h b f platforms st
  = skipn (List.length (calls st)) (calls st1)
      ++ map deferred_call (defers st1).
Proof.
  cbv zeta. unfold calls_made. rewrite Build_unfold. cbv zeta. simpl.
  set (st0 := {| fs := fs st; stderr := stderr st; calls := calls st;
                 defers := [] |}).
  pose proof (step_Build_body h b f platforms st0 st0
                (reached_start h b f platforms st0 1)) as Hstep.
  destruct (Build_body h b f platforms st0) as [o st1]. simpl.
  assert (HJ : reached h b f platforms st0 19 st1).
  { destruct o as [[] | e |]; [by destruct Hstep | by destruct Hstep
                               | exact Hstep]. }
  destruct HJ as ((cs & Hc & _) & _).
  destruct (run_defers_trace (defers st1) st1) as (Hc2 & _).
  rewrite Hc2, Hc. simpl. by rewrite <- app_assoc, !skipn_length_app.
Qed.

(** The end of a step, whatever its outcome. *)
Lemma step_end (h : Host) (b : Builder) (f : Fn.Function)
    (platforms : list Fn.Platform) (st0 : State) {A} (n n' : nat)
    (m : M A) (Q : A -> Prop) (R : option error -> Prop) (st : State) :
  step h b f platforms st0 n m n' Q R ->
  reached h b f platforms st0 n st ->
  reached h b f platforms st0 n' (snd (m st)).
Proof.
  intros Hm HJ. specialize (Hm st HJ).
  destruct (m st) as [[a | e |] st']; simpl; tauto.
Qed.

(** X14.  When the builder has no client of its own and the body of
    [Build] has made one, the closing of that client is the last call of
    [Build], and the only closing of a client: it comes after the build
    directory and the link have been removed. *)
Theorem created_client_is_closed_last
    (h : Host) (b : Builder) (f : Fn.Function)
    (platforms : list Fn.Platform) (st : State) (c : Docker.Client)
    (Hcli : cli b = None)
    (Hnew : NewClient h = Ok c)
    (Hcall : In Call_NewClient (calls_made h b f platforms st)) :
  exists pre,
    calls_made h b f platforms st = pre ++ [Call_ClientClose]
    /\ ~ In Call_ClientClose pre.
Proof.
  rewrite calls_made_unfold in *. cbv zeta in *.
  set (st0 := {| fs := fs st; stderr := stderr st; calls := calls st;
                 defers := [] |}) in *.
  (* the deferred calls as a whole *)
  pose proof (step_end h b f platforms st0 1 19 _ _ _ st0
                (step_Build_body h b f platforms st0)
                (reached_start h b f platforms st0 1)) as HJ.
  destruct HJ as ((cs & Hc & _ & Hca) & (ds & Hd & Hds & Hda) & _).
  rewrite app_nil_r in Hd.
  (* the client's closing is the first one registered *)
  assert (Hlast : exists ds', ds = ds' ++ [Defer_ClientClose]).
  { rewrite <- Hd. clear ds Hd Hds Hda.
    assert (Hbody : In Call_NewClient cs).
    { rewrite Hc in Hcall. simpl in Hcall.
      rewrite skipn_length_app in Hcall.
      apply in_app_or in Hcall as [Hin | Hin]; [exact Hin |].
      apply in_map_iff in Hin as (d & Hd & _). by destruct d. }
    clear Hcall.
    destruct (Build_body h b f platforms st0) as [o st1] eqn:Hrun.
    simpl in *. unfold Build_body in Hrun. unfold bind at 1 in Hrun.
    pose proof (step_resolveBuilderImage h b f platforms st0 platforms
                  eq_refl st0 (reached_start h b f platforms st0 1))
      as Hres.
    destruct (resolveBuilderImage h b f platforms st0)
      as [[image | e |] sta].
    2,3: exfalso; injection Hrun as <- <-;
      assert (HJ : reached h b f platforms st0 2 sta) by tauto;
      destruct HJ as ((cs' & Hc' & _ & Hca') & _);
      rewrite Hc in Hc'; apply app_inv_head in Hc'; subst cs';
      rewrite Forall_forall in Hca';
      apply list_elem_of_In, Hca' in Hbody; simpl in Hbody; lia.
    destruct Hres as [(_ & (dsa & Hda & _ & Hdsa) & _) Himage].
    assert (defers sta = []) as Hnone.
    { rewrite Hda, app_nil_r. destruct dsa as [| d dsa]; [reflexivity |].
      apply Forall_cons in Hdsa as [[_ Hd] _]. destruct d; simpl in Hd; lia. }
    unfold bind at 1 in Hrun. unfold dockerClient at 1 in Hrun.
    rewrite Hcli in Hrun.
    unfold bind at 1 in Hrun. cbn [call fst snd] in Hrun.
    unfold bind at 1 in Hrun.
    rewrite Hnew in Hrun. cbn [try_ ret] in Hrun.
    unfold bind at 1 in Hrun. cbn [defer] in Hrun.
    unfold ret at 1 in Hrun.
    match type of Hrun with
    | ?m ?s = _ =>
        pose proof (step_end h b f platforms s 4 19 m _ _ s
                      (step_after_client h b f platforms s image c Himage)
                      (reached_start h b f platforms s 4)) as HJ
    end.
    rewrite Hrun in HJ.
    destruct HJ as (_ & (ds' & Hd' & _) & _). simpl in Hd'.
    rewrite Hnone in Hd'. by exists ds'. }
  destruct Hlast as [ds' ->].
  exists (skipn (List.length (calls st))
            (calls (snd (Build_body h b f platforms st0)))
          ++ map deferred_call ds').
  rewrite Hd, map_app, app_assoc. split; [reflexivity |].
  rewrite Hc. simpl. rewrite skipn_length_app.
  intros [Hin | Hin]%in_app_or.
  - rewrite Forall_forall in Hca. apply list_elem_of_In, Hca in Hin.
    by destruct Hin.
  - apply in_map_iff in Hin as (d & Hcd & Hin).
    assert (Hlt : Forall (fun d' => dphase Defer_ClientClose < dphase d') ds').
    { clear -Hds. induction ds' as [| d' ds' IH]; [constructor |].
      simpl in Hds. apply StronglySorted_inv in Hds as [Hs Hall].
      constructor; [| by apply IH].
      apply Forall_app in Hall as [_ Hall].
      by apply Forall_cons in Hall as [Hall _]. }
    rewrite Forall_forall in Hlt. apply list_elem_of_In, Hlt in Hin.
    destruct d; try discriminate. simpl in Hin. lia.
Qed.

(** ** The build directory *)

Lemma RemoveAll_clears (dir q : string) (fs : FS) :
  q = dir \/ Os.under dir q = true -> Os.RemoveAll dir fs !! q = None.
Proof.
  intros Hq. unfold Os.RemoveAll. apply map_lookup_filter_None. right.
  intros n _ [Hne Hunder]. simpl in *. destruct Hq; congruence.
Qed.

(** The deferred removal of a directory leaves nothing at or below it,
    whatever else is deferred. *)
Lemma run_defers_clears (dir q : string) (ds : list Deferred) :
  q = dir \/ Os.under dir q = true ->
  forall st,
    In (Defer_RemoveAll dir) ds ->
    fs (snd (for_each ds run_deferred st)) !! q = None.
Proof.
  intros Hq. induction ds as [| d ds IH]; intros st Hin; [destruct Hin |].
  rewrite for_each_deferred.
  destruct Hin as [-> | Hin]; [| by apply IH].
  apply run_defers_absent. simpl. by apply RemoveAll_clears.
Qed.

(** What the bridge does to a name that is free. *)
Lemma linkIgnoreFile_free (f : Fn.Function) (q : string) (st : State) :
  fs st !! q = None ->
  fs (snd (linkIgnoreFile f st)) !! q = None
  \/ scoped q (snd (linkIgnoreFile f st)).
Proof.
  intros Hq. unfold linkIgnoreFile, bind, get_fs. simpl.
  destruct (Os.Stat (fs st) (funcignorePath f)); [| by left].
  destruct (Os.Stat (fs st) (s2iignorePath f)); [by left |].
  simpl. unfold fs_op, Os.Symlink_. simpl.
  destruct (fs st !! s2iignorePath f) eqn:Hp; simpl; [by left |].
  destruct (decide (q = s2iignorePath f)) as [-> | Hne].
  - right. split; simpl; [| by left].
    eexists. split; [apply lookup_insert_eq | done].
  - left. by rewrite lookup_insert_ne.
Qed.

(** How the step that makes the build directory ends. *)
Lemma buildDirectory_end (h : Host) (st : State) :
  (exists name,
     fst (buildDirectory h st) = Val name
     /\ MkdirTemp_name h (fs st) = Ok name
     /\ In (Defer_RemoveAll name) (defers (snd (buildDirectory h st))))
  \/ ((forall name, fst (buildDirectory h st) <> Val name)
      /\ fs (snd (buildDirectory h st)) = fs st
      /\ defers (snd (buildDirectory h st)) = defers st).
Proof.
  unfold buildDirectory, os_MkdirTemp, bind, call. simpl.
  destruct (MkdirTemp_name h (fs st)) as [name |] eqn:Hname; simpl;
    [| by right].
  destruct (Os.Mkdir name (fs st)); simpl; [| by right].
  left. exists name. repeat split. by left.
Qed.

(** X15.  The host hands out the name [tmp] for the build directory, and
    nothing is at or below [tmp] when [Build] starts.  Then nothing is at or
    below [tmp] when [Build] ends, however it ends (with or without an
    error, or by a panic of the engine) and whatever the scaffolding and the
    engine have written there. *)
Theorem build_directory_is_removed
    (h : Host) (b : Builder) (f : Fn.Function)
    (platforms : list Fn.Platform) (st : State) (tmp q : string)
    (Hname : forall fs name, MkdirTemp_name h fs = Ok name -> name = tmp)
    (Hfree : forall q', q' = tmp \/ Os.under tmp q' = true ->
                        fs st !! q' = None)
    (Hq : q = tmp \/ Os.under tmp q = true) :
  fs (snd (Build h b f platforms st)) !! q = None.
Proof.
  rewrite Build_unfold. cbv zeta. simpl.
  set (st0 := {| fs := fs st; stderr := stderr st; calls := calls st;
                 defers := [] |}).
  assert (Hend :
    let st1 := snd (Build_body h b f platforms st0) in
    (fs st1 !! q = None \/ scoped q st1)
    \/ In (Defer_RemoveAll tmp) (defers st1)).
  { cbv zeta.
    destruct (Build_body h b f platforms st0) as [o st1] eqn:Hrun.
    simpl. unfold Build_body in Hrun. unfold bind at 1 in Hrun.
    pose proof (resolveBuilderImage_fs h b f platforms st0) as Hfs1.
    pose proof (step_resolveBuilderImage h b f platforms st0 platforms
                  eq_refl st0 (reached_start h b f platforms st0 1))
      as Hres.
    destruct (resolveBuilderImage h b f platforms st0)
      as [[image | e |] sta]; simpl in Hfs1;
      try (injection Hrun as <- <-; left; left; rewrite Hfs1;
           by apply Hfree).
    destruct Hres as [_ Himage].
    unfold bind at 1 in Hrun.
    pose proof (dockerClient_fs h b sta) as Hfs2.
    destruct (dockerClient h b sta) as [[client | e |] stb];
      simpl in Hfs2;
      try (injection Hrun as <- <-; left; left; rewrite Hfs2, Hfs1;
           by apply Hfree).
    unfold bind at 1 in Hrun.
    pose proof (linkIgnoreFile_free f q stb) as Hlink.
    rewrite Hfs2, Hfs1 in Hlink. specialize (Hlink (Hfree q Hq)).
    destruct (linkIgnoreFile f stb) as [[[] | e |] stc]; simpl in Hlink;
      try (injection Hrun as <- <-; by left).
    unfold bind at 1 in Hrun.
    destruct (buildDirectory_end h stc)
      as [(name & Hval & Hmk & Hin) | (Hnot & Hfs4 & Hd4)].
    - apply Hname in Hmk as ->.
      destruct (buildDirectory h stc) as [o4 std]. simpl in Hval, Hin.
      subst o4. right.
      match type of Hrun with
      | ?m ?s = _ =>
          pose proof (step_end h b f platforms s 8 19 m _ _ s
                        (step_after_directory h b f platforms s image tmp
                           client Himage)
                        (reached_start h b f platforms s 8)) as HJ
      end.
      rewrite Hrun in HJ. destruct HJ as (_ & (ds & Hds & _) & _).
      simpl in Hds. rewrite Hds. apply in_or_app. by right.
    - destruct (buildDirectory h stc) as [[name | e |] std];
        simpl in Hnot, Hfs4, Hd4; [by destruct (Hnot name) | |].
      all: injection Hrun as <- <-; left.
      all: destruct Hlink as [Hnone | [Hl Hd]]; [left; by rewrite Hfs4 |].
      all: right; split; [by rewrite Hfs4 | by rewrite Hd4]. }
  cbv zeta in Hend.
  destruct Hend as [[Hnone | [Hl Hd]] | Hin].
  - by apply run_defers_absent.
  - by apply run_defers_scoped.
  - by apply (run_defers_clears tmp).
Qed.

(** X16.  [Build] returns without an error only when a client was at hand
    (the builder's own or a new one), the assembled configuration has passed
    validation, the engine has reported success on it, the daemon has
    accepted the image build for the archive of the build directory, and its
    progress stream carries no error. *)
Theorem success_means_image_built
    (h : Host) (b : Builder) (f : Fn.Function)
    (platforms : list Fn.Platform) (st : State)
    (Hok : fst (Build h b f platforms st) = Returned None) :
  exists client tmp cfg fs resp,
    (cli b = Some client \/ (cli b = None /\ NewClient h = Ok client))
    /\ configured h b f platforms cfg
    /\ ValidateConfig h cfg = []
    /\ engine_succeeded h b cfg
    /\ Docker.ImageBuild client
         (archive h (Regexp.MustCompile excludeRegExp) tmp fs)
         {| Docker.Tags := [Fn.Image (Fn.Build f)];
            Docker.PullParent := true;
            Docker.Version := Docker.BuilderBuildKit |}
       = Ok resp
    /\ Forall (fun m => Docker.Error m = None) resp.
Proof.
  rewrite Build_unfold in Hok. cbv zeta in Hok. simpl in Hok.
  set (st0 := {| fs := fs st; stderr := stderr st; calls := calls st;
                 defers := [] |}) in *.
  pose proof (step_Build_body h b f platforms st0 st0
                (reached_start h b f platforms st0 1)) as Hstep.
  destruct (Build_body h b f platforms st0) as [[[] | e |] st1];
    simpl in Hok; [by destruct Hstep | | discriminate].
  injection Hok as ->. destruct Hstep as [_ Hdone].
  destruct (Hdone eq_refl) as (client & tmp & Hclient & Hd).
  destruct Hd as (cfg & fs' & resp & Hd).
  by exists client, tmp, cfg, fs', resp.
Qed.

(** X17.  The daemon is asked to build an image only after the engine has
    reported success on an assembled configuration that has passed
    validation. *)
Theorem image_build_follows_engine_success
    (h : Host) (b : Builder) (f : Fn.Function)
    (platforms : list Fn.Platform) (st : State)
    (ar : Archive) (opts : Docker.ImageBuildOptions)
    (Hcall : In (Call_ImageBuild ar opts) (calls_made h b f platforms st)) :
  exists cfg,
    configured h b f platforms cfg
    /\ ValidateConfig h cfg = []
    /\ engine_succeeded h b cfg.
Proof.
  destruct (Build_trace h b f platforms st)
    as (body & ds & Hc & _ & Hm & _ & _ & _).
  rewrite Hc in Hcall. rewrite Forall_forall in Hm.
  apply in_app_or in Hcall as [Hin | Hin].
  2: { apply in_map_iff in Hin as (d & Hd & _). by destruct d. }
  apply list_elem_of_In, Hm in Hin. simpl in Hin. tauto.
Qed.

Lemma created_client_is_closed_last_witness :
  exists pre,
    calls_made Sample.host Sample.builder Sample.pythonFunction []
      Sample.state
    = pre ++ [Call_ClientClose]
    /\ ~ In Call_ClientClose pre.
Proof.
  apply (created_client_is_closed_last Sample.host Sample.builder
           Sample.pythonFunction [] Sample.state Sample.daemon).
  - reflexivity.
  - reflexivity.
  - vm_compute. repeat (first [left; reflexivity | right]).
Defined.

Lemma build_directory_is_removed_witness :
  fs (snd (Build Sample.host Sample.builder Sample.pythonFunction []
             Sample.state))
    !! "/tmp/func-s2i-build1/Dockerfile"
  = None.
Proof.
  apply (build_directory_is_removed Sample.host Sample.builder
           Sample.pythonFunction [] Sample.state Sample.tmpdir).
  - by intros fs name [= <-].
  - intros q Hq. simpl.
    rewrite lookup_insert_ne, lookup_singleton_ne; [reflexivity | |];
      intros <-; destruct Hq as [Hq | Hq]; vm_compute in Hq; discriminate.
  - right. vm_compute. reflexivity.
Defined.

Lemma success_means_image_built_witness :
  exists client tmp cfg fs resp,
    (cli Sample.builder = Some client
     \/ (cli Sample.builder = None
         /\ NewClient (Sample.hostWith Sample.visitsRelativeLink)
            = Ok client))
    /\ configured (Sample.hostWith Sample.visitsRelativeLink) Sample.builder
         Sample.pythonFunction [] cfg
    /\ ValidateConfig (Sample.hostWith Sample.visitsRelativeLink) cfg = []
    /\ engine_succeeded (Sample.hostWith Sample.visitsRelativeLink)
         Sample.builder cfg
    /\ Docker.ImageBuild client
         (archive (Sample.hostWith Sample.visitsRelativeLink)
            (Regexp.MustCompile excludeRegExp) tmp fs)
         {| Docker.Tags := [Fn.Image (Fn.Build Sample.pythonFunction)];
            Docker.PullParent := true;
            Docker.Version := Docker.BuilderBuildKit |}
       = Ok resp
    /\ Forall (fun m => Docker.Error m = None) resp.
Proof.
  apply (success_means_image_built
           (Sample.hostWith Sample.visitsRelativeLink) Sample.builder
           Sample.pythonFunction [] Sample.state).
  vm_compute. reflexivity.
Defined.

Lemma image_build_follows_engine_success_witness :
  exists cfg,
    configured Sample.host Sample.builder Sample.pythonFunction [] cfg
    /\ ValidateConfig Sample.host cfg = []
    /\ engine_succeeded Sample.host Sample.builder cfg.
Proof.
  refine (image_build_follows_engine_success Sample.host Sample.builder
            Sample.pythonFunction [] Sample.state _ _ _).
  vm_compute. repeat (first [left; reflexivity | right]).
Defined.

(** ** The options of [NewBuilder] *)

Lemma NewBuilder_snoc (DefaultName : string) (options : list Option_)
    (o : Option_) :
  NewBuilder DefaultName (options ++ [o]) = o (NewBuilder DefaultName options).
Proof. unfold NewBuilder. by rewrite fold_left_app. Qed.

Lemma fold_left_leaves {A} (field : Builder -> A) (rest : list Option_) :
  Forall (leaves field) rest ->
  forall b, field (fold_left (fun b o => o b) rest b) = field b.
Proof.
  induction 1 as [| o rest Ho _ IH]; intros b; [reflexivity |].
  simpl. by rewrite IH, Ho.
Qed.

Lemma NewBuilder_last {A} (field : Builder -> A) (DefaultName : string)
    (options rest : list Option_) (o : Option_) :
  Forall (leaves field) rest ->
  field (NewBuilder DefaultName (options ++ o :: rest))
  = field (o (NewBuilder DefaultName options)).
Proof.
  intros Hrest. unfold NewBuilder. rewrite fold_left_app. simpl.
  by apply fold_left_leaves.
Qed.

(** X18.  A builder made without options has the default name, is not
    verbose and has neither an engine nor a client of its own.  The options
    are applied in the order given.  Each of the four options sets its own
    field and leaves the other three as they are; hence a field has the
    value of the last option given for it, whatever options for other fields
    come after, and keeps its default when no option is given for it. *)
Theorem NewBuilder_options (DefaultName : string) :
  NewBuilder DefaultName []
  = {| name := DefaultName; verbose := false; impl := None; cli := None |}
  /\ (forall options o,
        NewBuilder DefaultName (options ++ [o])
        = o (NewBuilder DefaultName options))
  /\ (forall n v s c,
        leaves name (WithVerbose v) /\ leaves name (WithImpl s)
        /\ leaves name (WithDockerClient c)
        /\ leaves verbose (WithName n) /\ leaves verbose (WithImpl s)
        /\ leaves verbose (WithDockerClient c)
        /\ leaves impl (WithName n) /\ leaves impl (WithVerbose v)
        /\ leaves impl (WithDockerClient c)
        /\ leaves cli (WithName n) /\ leaves cli (WithVerbose v)
        /\ leaves cli (WithImpl s))
  /\ (forall options rest n,
        Forall (leaves name) rest ->
        name (NewBuilder DefaultName (options ++ WithName n :: rest)) = n)
  /\ (forall options rest v,
        Forall (leaves verbose) rest ->
        verbose (NewBuilder DefaultName (options ++ WithVerbose v :: rest))
        = v)
  /\ (forall options rest s,
        Forall (leaves impl) rest ->
        impl (NewBuilder DefaultName (options ++ WithImpl s :: rest)) = s)
  /\ (forall options rest c,
        Forall (leaves cli) rest ->
        cli (NewBuilder DefaultName (options ++ WithDockerClient c :: rest))
        = c)
  /\ (forall options,
        Forall (leaves name) options ->
        name (NewBuilder DefaultName options) = DefaultName)
  /\ (forall options,
        Forall (leaves cli) options ->
        cli (NewBuilder DefaultName options) = None).
Proof.
  split; [reflexivity |].
  split; [apply NewBuilder_snoc |].
  split; [by repeat split |].
  repeat split; intros;
    first [ by rewrite NewBuilder_last
          | unfold NewBuilder; by rewrite fold_left_leaves ].
Qed.

Lemma NewBuilder_options_witness :
  name (NewBuilder "s2i"
          ([WithVerbose true; WithName "first"]
             ++ WithName "second" :: [WithDockerClient None]))
  = "second".
Proof.
  apply (proj1 (proj2 (proj2 (proj2 (NewBuilder_options "s2i"))))).
  repeat constructor.
Defined.

(** ** A single target platform *)

(** X19.  For a request with one platform whose builder image resolves,
    [Build] asks for the platform image of the builder image, with the
    platform written as "os/architecture" in lower case.  When that fails,
    [Build] returns the error, wrapped, and has done nothing else; when the
    build goes on, the image that is inspected and that the engine is
    configured with is the platform image. *)
Theorem single_platform
    (h : Host) (b : Builder) (f : Fn.Function) (pf : Fn.Platform)
    (st : State) (image : string)
    (Himage : BuilderImage f (name b) = Ok image) :
  (forall e,
     GetPlatformImage h image (platformOf pf) = Err e ->
     Build h b f [pf] st
     = (Returned
          (Some (fmt_Errorf_w
                   "cannot get platform image reference for %q: %w"
                   [platformOf pf] e)),
        {| fs := fs st; stderr := stderr st;
           calls := calls st
                      ++ [Call_GetPlatformImage image (platformOf pf)];
           defers := defers st |}))
  /\ (forall cfg,
        In (Call_EngineBuild cfg) (calls_made h b f [pf] st) ->
        GetPlatformImage h image (platformOf pf)
        = Ok (Api.BuilderImage cfg))
  /\ (forall image',
        In (Call_ImageInspect image') (calls_made h b f [pf] st) ->
        GetPlatformImage h image (platformOf pf) = Ok image')
  /\ platformOf {| Fn.OS := "Linux"; Fn.Architecture := "ARM64" |}
     = "linux/arm64".
Proof.
  split; [| split; [| split; [| reflexivity]]].
  - intros e He. unfold Build, Build_body, resolveBuilderImage.
    rewrite Himage. cbv [bind try_ ret call]. cbn [fst snd].
    fold (platformOf pf). rewrite He. reflexivity.
  - intros cfg Hin.
    destruct (Build_trace h b f [pf] st)
      as (body & ds & Hc & _ & Hm & _ & _ & _).
    rewrite Hc in Hin. rewrite Forall_forall in Hm.
    apply in_app_or in Hin as [Hin | Hin].
    2: { apply in_map_iff in Hin as (d & Hd & _). by destruct d. }
    apply list_elem_of_In, Hm in Hin. simpl in Hin.
    destruct Hin as [(_ & _ & _ & (image0 & H0 & Hp) & _) _].
    congruence.
  - intros image' Hin.
    destruct (Build_trace h b f [pf] st)
      as (body & ds & Hc & _ & Hm & _ & _ & _).
    rewrite Hc in Hin. rewrite Forall_forall in Hm.
    apply in_app_or in Hin as [Hin | Hin].
    2: { apply in_map_iff in Hin as (d & Hd & _). by destruct d. }
    apply list_elem_of_In, Hm in Hin. simpl in Hin.
    destruct Hin as (image0 & H0 & Hp). congruence.
Qed.

Lemma single_platform_witness :
  GetPlatformImage Sample.host DefaultPythonBuilder
    (platformOf Sample.linux_amd64)
  = Ok DefaultPythonBuilder.
Proof.
  refine (proj1 (proj2 (proj2 (single_platform Sample.host Sample.builder
                                 Sample.pythonFunction Sample.linux_amd64
                                 Sample.state DefaultPythonBuilder
                                 eq_refl)))
            DefaultPythonBuilder _).
  vm_compute. repeat (first [left; reflexivity | right]).
Defined.

(** ** The link names of the archive *)

(** The link name of a header the callback writes. *)
Lemma walkFn_linkname (goos : string) (exclude : Regexp.regex)
    (tmp : string) (v : Visit) (hdr : Tar.Header) :
  In hdr (headers (fst (walkFn goos exclude tmp v))) ->
  exists fi p lnk,
    v_info v = Ok fi
    /\ linkname tmp p v fi = Ok lnk
    /\ (Tar.Typeflag_ hdr <> Tar.TypeSymlink -> Tar.Linkname hdr = "")
    /\ (Tar.Typeflag_ hdr = Tar.TypeSymlink ->
        Fs.has (Fs.Mode fi) Fs.ModeSymlink = true
        /\ Tar.Linkname hdr = S_ lnk).
Proof.
  unfold walkFn, Filepath.ToSlash.
  destruct (v_info v) as [fi |]; [| intros []].
  destruct (Filepath.Rel (T tmp) (T (v_path v))) as [p |]; [| intros []].
  destruct (Filepath.text_eqb p Filepath.dot); [intros [] |].
  destruct (Regexp.search exclude true p); [intros [] |].
  destruct (linkname tmp p v fi) as [lnk |] eqn:Hlnk; [| intros []].
  destruct (Tar.FileInfoHeader fi (S_ lnk)) as [hdr0 |] eqn:Hhdr;
    [| intros []].
  assert (H0 : (Tar.Typeflag_ hdr0 <> Tar.TypeSymlink ->
                Tar.Linkname hdr0 = "")
               /\ (Tar.Typeflag_ hdr0 = Tar.TypeSymlink ->
                   Fs.has (Fs.Mode fi) Fs.ModeSymlink = true
                   /\ Tar.Linkname hdr0 = S_ lnk)).
  { unfold Tar.FileInfoHeader in Hhdr.
    repeat case_match; try discriminate; injection Hhdr as <-; simpl;
      split; try done. }
  intros Hin. exists fi, p, lnk. split; [reflexivity |].
  split; [exact Hlnk |].
  assert (Hsame : Tar.Typeflag_ hdr = Tar.Typeflag_ hdr0
                  /\ Tar.Linkname hdr = Tar.Linkname hdr0).
  { repeat case_match; simpl in Hin; try contradiction;
      destruct Hin as [<- | []]; by split. }
  destruct Hsame as [-> ->]. exact H0.
Qed.

(** X20.  A header that is not the header of a symbolic link has no link
    name.  The link name of the header of a symbolic link is the target
    stored in the link when that target is relative; when the target is
    absolute, it is the target made relative to the build directory, and
    then it is not ".." and does not begin with "../". *)
Theorem link_names
    (h : Host) (exclude : Regexp.regex) (tmp : string) (fs : FS)
    (hdr : Tar.Header)
    (Hin : In hdr (headers (items (archive h exclude tmp fs)))) :
  (Tar.Typeflag_ hdr <> Tar.TypeSymlink -> Tar.Linkname hdr = "")
  /\ (Tar.Typeflag_ hdr = Tar.TypeSymlink ->
      exists v target,
        In v (Walk_visits h fs tmp)
        /\ v_readlink v = Ok target
        /\ ((Filepath.IsAbs (T target) = false
             /\ Tar.Linkname hdr = target)
            \/ (Filepath.IsAbs (T target) = true
                /\ exists rel,
                     Filepath.Rel (T tmp) (T target) = Some rel
                     /\ Tar.Linkname hdr = S_ rel
                     /\ rel <> Filepath.dotdot
                     /\ Strings.HasPrefix rel up = false))).
Proof.
  unfold archive in Hin.
  destruct (Walk _ _) as [out err] eqn:HW. simpl in Hin.
  replace out with (fst (Walk (walkFn (GOOS h) exclude tmp)
                           (Walk_visits h fs tmp))) in Hin
    by (by rewrite HW).
  apply Walk_header in Hin as (v & Hv & Hin).
  apply walkFn_linkname in Hin
    as (fi & p & lnk & Hfi & Hlnk & Hother & Hlink).
  split; [exact Hother |].
  intros Hflag. destruct (Hlink Hflag) as [Hmode ->].
  unfold linkname in Hlnk. rewrite Hmode in Hlnk.
  destruct (v_readlink v) as [target |] eqn:Htarget; [| discriminate].
  exists v, target. split; [exact Hv |]. split; [exact Htarget |].
  destruct (Filepath.IsAbs (T target)) eqn:Habs.
  - right. split; [reflexivity |].
    destruct (Filepath.Rel (T tmp) (T target)) as [rel |]; [| discriminate].
    destruct (Strings.HasPrefix rel up) eqn:Hup; [discriminate |].
    destruct (Filepath.text_eqb rel Filepath.dotdot) eqn:Hdd;
      [discriminate |].
    injection Hlnk as <-. exists rel. repeat split; try done.
    by apply text_eqb_false.
  - left. split; [reflexivity |]. injection Hlnk as <-. apply S_T.
Qed.

Lemma link_names_witness :
  Tar.Linkname Sample.dockerfileHeader = "".
Proof.
  refine (proj1 (link_names Sample.host (Regexp.MustCompile excludeRegExp)
                   Sample.tmpdir ∅ Sample.dockerfileHeader _) _).
  - vm_compute. left. reflexivity.
  - discriminate.
Defined.
